(** * flux-suspend-checker: a shallow embedding and its properties

    Source: [flux-path/cluster/suspend/flux-suspend-checker.py].

    The checker walks every listable resource kind of a cluster API, looks at
    three annotations on each instance, removes them once a suspension has
    timed out and reports the remaining suspended instances as three gauges.

    The cluster API, the clock and the timestamp parser are libraries the
    script calls; they appear here as the fields of a record [Externals], and
    the script itself is a program in a state-and-exception monad over them. *)

From Stdlib Require Import String Ascii ZArith List Bool Lia.
From stdpp Require Import base option list gmap strings.

Local Open Scope string_scope.

(** ** Python strings *)

Module PyStr.

(** [s.replace(old, new)] for an empty [old]: [new] goes before every
    character and at the end. *)
Fixpoint intersperse_all (new s : string) : string :=
  match s with
  | EmptyString => new
  | String c s' => new +:+ String c (intersperse_all new s')
  end.

(** [s.replace(old, new)] for a non-empty [old]: a left-to-right scan that
    replaces each non-overlapping occurrence.  [skip] counts the characters
    of a matched occurrence that are still to be dropped. *)
Fixpoint replace_scan (old new : string) (skip : nat) (s : string) : string :=
  match s with
  | EmptyString => EmptyString
  | String c s' =>
      match skip with
      | S k => replace_scan old new k s'
      | O =>
          if String.prefix old s
          then new +:+ replace_scan old new (String.length old - 1) s'
          else String c (replace_scan old new 0 s')
      end
  end.

Definition replace (old new s : string) : string :=
  match old with
  | EmptyString => intersperse_all new s
  | _ => replace_scan old new 0 s
  end.

(** Truthiness of a string: [if s] holds for the non-empty ones. *)
Definition truthy (s : string) : bool :=
  match s with EmptyString => false | _ => true end.

End PyStr.

(** ** Constants of the script (lines 16-18) *)

Definition RECONCILE_ANNOTATION : string := "kustomize.toolkit.fluxcd.io/reconcile".
Definition SUSPEND_UNTIL_ANNOTATION : string := "flux.b2.genesiscloud.dev/suspend-until".
Definition SUSPENDED_BY_ANNOTATION : string := "flux.b2.genesiscloud.dev/suspended-by".

(** ** Escaping of an annotation key into a JSON Patch path (lines 71-74) *)

Definition escape_annotation (annotation : string) : string :=
  let annotation := PyStr.replace "~" "~0" annotation in
  let annotation := PyStr.replace "/" "~1" annotation in
  annotation.

Definition annotation_path (annotation : string) : string :=
  "/metadata/annotations/" +:+ escape_annotation annotation.

(** The inverse the specification speaks of: the two substitutions undone in
    the inverse order, [~1] back to [/] first and [~0] back to [~] last.  The
    script has no such function; this one follows the specification's words
    and is what a server does with a path it receives. *)
Definition unescape_annotation (token : string) : string :=
  let token := PyStr.replace "~1" "/" token in
  let token := PyStr.replace "~0" "~" token in
  token.

(** *** Character-wise view of the escaping *)

Section EscapeFacts.

Local Abbreviation tilde := ("~"%char) (only parsing).
Local Abbreviation slash := ("/"%char) (only parsing).

(** What the first substitution does, one character at a time. *)
Fixpoint escape_tilde (s : string) : string :=
  match s with
  | EmptyString => EmptyString
  | String c s' =>
      if Ascii.eqb c tilde then String tilde (String "0" (escape_tilde s'))
      else String c (escape_tilde s')
  end.

(** What both substitutions do together, one character at a time. *)
Fixpoint escape_both (s : string) : string :=
  match s with
  | EmptyString => EmptyString
  | String c s' =>
      if Ascii.eqb c tilde then String tilde (String "0" (escape_both s'))
      else if Ascii.eqb c slash then String tilde (String "1" (escape_both s'))
      else String c (escape_both s')
  end.

End EscapeFacts.

(** ** Data the script reads and writes *)

(** Exceptions that can end a sweep.  [ParserError] is
    [dateutil.parser.ParserError], the one class the script catches (line
    114); [OtherError] stands for any exception of another class that a
    library call raises, such as the [ValueError] of [isoparse] and the
    [TypeError] of a comparison of datetimes. *)
Inductive exn : Type :=
| AssertionError
| KeyError (key : string)
| ParserError
| OtherError (what : string).

Inductive Result (A : Type) : Type :=
| Ok (a : A)
| Raise (e : exn).
Arguments Ok {A} a.
Arguments Raise {A} e.

(** One entry of [get_api_versions().groups]: [api.name] and
    [api.preferred_version.version]. *)
Record ApiGroup : Type := {
  api_name : string;
  api_preferred_version : string
}.

(** One entry of the [resources] array of a discovery document (line 38). *)
Record APIResource : Type := {
  ar_name : string;
  ar_kind : string;
  ar_verbs : list string;
  ar_namespaced : bool
}.

(** The part of an instance the script looks at: [resource['metadata']] with
    its [annotations], [namespace] and [name] entries, each of which a JSON
    object may lack. *)
Record Metadata : Type := {
  md_annotations : option (gmap string string);
  md_namespace : option string;
  md_name : option string
}.

Record Resource : Type := {
  r_metadata : option Metadata
}.

(** One operation of a JSON Patch body (line 74). *)
Record PatchOp : Type := {
  op : string;
  path : string
}.

Inductive LogLevel : Type := DEBUG | INFO | ERROR.

(** What a sweep does to the outside, in the order it does it: every call to
    the cluster API with its answer, and every log record. *)
Inductive Event : Type :=
| GotApiVersions (answer : Result (list ApiGroup))
| GotResources (endpoint : string) (answer : Result (Z * list APIResource))
| GotItems (endpoint : string) (answer : Result (Z * list Resource))
| Patched (endpoint : string) (headers : list (string * string))
    (body : list PatchOp) (answer : Result Z)
| Logged (level : LogLevel) (message : string).

(** [prometheus_client.core.GaugeMetricFamily]: [add_metric] appends a
    sample, a list of label values with a value. *)
Record GaugeMetricFamily : Type := {
  gm_name : string;
  gm_documentation : string;
  gm_labels : list string;
  gm_samples : list (list string * Z)
}.

Definition add_metric (g : GaugeMetricFamily) (labels : list string) (value : Z)
  : GaugeMetricFamily :=
  {| gm_name := gm_name g;
     gm_documentation := gm_documentation g;
     gm_labels := gm_labels g;
     gm_samples := gm_samples g ++ [(labels, value)] |}.

(** The three gauges of one collection, in the order [getGauges] returns
    them. *)
Record Gauges : Type := {
  gAll : GaugeMetricFamily;
  gUnowned : GaugeMetricFamily;
  gIndefinite : GaugeMetricFamily
}.

(** ** The libraries the script calls

    [call_api] with ['GET'] is split by the field the script reads from the
    decoded answer ([resources] at line 37, [items] at line 47); each call
    gives a status and that field, or raises.  [isoparse] gives a datetime or
    raises; [datetime_lt] is [<] on datetimes, which Python lets raise.
    Every call may change the world it runs in. *)
Record Externals : Type := {
  World : Type;
  datetime : Type;
  get_api_versions : World -> Result (list ApiGroup) * World;
  call_api_resources : string -> World -> Result (Z * list APIResource) * World;
  call_api_items : string -> World -> Result (Z * list Resource) * World;
  call_api_patch :
    string -> list (string * string) -> list PatchOp -> World -> Result Z * World;
  isoparse : string -> Result datetime;
  datetime_now : World -> datetime * World;
  datetime_lt : datetime -> datetime -> Result bool
}.

(** ** The script *)

Declare Scope py_scope.
Delimit Scope py_scope with py.

Section Script.

Context {E : Externals}.

Record State : Type := {
  world : World E;
  trace : list Event;
  gauges : Gauges
}.

(** A computation either returns or raises, and leaves a state in both
    cases. *)
Definition M (A : Type) : Type := State -> Result A * State.

Definition ret {A} (a : A) : M A := fun s => (Ok a, s).

Definition bind {A B} (m : M A) (f : A -> M B) : M B :=
  fun s =>
    match m s with
    | (Ok a, s') => f a s'
    | (Raise e, s') => (Raise e, s')
    end.

Definition raise {A} (e : exn) : M A := fun s => (Raise e, s).

(** [try: m except ParserError: handler] *)
Definition try_except_ParserError {A} (m : M A) (handler : M A) : M A :=
  fun s =>
    match m s with
    | (Raise ParserError, s') => handler s'
    | r => r
    end.

Notation "x ← y ; z" := (bind y (fun x : _ => z))
  (at level 20, y at level 100, z at level 200, only parsing) : py_scope.
Notation "' x ← y ; z" := (bind y (fun x : _ => z))
  (at level 20, x pattern, y at level 100, z at level 200, only parsing) : py_scope.
Notation "x ;; z" := (bind x (fun _ => z))
  (at level 100, z at level 200, only parsing, right associativity) : py_scope.
Local Open Scope py_scope.

(** [for x in xs: body x], left at the first exception. *)
Fixpoint for_each {X} (xs : list X) (body : X -> M unit) : M unit :=
  match xs with
  | [] => ret tt
  | x :: xs' => bind (body x) (fun _ => for_each xs' body)
  end.

Definition assert (b : bool) : M unit :=
  if b then ret tt else raise AssertionError.

(** [d[key]] on a JSON object that may lack [key]. *)
Definition getitem {A} (key : string) (field : option A) : M A :=
  match field with
  | Some a => ret a
  | None => raise (KeyError key)
  end.

Definition lift {A} (r : Result A) : M A := fun s => (r, s).

(** A call to the outside: it runs in the world and its answer is
    recorded. *)
Definition call {A} (f : World E -> Result A * World E) (ev : Result A -> Event)
  : M A :=
  fun s =>
    let '(r, w) := f (world s) in
    (r, {| world := w; trace := trace s ++ [ev r]; gauges := gauges s |}).

Definition now : M (datetime E) :=
  fun s =>
    let '(d, w) := datetime_now E (world s) in
    (Ok d, {| world := w; trace := trace s; gauges := gauges s |}).

Definition log (level : LogLevel) (message : string) : M unit :=
  fun s =>
    (Ok tt, {| world := world s;
               trace := trace s ++ [Logged level message];
               gauges := gauges s |}).

Definition set_gauges (g : Gauges) : M unit :=
  fun s => (Ok tt, {| world := world s; trace := trace s; gauges := g |}).

Definition get_gauges : M Gauges := fun s => (Ok (gauges s), s).

(** Generators are written with the loop that consumes them as an argument:
    [gen body] runs [for x in gen(): body x], so that the calls of the
    generator and the work of its consumer alternate as they do in Python. *)

(** Lines 25-28. *)
Definition getAllAPIs (body : string -> string -> M unit) : M unit :=
  body "" "v1";;
  groups ← call (get_api_versions E) GotApiVersions;
  for_each groups (fun api => body (api_name api) (api_preferred_version api)).

Definition api_endpoint (group version : string) : string :=
  if PyStr.truthy group
  then "/apis/" +:+ group +:+ "/" +:+ version
  else "/api/" +:+ version.

(** Lines 31-38. *)
Definition getAllResourceKindsInAPI (group version : string)
    (body : string -> string -> list string -> bool -> M unit) : M unit :=
  let endpoint := api_endpoint group version in
  '(status, resources) ← call (call_api_resources E endpoint) (GotResources endpoint);
  assert (status =? 200)%Z;;
  for_each resources (fun resource =>
    body (ar_name resource) (ar_kind resource) (ar_verbs resource)
         (ar_namespaced resource)).

Definition list_endpoint (group version plural : string) : string :=
  if PyStr.truthy group
  then "/apis/" +:+ group +:+ "/" +:+ version +:+ "/" +:+ plural
  else "/api/" +:+ version +:+ "/" +:+ plural.

(** Lines 41-47. *)
Definition getAllResourcesInAPI (group version plural : string)
    (body : Resource -> M unit) : M unit :=
  let endpoint := list_endpoint group version plural in
  '(status, items) ← call (call_api_items E endpoint) (GotItems endpoint);
  assert (status =? 200)%Z;;
  for_each items body.

(** [not verbs or 'list' not in verbs] (line 53). *)
Definition not_listable (verbs : list string) : bool :=
  match verbs with
  | [] => true
  | _ => negb (bool_decide ("list" ∈ verbs))
  end.

(** Lines 53-56, the body of the loop over the kinds of one group: a kind
    without the verb is passed over, the instances of any other are listed
    and handed to [body]. *)
Definition listKind
    (body : string -> string -> string -> string -> bool -> Resource -> M unit)
    (group version plural kind : string) (verbs : list string) (namespaced : bool)
  : M unit :=
  if not_listable verbs then ret tt
  else
    getAllResourcesInAPI group version plural (fun resource =>
      body group version plural kind namespaced resource).

(** Lines 50-56. *)
Definition getAllResources
    (body : string -> string -> string -> string -> bool -> Resource -> M unit)
  : M unit :=
  getAllAPIs (fun group version =>
    getAllResourceKindsInAPI group version (listKind body group version)).

Definition patch_endpoint (group version plural namespace name : string) : string :=
  let endpoint := api_endpoint group version in
  let endpoint :=
    if PyStr.truthy namespace then endpoint +:+ "/namespaces/" +:+ namespace
    else endpoint in
  endpoint +:+ "/" +:+ plural +:+ "/" +:+ name.

Definition patch_body (annotations : list string) : list PatchOp :=
  map (fun annotation =>
         {| op := "remove"; path := annotation_path annotation |})
      annotations.

Definition patch_headers : list (string * string) :=
  [("Content-Type", "application/json-patch+json")].

(** Lines 59-87. *)
Definition removeResourceAnnotation
    (group version plural namespace name : string) (annotations : list string)
  : M unit :=
  let endpoint := patch_endpoint group version plural namespace name in
  let body := patch_body annotations in
  status ← call (call_api_patch E endpoint patch_headers body)
                (Patched endpoint patch_headers body);
  assert (status =? 200)%Z.

Definition resource_name (group version namespace name : string) : string :=
  group +:+ "/" +:+ version +:+ " " +:+
    (if PyStr.truthy namespace then namespace +:+ "/" +:+ name else name).

(** [annotations.get(RECONCILE_ANNOTATION) != 'disabled'] negated: the test
    of line 100 lets a resource through when this holds. *)
Definition is_suspended (annotations : gmap string string) : bool :=
  bool_decide (annotations !! RECONCILE_ANNOTATION = Some "disabled").

(** Lines 112-117: the comparison of the parsed timestamp with the clock,
    and what the handler puts in [timedOut] and [hasTimeout] when the
    parser raises [ParserError]. *)
Definition check_timeout (timeout resourceName : string) : M (bool * bool) :=
  try_except_ParserError
    (parsed ← lift (isoparse E timeout);
     current ← now;
     timedOut ← lift (datetime_lt E parsed current);
     ret (timedOut, true))
    (log ERROR ("Failed to parse timestamp " +:+ timeout +:+ " on " +:+ resourceName);;
     ret (false, false)).

(** The body of the loop of [checkAllResources] (lines 93-130) for one
    instance; [yield_] is the consumer of the generator.  [continue] is
    the end of the body. *)
Definition checkResource (yield_ : list string -> bool -> bool -> M unit)
    (group version plural kind : string) (namespaced : bool) (resource : Resource)
  : M unit :=
  meta ← getitem "metadata" (r_metadata resource);
  let annotations := default ∅ (md_annotations meta) in
  namespace ← (if namespaced then getitem "namespace" (md_namespace meta) else ret "");
  name ← getitem "name" (md_name meta);
  let resourceName := resource_name group version namespace name in
  if negb (is_suspended annotations) then ret tt
  else
    log DEBUG ("Resource " +:+ resourceName +:+ " is suspended");;
    let hasTimeout := bool_decide (is_Some (annotations !! SUSPEND_UNTIL_ANNOTATION)) in
    let hasOwner := bool_decide (is_Some (annotations !! SUSPENDED_BY_ANNOTATION)) in
    '(removed, hasTimeout) ←
      (if hasTimeout then
         timeout ← getitem SUSPEND_UNTIL_ANNOTATION (annotations !! SUSPEND_UNTIL_ANNOTATION);
         '(timedOut, hasTimeout) ← check_timeout timeout resourceName;
         if timedOut then
           let removeAnnotations := [RECONCILE_ANNOTATION; SUSPEND_UNTIL_ANNOTATION] in
           let removeAnnotations :=
             if hasOwner then (removeAnnotations ++ [SUSPENDED_BY_ANNOTATION])%list
             else removeAnnotations in
           log INFO ("Removing suspend annotations from " +:+ resourceName);;
           removeResourceAnnotation group version plural namespace name removeAnnotations;;
           ret (true, hasTimeout)
         else ret (false, hasTimeout)
       else ret (false, hasTimeout));
    if removed then ret tt
    else
      label_namespace ←
        (if namespaced then getitem "namespace" (md_namespace meta) else ret "");
      label_name ← getitem "name" (md_name meta);
      let labels := [group +:+ "/" +:+ version; kind; label_namespace; label_name] in
      yield_ labels hasTimeout hasOwner.

(** Lines 91-130. *)
Definition checkAllResources (yield_ : list string -> bool -> bool -> M unit) : M unit :=
  getAllResources (checkResource yield_).

Definition LABELS : list string := ["apiVersion"; "kind"; "namespace"; "name"].

(** Lines 136-153. *)
Definition getGauges : Gauges :=
  {| gAll :=
       {| gm_name := "flux_suspended_resources";
          gm_documentation := "Resources that are suspended from Flux reconciliation";
          gm_labels := LABELS;
          gm_samples := [] |};
     gUnowned :=
       {| gm_name := "flux_suspended_resources_unowned";
          gm_documentation := "Suspended resources that don't have an owner annotation";
          gm_labels := LABELS;
          gm_samples := [] |};
     gIndefinite :=
       {| gm_name := "flux_suspended_resources_indefinite";
          gm_documentation := "Suspended resources that don't have a timeout";
          gm_labels := LABELS;
          gm_samples := [] |} |}.

(** The body of the loop of [collect] (lines 161-163). *)
Definition add_metrics (labels : list string) (hasTimeout hasOwner : bool) : M unit :=
  fun s =>
    let g := gauges s in
    (Ok tt,
     {| world := world s;
        trace := trace s;
        gauges :=
          {| gAll := add_metric (gAll g) labels 1;
             gUnowned := add_metric (gUnowned g) labels (if hasOwner then 0 else 1);
             gIndefinite := add_metric (gIndefinite g) labels (if hasTimeout then 0 else 1) |}
     |}).

(** Lines 158-166: one sweep.  The three gauges are handed out only after
    the loop has ended; an exception in the loop leaves [collect] before
    any of them is. *)
Definition collect : M Gauges :=
  set_gauges getGauges;;
  checkAllResources add_metrics;;
  get_gauges.

End Script.

Arguments State E : clear implicits.
Arguments M E A : clear implicits.

Arguments ret {E A} a.
Arguments raise {E A} e.
Arguments collect {E}.
Arguments Build_State E world trace gauges : clear implicits.

(** A sweep starts in a world with nothing traced yet. *)
Definition fresh {E : Externals} (w : World E) : State E :=
  Build_State E w [] getGauges.

Definition run_sweep {E : Externals} (w : World E) : Result Gauges * State E :=
  collect (fresh w).

(** ** A cluster to run the script against

    Modelled from the spec: the cluster API server, the clock and the parser
    are outside the repository.  The server below is what section 6 of the
    specification asks of it: discovery documents and collections are read
    by endpoint, objects live under their own URL, and a patch either
    removes every annotation it names from the one object it addresses
    (status 200) or changes nothing (another status). *)

(** The time library: datetimes, the parser and the comparison. *)
Record TimeLib : Type := {
  tl_datetime : Type;
  tl_isoparse : string -> Result tl_datetime;
  tl_lt : tl_datetime -> tl_datetime -> Result bool
}.

Module Cluster.

Section WithTime.

Context (T : TimeLib).

Record t : Type := {
  (** the answer of [get_api_versions] *)
  groups : Result (list ApiGroup);
  (** discovery documents by endpoint, with the status of the answer *)
  discovery : gmap string (Z * list APIResource);
  (** collections by endpoint: the status of the answer and the URLs of
      the members, in the order the server lists them *)
  collections : gmap string (Z * list string);
  (** the objects, by URL *)
  objects : gmap string Resource;
  (** URLs the caller may not patch *)
  forbidden : gset string;
  (** the n-th reading of the clock, and the number of readings so far *)
  clock : nat -> tl_datetime T;
  ticks : nat
}.

Definition with_objects (c : t) (objs : gmap string Resource) : t :=
  {| groups := groups c; discovery := discovery c;
     collections := collections c; objects := objs;
     forbidden := forbidden c; clock := clock c; ticks := ticks c |}.

Definition get_groups (c : t) : Result (list ApiGroup) * t := (groups c, c).

Definition get_discovery (endpoint : string) (c : t)
  : Result (Z * list APIResource) * t :=
  (Ok (default (404%Z, []) (discovery c !! endpoint)), c).

Definition members (c : t) (urls : list string) : list Resource :=
  omap (fun url => objects c !! url) urls.

Definition get_collection (endpoint : string) (c : t)
  : Result (Z * list Resource) * t :=
  match collections c !! endpoint with
  | Some (status, urls) => (Ok (status, members c urls), c)
  | None => (Ok (404%Z, []), c)
  end.

(** [strip_prefix p s] is the rest of [s] after [p], when [s] starts
    with [p]. *)
Fixpoint strip_prefix (p s : string) : option string :=
  match p with
  | EmptyString => Some s
  | String a p' =>
      match s with
      | EmptyString => None
      | String b s' => if Ascii.eqb a b then strip_prefix p' s' else None
      end
  end.

Fixpoint has_slash (s : string) : bool :=
  match s with
  | EmptyString => false
  | String c s' => Ascii.eqb c "/" || has_slash s'
  end.

(** The annotation key a path names: one reference token under
    [/metadata/annotations], unescaped. *)
Definition path_key (p : string) : option string :=
  match strip_prefix "/metadata/annotations/" p with
  | Some token => if has_slash token then None else Some (unescape_annotation token)
  | None => None
  end.

Definition remove_annotation (key : string) (r : Resource) : option Resource :=
  match r_metadata r with
  | Some meta =>
      match md_annotations meta with
      | Some annotations =>
          match annotations !! key with
          | Some _ =>
              Some {| r_metadata :=
                        Some {| md_annotations := Some (delete key annotations);
                                md_namespace := md_namespace meta;
                                md_name := md_name meta |} |}
          | None => None
          end
      | None => None
      end
  | None => None
  end.

(** One operation: only the removal of an annotation that is there. *)
Definition apply_op (o : PatchOp) (r : Resource) : option Resource :=
  if String.eqb (op o) "remove" then
    match path_key (path o) with
    | Some key => remove_annotation key r
    | None => None
    end
  else None.

(** The operations of a body in order, all or nothing. *)
Fixpoint apply_ops (body : list PatchOp) (r : Resource) : option Resource :=
  match body with
  | [] => Some r
  | o :: body' =>
      match apply_op o r with
      | Some r' => apply_ops body' r'
      | None => None
      end
  end.

Definition patch (endpoint : string) (headers : list (string * string))
    (body : list PatchOp) (c : t) : Result Z * t :=
  if bool_decide (endpoint ∈ forbidden c) then (Ok 403%Z, c)
  else
    match objects c !! endpoint with
    | None => (Ok 404%Z, c)
    | Some r =>
        match apply_ops body r with
        | Some r' => (Ok 200%Z, with_objects c (<[endpoint := r']> (objects c)))
        | None => (Ok 422%Z, c)
        end
    end.

Definition read_clock (c : t) : tl_datetime T * t :=
  (clock c (ticks c),
   {| groups := groups c; discovery := discovery c;
      collections := collections c; objects := objects c;
      forbidden := forbidden c; clock := clock c; ticks := S (ticks c) |}).

Definition externals : Externals :=
  {| World := t;
     datetime := tl_datetime T;
     get_api_versions := get_groups;
     call_api_resources := get_discovery;
     call_api_items := get_collection;
     call_api_patch := patch;
     isoparse := tl_isoparse T;
     datetime_now := read_clock;
     datetime_lt := tl_lt T |}.

(** One sweep from a cluster: what [collect] gives and the cluster it
    leaves, and the trace of the sweep. *)
Definition sweep (c : t) : Result Gauges * t :=
  let '(r, s) := @run_sweep externals c in (r, world s).

Definition sweep_trace (c : t) : list Event :=
  trace (snd (@run_sweep externals c)).

End WithTime.

End Cluster.

(** ** A time library and clusters for the examples *)

Module Demo.

Definition digit (c : ascii) : option Z :=
  let n := (Z.of_nat (nat_of_ascii c) - 48)%Z in
  if ((0 <=? n) && (n <=? 9))%Z then Some n else None.

(** [number n s] reads [n] decimal digits from the front of [s]. *)
Fixpoint number (n : nat) (acc : Z) (s : string) : option (Z * string) :=
  match n with
  | O => Some (acc, s)
  | S n' =>
      match s with
      | String c s' =>
          match digit c with
          | Some d => number n' (acc * 10 + d)%Z s'
          | None => None
          end
      | EmptyString => None
      end
  end.

Definition expect (c : ascii) (s : string) : option string :=
  match s with
  | String c' s' => if Ascii.eqb c c' then Some s' else None
  | EmptyString => None
  end.

Definition in_range (lo hi x : Z) : bool := ((lo <=? x) && (x <=? hi))%Z.

(** Whether [y] is a leap year, and the days of month [m] of year [y]. *)
Definition leap (y : Z) : bool :=
  ((y mod 4 =? 0) && negb (y mod 100 =? 0) || (y mod 400 =? 0))%Z.

Definition days_in (y m : Z) : Z :=
  if (m =? 2)%Z then (if leap y then 29 else 28)%Z
  else if ((m =? 4) || (m =? 6) || (m =? 9) || (m =? 11))%Z then 30%Z
  else 31%Z.

(** A date [YYYY-MM-DD] at the front of [s], read as the number [YYYYMMDD]. *)
Definition date (s : string) : option (Z * string) :=
  '(y, s) ← number 4 0 s;
  s ← expect "-" s;
  '(m, s) ← number 2 0 s;
  s ← expect "-" s;
  '(d, s) ← number 2 0 s;
  if in_range 1 9999 y && in_range 1 12 m && in_range 1 (days_in y m) d
  then Some (((y * 100 + m) * 100 + d)%Z, s)
  else None.

(** A time of day [HH:MM] or [HH:MM:SS] at the front of [s], read as the
    number [HHMMSS]. *)
Definition time_of_day (s : string) : option (Z * string) :=
  '(h, s) ← number 2 0 s;
  s ← expect ":" s;
  '(mi, s) ← number 2 0 s;
  '(sec, s) ← match expect ":" s with
              | Some s' => number 2 0 s'
              | None => Some (0%Z, s)
              end;
  if in_range 0 23 h && in_range 0 59 mi && in_range 0 59 sec
  then Some (((h * 100 + mi) * 100 + sec)%Z, s)
  else None.

(** The part of [dateutil.parser.isoparse] the examples need.  It reads a
    date [YYYY-MM-DD], alone (midnight) or followed by one character, which
    is [T] in the examples, a time of day [HH:MM] or [HH:MM:SS], and
    possibly the zone designator [Z].  A datetime is the number
    [YYYYMMDDHHMMSS], on which [<] is the order of the instants, with
    whether it is timezone-aware: only a timestamp with a zone designator
    is.  The other forms [isoparse] reads (basic format, week dates,
    fractions of a second, numeric offsets) are not among those of the
    examples and are not read here. *)
Definition parse (s : string) : option (Z * bool) :=
  '(d, s) ← date s;
  match s with
  | EmptyString => Some ((d * 1000000)%Z, false)
  | String _ s =>
      '(t, s) ← time_of_day s;
      if String.eqb s "" then Some ((d * 1000000 + t)%Z, false)
      else if String.eqb s "Z" then Some ((d * 1000000 + t)%Z, true)
      else None
  end.

(** [isoparse] raises [ValueError] on a string it cannot read;
    [ParserError], a subclass of it, is what [dateutil.parser.parse]
    raises. *)
Definition isoparse (s : string) : Result (Z * bool) :=
  match parse s with
  | Some d => Ok d
  | None => Raise (OtherError "ValueError")
  end.

(** [<] on datetimes: Python raises [TypeError] when one is naive and the
    other timezone-aware. *)
Definition lt (a b : Z * bool) : Result bool :=
  if Bool.eqb a.2 b.2 then Ok (a.1 <? b.1)%Z else Raise (OtherError "TypeError").

Definition time : TimeLib :=
  {| tl_datetime := Z * bool; tl_isoparse := isoparse; tl_lt := lt |}.

Definition helmreleases : APIResource :=
  {| ar_name := "helmreleases"; ar_kind := "HelmRelease";
     ar_verbs := ["get"; "list"; "patch"]; ar_namespaced := true |}.

Definition myapp_meta (annotations : gmap string string) : Metadata :=
  {| md_annotations := Some annotations;
     md_namespace := Some "apps";
     md_name := Some "myapp" |}.

Definition myapp (annotations : gmap string string) : Resource :=
  {| r_metadata := Some (myapp_meta annotations) |}.

Definition myapp_url : string := "/apis/apps/v1/namespaces/apps/helmreleases/myapp".

(** A cluster with the one group [apps/v1], the one kind [HelmRelease] and
    the one object [apps/myapp]; every reading of the clock is [now]. *)
Definition cluster (annotations : gmap string string)
    (now : nat -> tl_datetime time) : Cluster.t time :=
  {| Cluster.groups :=
       Ok [{| api_name := "apps"; api_preferred_version := "v1" |}];
     Cluster.discovery :=
       {[ "/api/v1" := (200%Z, []);
          "/apis/apps/v1" := (200%Z, [helmreleases]) ]};
     Cluster.collections :=
       {[ "/apis/apps/v1/helmreleases" := (200%Z, [myapp_url]) ]};
     Cluster.objects := {[ myapp_url := myapp annotations ]};
     Cluster.forbidden := ∅;
     Cluster.clock := now;
     Cluster.ticks := 0 |}.

(** Noon as a naive datetime, which is what [datetime.now()] gives. *)
Definition noon : nat -> tl_datetime time := fun _ => (20240601120000%Z, false).

Definition suspended_only : gmap string string :=
  {[ RECONCILE_ANNOTATION := "disabled" ]}.

Definition suspended_until (timeout : string) : gmap string string :=
  {[ RECONCILE_ANNOTATION := "disabled";
     SUSPEND_UNTIL_ANNOTATION := timeout ]}.

Definition suspended_by_until (owner timeout : string) : gmap string string :=
  {[ RECONCILE_ANNOTATION := "disabled";
     SUSPEND_UNTIL_ANNOTATION := timeout;
     SUSPENDED_BY_ANNOTATION := owner ]}.


Definition other (annotations : gmap string string) : Resource :=
  {| r_metadata :=
       Some {| md_annotations := Some annotations;
               md_namespace := Some "apps";
               md_name := Some "other" |} |}.

Definition other_url : string := "/apis/apps/v1/namespaces/apps/helmreleases/other".

(** Two objects, [apps/myapp] with a suspension that is over and
    [apps/other] suspended for good; the caller may not patch the first. *)
Definition rejecting : Cluster.t time :=
  {| Cluster.groups :=
       Ok [{| api_name := "apps"; api_preferred_version := "v1" |}];
     Cluster.discovery :=
       {[ "/api/v1" := (200%Z, []);
          "/apis/apps/v1" := (200%Z, [helmreleases]) ]};
     Cluster.collections :=
       {[ "/apis/apps/v1/helmreleases" := (200%Z, [myapp_url; other_url]) ]};
     Cluster.objects :=
       {[ myapp_url := myapp (suspended_until "2024-06-01T11:59:50");
          other_url := other suspended_only ]};
     Cluster.forbidden := {[ myapp_url ]};
     Cluster.clock := noon;
     Cluster.ticks := 0 |}.

Definition configmaps : APIResource :=
  {| ar_name := "configmaps"; ar_kind := "ConfigMap";
     ar_verbs := ["get"; "list"]; ar_namespaced := true |}.

(** Two kinds: the listing of the first is answered with status 500, the
    second has the suspended object [apps/myapp]. *)
Definition unlistable : Cluster.t time :=
  {| Cluster.groups := Ok [];
     Cluster.discovery :=
       {[ "/api/v1" := (200%Z, [configmaps]);
          "/apis/apps/v1" := (200%Z, [helmreleases]) ]};
     Cluster.collections :=
       {[ "/api/v1/configmaps" := (500%Z, []);
          "/apis/apps/v1/helmreleases" := (200%Z, [myapp_url]) ]};
     Cluster.objects := {[ myapp_url := myapp suspended_only ]};
     Cluster.forbidden := ∅;
     Cluster.clock := noon;
     Cluster.ticks := 0 |}.

(** An instance of a namespaced kind without a namespace. *)
Definition homeless_meta : Metadata :=
  {| md_annotations := None; md_namespace := None; md_name := Some "stray" |}.

Definition homeless : Resource := {| r_metadata := Some homeless_meta |}.

(** The externals of the examples, and the state a sweep starts in. *)
Definition externals : Externals := Cluster.externals time.

Definition start (c : Cluster.t time) : State externals := @fresh externals c.

(** The body of the loop for an instance of [helmreleases]. *)
Definition check (resource : Resource) : M externals unit :=
  @checkResource externals (@add_metrics externals)
    "apps" "v1" "helmreleases" "HelmRelease" true resource.


(** The samples of a result, gauge by gauge. *)
Definition samples (r : Result Gauges)
  : option (list (list string * Z) * list (list string * Z) * list (list string * Z)) :=
  match r with
  | Ok g => Some (gm_samples (gAll g), gm_samples (gUnowned g), gm_samples (gIndefinite g))
  | Raise _ => None
  end.

Definition myapp_labels : list string := ["apps/v1"; "HelmRelease"; "apps"; "myapp"].

End Demo.

(** ** Vocabulary of the statements *)

Arguments for_each {E X} xs body.
Arguments checkResource {E} yield_ group version plural kind namespaced resource.
Arguments add_metrics {E} labels hasTimeout hasOwner.

(** The annotations line 94 finds on an instance. *)
Definition annotations_of (resource : Resource) : gmap string string :=
  match r_metadata resource with
  | Some meta => default ∅ (md_annotations meta)
  | None => ∅
  end.

(** An instance as the loop of [checkAllResources] receives it (line 92). *)
Record Listed : Type := {
  l_group : string;
  l_version : string;
  l_plural : string;
  l_kind : string;
  l_namespaced : bool;
  l_resource : Resource
}.

(** One row of the report: the instance it is about and what was yielded
    for it (line 130). *)
Record Row : Type := {
  row_instance : Listed;
  row_labels : list string;
  row_hasTimeout : bool;
  row_hasOwner : bool
}.

(** The three samples [collect] adds for one row (lines 161-163). *)
Definition add_row (g : Gauges) (row : Row) : Gauges :=
  {| gAll := add_metric (gAll g) (row_labels row) 1;
     gUnowned :=
       add_metric (gUnowned g) (row_labels row) (if row_hasOwner row then 0 else 1);
     gIndefinite :=
       add_metric (gIndefinite g) (row_labels row)
                  (if row_hasTimeout row then 0 else 1) |}.

Definition report (rows : list Row) : Gauges := fold_left add_row rows getGauges.

Section Vocabulary.

Context {E : Externals}.

(** The namespace and the name lines 95-96 read, when both reads succeed. *)
Definition identity_of (namespaced : bool) (meta : Metadata) (namespace name : string)
  : Prop :=
  (if namespaced then md_namespace meta = Some namespace else namespace = "")
  /\ md_name meta = Some name.

(** [hasTimeout] as line 130 yields it: true when the timestamp parsed and
    the comparison with some reading of the clock said it is not past; false
    when the annotation is absent or the [try] block raised [ParserError]. *)
Definition timeout_flag (annotations : gmap string string) (hasTimeout : bool) : Prop :=
  match annotations !! SUSPEND_UNTIL_ANNOTATION with
  | None => hasTimeout = false
  | Some timeout =>
      match isoparse E timeout with
      | Ok parsed =>
          exists current,
            if hasTimeout then datetime_lt E parsed current = Ok false
            else datetime_lt E parsed current = Raise ParserError
      | Raise e => hasTimeout = false /\ e = ParserError
      end
  end.

(** A row is right for its instance: the instance is suspended, the labels
    are its API version, kind, namespace and name, and the flags are those
    of its annotations. *)
Definition row_ok (row : Row) : Prop :=
  let x := row_instance row in
  exists meta namespace name,
    r_metadata (l_resource x) = Some meta
    /\ identity_of (l_namespaced x) meta namespace name
    /\ annotations_of (l_resource x) !! RECONCILE_ANNOTATION = Some "disabled"
    /\ row_labels row =
         [l_group x +:+ "/" +:+ l_version x; l_kind x; namespace; name]
    /\ row_hasOwner row =
         bool_decide (is_Some (annotations_of (l_resource x) !! SUSPENDED_BY_ANNOTATION))
    /\ timeout_flag (annotations_of (l_resource x)) (row_hasTimeout row).

(** An instance was listed in a trace: a discovery document with status 200
    names its kind with the verb [list], and a collection read with status
    200 under that kind's endpoint contains it. *)
Definition was_listed (t : list Event) (x : Listed) : Prop :=
  (exists resources verbs,
      In (GotResources (api_endpoint (l_group x) (l_version x)) (Ok (200%Z, resources))) t
      /\ In {| ar_name := l_plural x; ar_kind := l_kind x;
               ar_verbs := verbs; ar_namespaced := l_namespaced x |} resources
      /\ In "list" verbs)
  /\ (exists items,
        In (GotItems (list_endpoint (l_group x) (l_version x) (l_plural x))
                     (Ok (200%Z, items))) t
        /\ In (l_resource x) items).

(** A call that did not answer with status 200. *)
Definition failed (ev : Event) : Prop :=
  match ev with
  | GotApiVersions (Raise _) => True
  | GotResources _ (Ok (status, _)) => status <> 200%Z
  | GotResources _ (Raise _) => True
  | GotItems _ (Ok (status, _)) => status <> 200%Z
  | GotItems _ (Raise _) => True
  | Patched _ _ _ (Ok status) => status <> 200%Z
  | Patched _ _ _ (Raise _) => True
  | _ => False
  end.

(** The exception a failed call ends in: the one it raised, or the
    [AssertionError] of the [assert status == 200] after it. *)
Definition exception_of (ev : Event) : exn :=
  match ev with
  | GotApiVersions (Raise e) => e
  | GotResources _ (Raise e) => e
  | GotItems _ (Raise e) => e
  | Patched _ _ _ (Raise e) => e
  | _ => AssertionError
  end.

Definition is_log (ev : Event) : Prop :=
  match ev with Logged _ _ => True | _ => False end.

End Vocabulary.

Arguments timeout_flag E annotations hasTimeout : clear implicits.
Arguments row_ok E row : clear implicits.

(** ** Vocabulary of the proofs *)

Section Semantics.

Context {E : Externals}.

(** [triple P m Q X]: from a state in [P], [m] either returns [a] in a state
    in [Q a] or raises [e] in a state in [X e]. *)
Definition triple {A} (P : State E -> Prop) (m : M E A)
    (Q : A -> State E -> Prop) (X : exn -> State E -> Prop) : Prop :=
  forall s, P s ->
    match m s with
    | (Ok a, s') => Q a s'
    | (Raise e, s') => X e s'
    end.

(** What the body of the loop does with one instance [x] from a state [s]:
    it raises before any call, passes over an instance that is not
    suspended, removes the annotations of one that has timed out, or yields a
    row.  Apart from the removal it only logs and reads the clock. *)
Inductive outcome (yield_ : list string -> bool -> bool -> M E unit) (x : Listed)
    (s : State E) : Result unit * State E -> Prop :=
| out_raised e w logs :
    Forall is_log logs ->
    outcome yield_ x s (Raise e, Build_State E w (trace s ++ logs)%list (gauges s))
| out_active :
    annotations_of (l_resource x) !! RECONCILE_ANNOTATION <> Some "disabled" ->
    outcome yield_ x s (Ok tt, s)
| out_removed meta namespace name timeout parsed current w logs answer w' :
    r_metadata (l_resource x) = Some meta ->
    identity_of (l_namespaced x) meta namespace name ->
    annotations_of (l_resource x) !! RECONCILE_ANNOTATION = Some "disabled" ->
    annotations_of (l_resource x) !! SUSPEND_UNTIL_ANNOTATION = Some timeout ->
    isoparse E timeout = Ok parsed ->
    datetime_lt E parsed current = Ok true ->
    Forall is_log logs ->
    let keys :=
      ([RECONCILE_ANNOTATION; SUSPEND_UNTIL_ANNOTATION] ++
       (if bool_decide (is_Some (annotations_of (l_resource x) !! SUSPENDED_BY_ANNOTATION))
        then [SUSPENDED_BY_ANNOTATION] else []))%list in
    let endpoint :=
      patch_endpoint (l_group x) (l_version x) (l_plural x) namespace name in
    call_api_patch E endpoint patch_headers (patch_body keys) w = (answer, w') ->
    outcome yield_ x s
      (match answer with
       | Ok status => if (status =? 200)%Z then Ok tt else Raise AssertionError
       | Raise e => Raise e
       end,
       Build_State E w'
         (trace s ++ logs ++ [Patched endpoint patch_headers (patch_body keys) answer])%list
         (gauges s))
| out_yielded row w logs :
    row_instance row = x ->
    row_ok E row ->
    Forall is_log logs ->
    outcome yield_ x s
      (yield_ (row_labels row) (row_hasTimeout row) (row_hasOwner row)
         (Build_State E w (trace s ++ logs)%list (gauges s))).

(** A state seen through its trace and its gauges: [J] for what the sweep
    has done so far, [P] for what the trace is known to contain. *)
Definition inv (J : list Event -> Gauges -> Prop) (P : list Event -> Prop)
    (s : State E) : Prop :=
  J (trace s) (gauges s) /\ P (trace s).

Definition exc (X : exn -> list Event -> Prop) (e : exn) (s : State E) : Prop :=
  X e (trace s).

(** A fact about a trace that no later event undoes. *)
Definition monotone (P : list Event -> Prop) : Prop :=
  forall t t', P t -> P (t ++ t')%list.

End Semantics.

(** ** The classifier *)

(** What the specification calls the classifier (section 4.3), read off
    lines 93-126: what the body of the loop makes of one instance, given the
    reading of the clock it would get. *)
Inductive Verdict : Type :=
| Fails (e : exn)
| Active
| TimedOut (namespace name : string) (keys : list string)
| Reported (labels : list string) (hasTimeout hasOwner : bool).

Section Classifier.

Context {E : Externals}.

(** The verdict, and whether the clock is read on the way to it. *)
Definition classify (current : datetime E) (group version kind : string)
    (namespaced : bool) (resource : Resource) : Verdict * bool :=
  match r_metadata resource with
  | None => (Fails (KeyError "metadata"), false)
  | Some meta =>
      match (if namespaced then md_namespace meta else Some "") with
      | None => (Fails (KeyError "namespace"), false)
      | Some namespace =>
          match md_name meta with
          | None => (Fails (KeyError "name"), false)
          | Some name =>
              let annotations := default ∅ (md_annotations meta) in
              let hasOwner :=
                bool_decide (is_Some (annotations !! SUSPENDED_BY_ANNOTATION)) in
              let labels := [group +:+ "/" +:+ version; kind; namespace; name] in
              if negb (is_suspended annotations) then (Active, false)
              else
                match annotations !! SUSPEND_UNTIL_ANNOTATION with
                | None => (Reported labels false hasOwner, false)
                | Some timeout =>
                    match isoparse E timeout with
                    | Raise ParserError => (Reported labels false hasOwner, false)
                    | Raise e => (Fails e, false)
                    | Ok parsed =>
                        match datetime_lt E parsed current with
                        | Ok true =>
                            (TimedOut namespace name
                               ([RECONCILE_ANNOTATION; SUSPEND_UNTIL_ANNOTATION] ++
                                (if hasOwner then [SUSPENDED_BY_ANNOTATION] else []))%list,
                             true)
                        | Ok false => (Reported labels true hasOwner, true)
                        | Raise ParserError => (Reported labels false hasOwner, true)
                        | Raise e => (Fails e, true)
                        end
                    end
                end
          end
      end
  end.

End Classifier.

(** ** Two sweeps in a row

    What is needed to compare a sweep with the one before it, on the
    cluster of [Cluster]. *)

Section Settling.

Context (T : TimeLib).

Local Abbreviation CE := (Cluster.externals T).



















End Settling.

(** ** Vocabulary of the further properties *)

(** A reference token of a JSON Pointer: no [/] in it, and [~] only in front
    of [0] or [1]. *)
Fixpoint reference_token (s : string) : bool :=
  match s with
  | EmptyString => true
  | String c s' =>
      if Ascii.eqb c "/" then false
      else if Ascii.eqb c "~" then
        match s' with
        | String d s'' => (Ascii.eqb d "0" || Ascii.eqb d "1") && reference_token s''
        | EmptyString => false
        end
      else reference_token s'
  end.

(** Lines 155-156: [describe] hands out the three gauges of [getGauges]. *)
Definition describe : list GaugeMetricFamily :=
  [gAll getGauges; gUnowned getGauges; gIndefinite getGauges].

(** Lines 164-166: the gauges in the order [collect] yields them. *)
Definition yielded (g : Gauges) : list GaugeMetricFamily :=
  [gAll g; gUnowned g; gIndefinite g].

(** What a family says of itself, apart from its samples. *)
Definition header (f : GaugeMetricFamily) : string * string * list string :=
  (gm_name f, gm_documentation f, gm_labels f).

(** The keys line 121-123 put in [removeAnnotations]. *)
Definition removal_keys (annotations : gmap string string) : list string :=
  ([RECONCILE_ANNOTATION; SUSPEND_UNTIL_ANNOTATION] ++
   (if bool_decide (is_Some (annotations !! SUSPENDED_BY_ANNOTATION))
    then [SUSPENDED_BY_ANNOTATION] else []))%list.

(** What the removal of the annotations of an instance leaves in the trace
    (lines 103, 124 and 78-86): two log records and the request. *)
Definition removal_events (x : Listed) (namespace name : string) (answer : Result Z)
  : list Event :=
  let rname := resource_name (l_group x) (l_version x) namespace name in
  [Logged DEBUG ("Resource " +:+ rname +:+ " is suspended");
   Logged INFO ("Removing suspend annotations from " +:+ rname);
   Patched (patch_endpoint (l_group x) (l_version x) (l_plural x) namespace name)
     patch_headers (patch_body (removal_keys (annotations_of (l_resource x)))) answer].

(** An instance with complete metadata that is suspended until a time that
    parses and that the comparison finds before a reading of the clock. *)
Definition timed_out (E : Externals) (x : Listed) (namespace name : string) : Prop :=
  exists meta timeout parsed current,
    r_metadata (l_resource x) = Some meta
    /\ identity_of (l_namespaced x) meta namespace name
    /\ annotations_of (l_resource x) !! RECONCILE_ANNOTATION = Some "disabled"
    /\ annotations_of (l_resource x) !! SUSPEND_UNTIL_ANNOTATION = Some timeout
    /\ isoparse E timeout = Ok parsed
    /\ (exists w, (datetime_now E w).1 = current)
    /\ datetime_lt E parsed current = Ok true.

(** The discovery of the core group has been answered with status 200. *)
Definition core_done (t : list Event) : Prop :=
  exists resources,
    In (GotResources (api_endpoint "" "v1") (Ok (200%Z, resources))) t.

(** A kind that a discovery document, read with status 200, offers with the
    verb [list]. *)
Definition offered (t : list Event) (group version : string) (resource : APIResource)
  : Prop :=
  exists resources,
    In (GotResources (api_endpoint group version) (Ok (200%Z, resources))) t
    /\ In resource resources
    /\ In "list" (ar_verbs resource).


(** Every listing in the trace of a sweep is of a kind that a discovery
    document before it offers with the verb [list]. *)
Definition listings_offered (t : list Event) : Prop :=
  forall endpoint answer,
    In (GotItems endpoint answer) t ->
    exists group version resource,
      offered t group version resource
      /\ endpoint = list_endpoint group version (ar_name resource).

(** The discovery of the core group comes first; [get_api_versions] is
    called only once it has been answered with status 200, and every other
    discovery is of a group that [get_api_versions] has named. *)
Definition discovery_in_order (t : list Event) : Prop :=
  (exists r rest, t = GotResources (api_endpoint "" "v1") r :: rest)
  /\ (forall r, In (GotApiVersions r) t -> core_done t)
  /\ (forall endpoint r,
        In (GotResources endpoint r) t ->
        endpoint = api_endpoint "" "v1"
        \/ exists groups api,
             In (GotApiVersions (Ok groups)) t /\ In api groups
             /\ endpoint = api_endpoint (api_name api) (api_preferred_version api)).

(** The entries lines 93-96 read from an instance are there. *)
Definition has_identity (resource : Resource) : Prop :=
  exists meta name, r_metadata resource = Some meta /\ md_name meta = Some name.

Definition is_listing (ev : Event) : Prop :=
  match ev with GotItems _ _ => True | _ => False end.

(** Every instance of every collection the trace has listed with status
    200 has the entries lines 93-96 read. *)
Definition listings_identified (t : list Event) : Prop :=
  forall endpoint items,
    In (GotItems endpoint (Ok (200%Z, items))) t -> Forall has_identity items.

(** A suspended instance is accounted for in a state: it has a sample in
    the first gauge, or a removal has been asked for it. *)
Definition accounted {E : Externals} (x : Listed) (s : State E) : Prop :=
  forall meta name,
    r_metadata (l_resource x) = Some meta ->
    md_name meta = Some name ->
    annotations_of (l_resource x) !! RECONCILE_ANNOTATION = Some "disabled" ->
    exists namespace,
      identity_of (l_namespaced x) meta namespace name
      /\ (In ([l_group x +:+ "/" +:+ l_version x; l_kind x; namespace; name], 1%Z)
             (gm_samples (gAll (gauges s)))
          \/ exists answer,
               In (Patched
                     (patch_endpoint (l_group x) (l_version x) (l_plural x) namespace name)
                     patch_headers
                     (patch_body (removal_keys (annotations_of (l_resource x)))) answer)
                  (trace s)).

(** Every instance of every collection the trace has listed with status
    200 is accounted for, as an instance of a kind that discovery offers
    under the endpoint of the collection. *)
Definition listings_accounted {E : Externals} (s : State E) : Prop :=
  forall endpoint items resource,
    In (GotItems endpoint (Ok (200%Z, items))) (trace s) ->
    In resource items ->
    exists group version kind,
      offered (trace s) group version kind
      /\ endpoint = list_endpoint group version (ar_name kind)
      /\ accounted
           (Build_Listed group version (ar_name kind) (ar_kind kind) (ar_namespaced kind)
              resource) s.

(** [s'] is [s] after some rows have been added and some events, none of
    them a listing, have been traced. *)
Definition quiet_grows {E : Externals} (s s' : State E) : Prop :=
  exists evs rows,
    trace s' = (trace s ++ evs)%list
    /\ Forall (fun ev => ~ is_listing ev) evs
    /\ gauges s' = fold_left add_row rows (gauges s).

(** What the loop looks at on an instance (lines 94-96, 100, 106-107 and
    111): the namespace and the name, the values of the reconcile and of the
    suspend-until annotation, and whether there is a suspended-by one. *)
Definition view (meta : Metadata)
  : option string * option string * option string * option string * bool :=
  let annotations := default ∅ (md_annotations meta) in
  (md_namespace meta, md_name meta,
   annotations !! RECONCILE_ANNOTATION,
   annotations !! SUSPEND_UNTIL_ANNOTATION,
   bool_decide (is_Some (annotations !! SUSPENDED_BY_ANNOTATION))).

(** ** More clusters for the examples *)

Module Cases.

(** The time library, the externals and the loop body of [Demo], and its
    cluster at noon. *)
Definition time : TimeLib := Demo.time.

Definition externals : Externals := Cluster.externals time.

Definition noon : nat -> tl_datetime time := Demo.noon.

Definition cluster (annotations : gmap string string) : Cluster.t time :=
  Demo.cluster annotations noon.

Definition check (resource : Resource) : M externals unit :=
  @checkResource externals (@add_metrics externals)
    "apps" "v1" "helmreleases" "HelmRelease" true resource.

(** The group [apps/v1] is named but has no discovery document: the server
    answers 404. *)
Definition undiscovered : Cluster.t Demo.time :=
  {| Cluster.groups :=
       Ok [{| api_name := "apps"; api_preferred_version := "v1" |}];
     Cluster.discovery := {[ "/api/v1" := (200%Z, []) ]};
     Cluster.collections := ∅;
     Cluster.objects := ∅;
     Cluster.forbidden := ∅;
     Cluster.clock := Demo.noon;
     Cluster.ticks := 0 |}.

(** [get_api_versions] raises. *)
Definition groupless : Cluster.t Demo.time :=
  {| Cluster.groups := Raise (OtherError "ApiException");
     Cluster.discovery := {[ "/api/v1" := (200%Z, [Demo.configmaps]) ]};
     Cluster.collections := {[ "/api/v1/configmaps" := (200%Z, []) ]};
     Cluster.objects := ∅;
     Cluster.forbidden := ∅;
     Cluster.clock := Demo.noon;
     Cluster.ticks := 0 |}.

(** An object without [metadata], and one whose metadata has no [name]. *)
Definition bare : Resource := {| r_metadata := None |}.

Definition nameless_meta : Metadata :=
  {| md_annotations := Some Demo.suspended_only;
     md_namespace := Some "apps";
     md_name := None |}.

Definition nameless : Resource := {| r_metadata := Some nameless_meta |}.

End Cases.

(** ** The ledger of a sweep

    What a sweep that has ended has done, call by call and instance by
    instance, read off its trace and its gauges. *)

(** What the body of the loop makes of an instance it does not raise on: it
    passes over it (line 101), asks for the removal of its annotations
    (lines 119-126), or yields it (line 130). *)
Inductive Outcome : Type :=
| Passed
| Removed
| Yielded (hasTimeout hasOwner : bool).

(** One instance the loop has been handed, with the namespace and the name
    lines 95-96 read and what became of it. *)
Record Entry : Type := {
  e_instance : Listed;
  e_namespace : string;
  e_name : string;
  e_outcome : Outcome
}.

Definition e_annotations (e : Entry) : gmap string string :=
  annotations_of (l_resource (e_instance e)).

(** Line 129. *)
Definition e_labels (e : Entry) : list string :=
  let x := e_instance e in
  [l_group x +:+ "/" +:+ l_version x; l_kind x; e_namespace e; e_name e].

(** The request of lines 63-86 for the annotations of lines 121-123:
    endpoint, headers and body. *)
Definition e_request (e : Entry) : string * list (string * string) * list PatchOp :=
  let x := e_instance e in
  (patch_endpoint (l_group x) (l_version x) (l_plural x) (e_namespace e) (e_name e),
   patch_headers,
   patch_body (removal_keys (e_annotations e))).

(** Where the instance was listed, and as what. *)
Definition locate (e : Entry) : string * Resource :=
  let x := e_instance e in
  (list_endpoint (l_group x) (l_version x) (l_plural x), l_resource x).

(** The rows of the entries that were yielded, in order. *)
Definition rows_of (entries : list Entry) : list Row :=
  flat_map
    (fun e =>
       match e_outcome e with
       | Yielded hasTimeout hasOwner =>
           [{| row_instance := e_instance e; row_labels := e_labels e;
               row_hasTimeout := hasTimeout; row_hasOwner := hasOwner |}]
       | _ => []
       end)
    entries.

(** The requests of the entries that were removed, in order, each answered
    with status 200. *)
Definition removals_of (entries : list Entry)
  : list (string * list (string * string) * list PatchOp * Result Z) :=
  flat_map
    (fun e =>
       match e_outcome e with
       | Removed => [(e_request e, Ok 200%Z)]
       | _ => []
       end)
    entries.

(** The calls of a trace, kind by kind, in the order they were made: the
    answers of [get_api_versions], the discovery documents read with status
    200, the endpoints of the collections listed, the instances of the
    collections read with status 200, and the patch requests with their
    answers. *)
Definition asked (t : list Event) : list (Result (list ApiGroup)) :=
  flat_map (fun ev => match ev with GotApiVersions answer => [answer] | _ => [] end) t.

(** The groups the answers of [get_api_versions] have named. *)
Definition named (t : list Event) : list ApiGroup :=
  flat_map
    (fun answer => match answer with Ok groups => groups | Raise _ => [] end)
    (asked t).

Definition discovered (t : list Event) : list (string * list APIResource) :=
  flat_map
    (fun ev =>
       match ev with
       | GotResources endpoint (Ok (status, resources)) =>
           if (status =? 200)%Z then [(endpoint, resources)] else []
       | _ => []
       end)
    t.

Definition listings (t : list Event) : list string :=
  flat_map (fun ev => match ev with GotItems endpoint _ => [endpoint] | _ => [] end) t.

Definition listed (t : list Event) : list (string * Resource) :=
  flat_map
    (fun ev =>
       match ev with
       | GotItems endpoint (Ok (status, items)) =>
           if (status =? 200)%Z then map (pair endpoint) items else []
       | _ => []
       end)
    t.

Definition logged (t : list Event) : list (LogLevel * string) :=
  flat_map (fun ev => match ev with Logged level message => [(level, message)] | _ => [] end) t.

Definition patches (t : list Event)
  : list (string * list (string * string) * list PatchOp * Result Z) :=
  flat_map
    (fun ev =>
       match ev with
       | Patched endpoint headers body answer => [(endpoint, headers, body, answer)]
       | _ => []
       end)
    t.

(** The collections of a discovery document that line 53 lets through:
    those of the kinds whose verbs contain [list], in the order of the
    document. *)
Definition kinds_listed (doc : string * list APIResource) : list string :=
  flat_map
    (fun kind =>
       if bool_decide ("list" ∈ ar_verbs kind) then [doc.1 +:+ "/" +:+ ar_name kind]
       else [])
    doc.2.

Definition is_get (ev : Event) : Prop :=
  match ev with
  | GotApiVersions _ | GotResources _ _ | GotItems _ _ => True
  | _ => False
  end.

(** Externals that note every reading of the clock: a world of theirs is a
    world of [E] with the readings taken so far, in order.  Every call gives
    what it gives in [E]. *)
Definition noting (E : Externals) : Externals :=
  {| World := World E * list (datetime E);
     datetime := datetime E;
     get_api_versions := fun w =>
       let '(answer, w') := get_api_versions E w.1 in (answer, (w', w.2));
     call_api_resources := fun endpoint w =>
       let '(answer, w') := call_api_resources E endpoint w.1 in (answer, (w', w.2));
     call_api_items := fun endpoint w =>
       let '(answer, w') := call_api_items E endpoint w.1 in (answer, (w', w.2));
     call_api_patch := fun endpoint headers body w =>
       let '(answer, w') := call_api_patch E endpoint headers body w.1 in
       (answer, (w', w.2));
     isoparse := isoparse E;
     datetime_now := fun w =>
       let '(current, w') := datetime_now E w.1 in (current, (w', w.2 ++ [current])%list);
     datetime_lt := datetime_lt E |}.

(** The readings of the clock that the sweep from [w] takes, in order:
    those the sweep over [noting E] has noted when it ends or raises. *)
Definition readings {E : Externals} (w : World E) : list (datetime E) :=
  (world (@run_sweep (noting E) (w, [])).2).2.

(** What lines 100-117 found on the annotations of an instance with this
    outcome; [seen] tells the readings of the clock the comparisons can have
    been with. *)
Definition found (E : Externals) (seen : datetime E -> Prop)
    (annotations : gmap string string) (o : Outcome) : Prop :=
  match o with
  | Passed => annotations !! RECONCILE_ANNOTATION <> Some "disabled"
  | Removed =>
      annotations !! RECONCILE_ANNOTATION = Some "disabled"
      /\ exists timeout parsed current,
           annotations !! SUSPEND_UNTIL_ANNOTATION = Some timeout
           /\ isoparse E timeout = Ok parsed
           /\ seen current
           /\ datetime_lt E parsed current = Ok true
  | Yielded hasTimeout hasOwner =>
      annotations !! RECONCILE_ANNOTATION = Some "disabled"
      /\ hasOwner = bool_decide (is_Some (annotations !! SUSPENDED_BY_ANNOTATION))
      /\ match annotations !! SUSPEND_UNTIL_ANNOTATION with
         | None => hasTimeout = false
         | Some timeout =>
             match isoparse E timeout with
             | Ok parsed =>
                 exists current,
                   seen current
                   /\ datetime_lt E parsed current
                      = (if hasTimeout then Ok false else Raise ParserError)
             | Raise e => hasTimeout = false /\ e = ParserError
             end
         end
  end.

(** An entry is right for its instance: the namespace and the name are
    those of its metadata, and the outcome is what lines 100-117 make of its
    annotations. *)
Definition read_right (E : Externals) (seen : datetime E -> Prop) (e : Entry) : Prop :=
  exists meta,
    r_metadata (l_resource (e_instance e)) = Some meta
    /\ identity_of (l_namespaced (e_instance e)) meta (e_namespace e) (e_name e)
    /\ found E seen (e_annotations e) (e_outcome e).

(** An entry of the ledger of a trace: right for its instance, which was
    listed in the trace. *)
Definition entry_ok (E : Externals) (seen : datetime E -> Prop) (t : list Event)
    (e : Entry) : Prop :=
  was_listed t (e_instance e) /\ read_right E seen e.

(** [s'] is [s] after the events [evs], in which the loop has been handed
    the instances of [entries]; [seen w] tells the readings of the clock
    taken up to the world [w]. *)
Definition grows {E : Externals} (seen : World E -> datetime E -> Prop)
    (s s' : State E) (evs : list Event) (entries : list Entry) : Prop :=
  trace s' = (trace s ++ evs)%list
  /\ (forall current, seen (world s) current -> seen (world s') current)
  /\ gauges s' = fold_left add_row (rows_of entries) (gauges s)
  /\ patches evs = removals_of entries
  /\ Forall (read_right E (seen (world s'))) entries.

(** The ledger of a sweep that ended with the gauges [g] and the trace
    [t]: the groups [get_api_versions] named and the entries of the
    instances the loop was handed. *)
Definition ledger (E : Externals) (seen : datetime E -> Prop) (g : Gauges)
    (t : list Event) (groups : list ApiGroup) (entries : list Entry) : Prop :=
  asked t = [Ok groups]
  /\ map fst (discovered t)
     = api_endpoint "" "v1"
       :: map (fun api => api_endpoint (api_name api) (api_preferred_version api)) groups
  /\ listings t = flat_map kinds_listed (discovered t)
  /\ listed t = map locate entries
  /\ patches t = removals_of entries
  /\ g = report (rows_of entries)
  /\ Forall (entry_ok E seen t) entries.

(** A state of the script over [noting E] is the state [s] of the script
    over [E] with the readings taken so far. *)
Definition noted {E : Externals} (s : State E) (s' : State (noting E)) : Prop :=
  (world s').1 = world s /\ trace s' = trace s /\ gauges s' = gauges s.

(** Two computations, over [E] and over [noting E], that do the same from
    the same state: the same result, in the same state, and the readings
    noted only grow. *)
Definition same {E : Externals} {A} (m : M E A) (m' : M (noting E) A) : Prop :=
  forall s s',
    noted s s' ->
    (m' s').1 = (m s).1
    /\ noted (m s).2 (m' s').2
    /\ exists more, (world (m' s').2).2 = ((world s').2 ++ more)%list.

(** ** Clusters for the examples of the ledger *)

Module Ledgers.

(** A kind without the verb [list]. *)
Definition bindings : APIResource :=
  {| ar_name := "bindings"; ar_kind := "Binding";
     ar_verbs := ["create"]; ar_namespaced := true |}.

(** Three kinds, one of them without the verb [list]; the server would
    list the collection of each. *)
Definition mixed : Cluster.t Demo.time :=
  {| Cluster.groups :=
       Ok [{| api_name := "apps"; api_preferred_version := "v1" |}];
     Cluster.discovery :=
       {[ "/api/v1" := (200%Z, [bindings; Demo.configmaps]);
          "/apis/apps/v1" := (200%Z, [Demo.helmreleases]) ]};
     Cluster.collections :=
       {[ "/api/v1/bindings" := (200%Z, []);
          "/api/v1/configmaps" := (200%Z, []);
          "/apis/apps/v1/helmreleases" := (200%Z, [Demo.myapp_url]) ]};
     Cluster.objects := {[ Demo.myapp_url := Demo.myapp Demo.suspended_only ]};
     Cluster.forbidden := ∅;
     Cluster.clock := Demo.noon;
     Cluster.ticks := 0 |}.

(** Two objects: [apps/myapp], whose suspend-until annotation is no
    timestamp, and [apps/other], suspended for good. *)
Definition stuck : Cluster.t Demo.time :=
  {| Cluster.groups :=
       Ok [{| api_name := "apps"; api_preferred_version := "v1" |}];
     Cluster.discovery :=
       {[ "/api/v1" := (200%Z, []);
          "/apis/apps/v1" := (200%Z, [Demo.helmreleases]) ]};
     Cluster.collections :=
       {[ "/apis/apps/v1/helmreleases" := (200%Z, [Demo.myapp_url; Demo.other_url]) ]};
     Cluster.objects :=
       {[ Demo.myapp_url := Demo.myapp (Demo.suspended_until "next week");
          Demo.other_url := Demo.other Demo.suspended_only ]};
     Cluster.forbidden := ∅;
     Cluster.clock := Demo.noon;
     Cluster.ticks := 0 |}.

End Ledgers.

(** * Properties *)

(** ** The escaping, character by character *)

Section EscapeLemmas.

Local Abbreviation tilde := ("~"%char) (only parsing).
Local Abbreviation slash := ("/"%char) (only parsing).

Lemma prefix_nil (s : string) : String.prefix EmptyString s = true.
Proof. now destruct s. Qed.

Lemma prefix_cons (a c : ascii) (p s : string) :
  String.prefix (String a p) (String c s) = Ascii.eqb c a && String.prefix p s.
Proof.
  cbn [String.prefix]. destruct (ascii_dec a c) as [->|Hne].
  - now rewrite Ascii.eqb_refl.
  - replace (Ascii.eqb c a) with false; [reflexivity|].
    symmetry. apply Ascii.eqb_neq. congruence.
Qed.

Lemma prefix_single (a c : ascii) (s : string) :
  String.prefix (String a EmptyString) (String c s) = Ascii.eqb c a.
Proof. now rewrite prefix_cons, prefix_nil, andb_true_r. Qed.

Lemma prefix_pair (a b c : ascii) (s : string) :
  String.prefix (String a (String b EmptyString)) (String c s) =
  Ascii.eqb c a && match s with
                   | EmptyString => false
                   | String d _ => Ascii.eqb d b
                   end.
Proof.
  rewrite prefix_cons. destruct s as [|d s]; [reflexivity|].
  now rewrite prefix_single.
Qed.

Lemma replace_scan_skip old new k c s :
  PyStr.replace_scan old new (S k) (String c s) = PyStr.replace_scan old new k s.
Proof. reflexivity. Qed.

Lemma replace_scan_here old new c s :
  PyStr.replace_scan old new 0 (String c s) =
    if String.prefix old (String c s)
    then new +:+ PyStr.replace_scan old new (String.length old - 1) s
    else String c (PyStr.replace_scan old new 0 s).
Proof. reflexivity. Qed.

Lemma eqb_tilde_slash c : Ascii.eqb c tilde = true -> Ascii.eqb c slash = false.
Proof. intros ->%Ascii.eqb_eq. reflexivity. Qed.

Lemma replace_tilde (s : string) :
  PyStr.replace "~" "~0" s = escape_tilde s.
Proof.
  change (PyStr.replace_scan "~" "~0" 0 s = escape_tilde s).
  induction s as [|c s IH]; [reflexivity|].
  rewrite replace_scan_here, prefix_single. cbn [escape_tilde].
  destruct (Ascii.eqb c tilde) eqn:Ht.
  - apply Ascii.eqb_eq in Ht. subst c. cbn [String.length Nat.sub]. rewrite IH.
    reflexivity.
  - now rewrite IH.
Qed.

Lemma replace_slash_after_tilde (s : string) :
  PyStr.replace "/" "~1" (escape_tilde s) = escape_both s.
Proof.
  change (PyStr.replace_scan "/" "~1" 0 (escape_tilde s) = escape_both s).
  induction s as [|c s IH]; [reflexivity|].
  cbn [escape_tilde escape_both].
  destruct (Ascii.eqb c tilde) eqn:Ht.
  - rewrite replace_scan_here, prefix_single.
    change (Ascii.eqb tilde "/") with false. cbv iota.
    rewrite replace_scan_here, prefix_single.
    change (Ascii.eqb "0" "/") with false. cbv iota. now rewrite IH.
  - rewrite replace_scan_here, prefix_single.
    destruct (Ascii.eqb c slash) eqn:Hs.
    + cbn [String.length Nat.sub]. now rewrite IH.
    + now rewrite IH.
Qed.

Lemma escape_annotation_chars (s : string) :
  escape_annotation s = escape_both s.
Proof.
  unfold escape_annotation. now rewrite replace_tilde, replace_slash_after_tilde.
Qed.

Lemma unreplace_slash (s : string) :
  PyStr.replace "~1" "/" (escape_both s) = escape_tilde s.
Proof.
  change (PyStr.replace_scan "~1" "/" 0 (escape_both s) = escape_tilde s).
  induction s as [|c s IH]; [reflexivity|].
  cbn [escape_tilde escape_both].
  destruct (Ascii.eqb c tilde) eqn:Ht.
  - rewrite replace_scan_here, prefix_pair.
    change (Ascii.eqb "0" "1") with false. rewrite andb_false_r.
    rewrite replace_scan_here, prefix_pair.
    change (Ascii.eqb "0" "~") with false. rewrite andb_false_l.
    now rewrite IH.
  - destruct (Ascii.eqb c slash) eqn:Hs.
    + rewrite replace_scan_here, prefix_pair.
      change (Ascii.eqb tilde "~" && Ascii.eqb "1" "1") with true. cbv iota.
      cbn [String.length Nat.sub]. rewrite replace_scan_skip, IH.
      apply Ascii.eqb_eq in Hs. subst c. reflexivity.
    + rewrite replace_scan_here, prefix_pair. rewrite Ht, andb_false_l.
      now rewrite IH.
Qed.

Lemma unreplace_tilde (s : string) :
  PyStr.replace "~0" "~" (escape_tilde s) = s.
Proof.
  change (PyStr.replace_scan "~0" "~" 0 (escape_tilde s) = s).
  induction s as [|c s IH]; [reflexivity|].
  cbn [escape_tilde].
  destruct (Ascii.eqb c tilde) eqn:Ht.
  - apply Ascii.eqb_eq in Ht. subst c.
    rewrite replace_scan_here, prefix_pair.
    change (Ascii.eqb tilde "~" && Ascii.eqb "0" "0") with true. cbv iota.
    cbn [String.length Nat.sub]. rewrite replace_scan_skip, IH. reflexivity.
  - rewrite replace_scan_here, prefix_pair. rewrite Ht, andb_false_l.
    now rewrite IH.
Qed.

Lemma unescape_escape (s : string) :
  unescape_annotation (escape_annotation s) = s.
Proof.
  unfold unescape_annotation.
  now rewrite escape_annotation_chars, unreplace_slash, unreplace_tilde.
Qed.

End EscapeLemmas.

(** C4. The path of a removal operation for an annotation key is
    [/metadata/annotations/] followed by the key in which first every [~]
    has become [~0] and then every [/] has become [~1]; undoing the two
    substitutions in the inverse order gives back the key, whatever
    characters it contains. *)
Theorem escape_roundtrip (key : string) :
  annotation_path key =
    "/metadata/annotations/" +:+ PyStr.replace "/" "~1" (PyStr.replace "~" "~0" key)
  /\ unescape_annotation (escape_annotation key) = key.
Proof.
  split; [reflexivity | apply unescape_escape].
Qed.

(** ** Rules for the monad *)

Section Logic.

Context {E : Externals}.

Lemma triple_bind {A B} (P : State E -> Prop) (m : M E A) (f : A -> M E B) Q1 Q2 X :
  triple P m Q1 X ->
  (forall a, triple (Q1 a) (f a) Q2 X) ->
  triple P (bind m f) Q2 X.
Proof.
  intros Hm Hf s HP. unfold bind. specialize (Hm s HP).
  destruct (m s) as [[a|e] s']; [apply (Hf a s' Hm) | exact Hm].
Qed.

Lemma triple_weaken {A} (P P' : State E -> Prop) (m : M E A) (Q Q' : A -> State E -> Prop)
    (X X' : exn -> State E -> Prop) :
  triple P' m Q' X' ->
  (forall s, P s -> P' s) ->
  (forall a s, Q' a s -> Q a s) ->
  (forall e s, X' e s -> X e s) ->
  triple P m Q X.
Proof.
  intros Hm HP HQ HX s Hs. specialize (Hm s (HP s Hs)).
  destruct (m s) as [[a|e] s']; auto.
Qed.

Lemma triple_for_each {A} (I : State E -> Prop) (xs : list A) (body : A -> M E unit) X :
  (forall x, In x xs -> triple I (body x) (fun _ => I) X) ->
  triple I (for_each xs body) (fun _ => I) X.
Proof.
  induction xs as [|x rest IH]; intros Hbody.
  - intros s Hs. exact Hs.
  - cbn [for_each]. eapply triple_bind.
    + apply Hbody. now left.
    + intros u. apply IH. intros y Hy. apply Hbody. now right.
Qed.

Lemma triple_ret {A} (a : A) (Q : A -> State E -> Prop) X :
  triple (Q a) (ret a) Q X.
Proof. intros s Hs. exact Hs. Qed.

End Logic.

(** ** One instance *)

Section Outcome.

Context {E : Externals}.

Lemma state_eta (s : State E) :
  s = Build_State E (world s) (trace s ++ [])%list (gauges s).
Proof. destruct s. cbn. now rewrite app_nil_r. Qed.

Lemma checkResource_outcome yield_ (x : Listed) (s : State E) :
  outcome yield_ x s
    (checkResource yield_ (l_group x) (l_version x) (l_plural x) (l_kind x)
       (l_namespaced x) (l_resource x) s).
Proof.
  destruct x as [group version plural kind namespaced [ometa]].
  cbn [l_group l_version l_plural l_kind l_namespaced l_resource].
  set (x := Build_Listed group version plural kind namespaced (Build_Resource ometa)).
  unfold checkResource. cbn [r_metadata].
  destruct ometa as [meta|]; cbn [getitem]; unfold bind at 1; cbn [ret raise].
  2:{ rewrite (state_eta s) at 2. now constructor. }
  set (annotations := default ∅ (md_annotations meta)).
  assert (Hann : annotations_of (l_resource x) = annotations) by reflexivity.
  assert (exists namespace,
    (if namespaced then getitem "namespace" (md_namespace meta) else @ret E _ "") = ret namespace
    /\ (if namespaced then md_namespace meta = Some namespace else namespace = "")
    \/ (if namespaced then getitem "namespace" (md_namespace meta) else @ret E _ "") = raise (KeyError "namespace")) as [namespace Hns].
  { destruct namespaced; [destruct (md_namespace meta) as [ns|]|]; cbn.
    - exists ns. now left.
    - exists "". now right.
    - exists "". now left. }
  destruct Hns as [[-> Hns]| ->]; unfold bind at 1; cbn [ret raise].
  2:{ rewrite (state_eta s) at 2. now constructor. }
  destruct (md_name meta) as [name|] eqn:Hname; cbn [getitem]; unfold bind at 1; cbn [ret raise].
  2:{ rewrite (state_eta s) at 2. now constructor. }
  assert (Hid : identity_of (l_namespaced x) meta namespace name) by (split; assumption).
  unfold is_suspended. case_bool_decide as Hrec; cbn [negb].
  2:{ apply out_active. now rewrite Hann. }
  set (rname := resource_name group version namespace name).
  set (hasOwner := bool_decide (is_Some (annotations !! SUSPENDED_BY_ANNOTATION))).
  assert (Hrow : forall ht w logs,
    timeout_flag E annotations ht -> Forall is_log logs ->
    outcome yield_ x s
      (yield_ [group +:+ "/" +:+ version; kind; namespace; name] ht hasOwner
         (Build_State E w (trace s ++ logs)%list (gauges s)))).
  { intros ht w logs Hflag Hlogs.
    apply (out_yielded yield_ x s
             (Build_Row x [group +:+ "/" +:+ version; kind; namespace; name] ht hasOwner));
      [reflexivity | | exact Hlogs].
    exists meta, namespace, name.
    repeat split; try reflexivity; try assumption; apply Hid. }
  unfold bind at 1, log at 1. cbn [world trace gauges].
  destruct (annotations !! SUSPEND_UNTIL_ANNOTATION) as [timeout|] eqn:Hto.
  2:{ rewrite bool_decide_eq_false_2 by (intros [? ?]; discriminate).
      unfold bind, ret. cbn. apply Hrow; [|repeat constructor].
      unfold timeout_flag. now rewrite Hto. }
  rewrite bool_decide_eq_true_2 by eauto. cbn [getitem].
  unfold check_timeout, try_except_ParserError, removeResourceAnnotation, bind, ret,
    raise, lift, log, now, call, assert.
  cbn [world trace gauges].
  destruct (isoparse E timeout) as [parsed|e] eqn:Hparse.
  2:{ destruct e; cbn [world trace gauges];
        try (apply out_raised; repeat constructor).
      rewrite <- app_assoc. apply Hrow; [|repeat constructor].
      unfold timeout_flag. now rewrite Hto, Hparse. }
  destruct (datetime_now E (world s)) as [current w] eqn:Hnow.
  cbn [world trace gauges].
  destruct (datetime_lt E parsed current) as [[|]|e] eqn:Hlt.
  - replace (if hasOwner
             then ([RECONCILE_ANNOTATION; SUSPEND_UNTIL_ANNOTATION] ++
                   [SUSPENDED_BY_ANNOTATION])%list
             else [RECONCILE_ANNOTATION; SUSPEND_UNTIL_ANNOTATION])
      with ([RECONCILE_ANNOTATION; SUSPEND_UNTIL_ANNOTATION] ++
            (if hasOwner then [SUSPENDED_BY_ANNOTATION] else []))%list
      by (now destruct hasOwner).
    cbn [world trace gauges].
    match goal with
    | |- context [call_api_patch E ?ep ?h ?b w] =>
        destruct (call_api_patch E ep h b w) as [answer w'] eqn:Hpatch
    end.
    cbn [world trace gauges].
    pose proof (out_removed yield_ x s meta namespace name timeout parsed current w
      [Logged DEBUG ("Resource " +:+ rname +:+ " is suspended");
       Logged INFO ("Removing suspend annotations from " +:+ rname)] answer w') as H.
    cbn [l_group l_version l_plural l_namespaced] in H. rewrite Hann in H.
    fold hasOwner in H.
    specialize (H eq_refl Hid Hrec Hto Hparse Hlt).
    assert (Hlogs : Forall is_log
      [Logged DEBUG ("Resource " +:+ rname +:+ " is suspended");
       Logged INFO ("Removing suspend annotations from " +:+ rname)])
      by (repeat constructor).
    specialize (H Hlogs). cbv zeta in H.
    specialize (H Hpatch).
    rewrite <- !app_assoc. cbn [app] in H |- *.
    destruct answer as [status|e]; [destruct (status =? 200)%Z|]; exact H.
  - cbn [world trace gauges]. apply Hrow; [|repeat constructor].
    unfold timeout_flag. rewrite Hto, Hparse. now exists current.
  - destruct e; cbn [world trace gauges];
      try (apply out_raised; repeat constructor).
    rewrite <- app_assoc. apply Hrow; [|repeat constructor].
    unfold timeout_flag. rewrite Hto, Hparse. now exists current.
Qed.

End Outcome.

(** ** Induction over a sweep *)

Section SweepInduction.

Context {E : Externals}.

Variable J : list Event -> Gauges -> Prop.
Variable X : exn -> list Event -> Prop.

Hypothesis J_event : forall t g ev, J t g -> ~ failed ev -> J (t ++ [ev])%list g.
Hypothesis J_failed : forall t g ev, J t g -> failed ev -> X (exception_of ev) (t ++ [ev])%list.
Hypothesis J_raise : forall t g e, J t g -> X e t.
Hypothesis J_row :
  forall t g row,
    J t g -> was_listed t (row_instance row) -> row_ok E row -> J t (add_row g row).

Local Abbreviation Inv := (@inv E J).
Local Abbreviation Exc := (@exc E X).

Lemma J_logs t g logs : J t g -> Forall is_log logs -> J (t ++ logs)%list g.
Proof.
  intros HI Hlogs. revert t HI.
  induction Hlogs as [|ev logs Hev _ IH]; intros t HI.
  - now rewrite app_nil_r.
  - change (ev :: logs) with ([ev] ++ logs)%list. rewrite app_assoc. apply IH.
    apply J_event; [exact HI|]. destruct ev; try contradiction; exact id.
Qed.

(** A call with the [assert status == 200] after it, and what follows. *)
Lemma triple_call_status {A B} (P : list Event -> Prop)
    (f : World E -> Result (Z * A) * World E) (ev : Result (Z * A) -> Event)
    (k : A -> M E B) (Q : B -> State E -> Prop) :
  monotone P ->
  (forall r, failed (ev r) <->
     match r with Ok (status, _) => status <> 200%Z | Raise _ => True end) ->
  (forall r, exception_of (ev r) =
     match r with Ok _ => AssertionError | Raise e => e end) ->
  (forall a, triple (Inv (fun t => P t /\ In (ev (Ok (200%Z, a))) t)) (k a) Q Exc) ->
  triple (Inv P)
    (bind (call f ev) (fun '(status, a) => bind (assert (status =? 200)%Z) (fun _ => k a)))
    Q Exc.
Proof.
  intros HP Hfail Hexn Hk s [HJ HPs]. unfold bind at 1, call.
  destruct (f (world s)) as [[[status a]|e] w]; cbn [world trace gauges].
  - unfold bind, assert. destruct (Z.eqb_spec status 200) as [->|Hne]; cbn [ret raise].
    + apply Hk. split; cbn [world trace gauges].
      * apply J_event; [exact HJ|]. rewrite Hfail. now intros H.
      * split; [now apply HP | apply in_or_app; right; now left].
    + unfold exc; cbn.
      pose proof (J_failed _ _ (ev (Ok (status, a))) HJ) as H.
      rewrite Hexn in H. apply H. now apply Hfail.
  - unfold exc; cbn.
    pose proof (J_failed _ _ (ev (Raise e)) HJ) as H.
    rewrite Hexn in H. apply H. now apply Hfail.
Qed.

Lemma monotone_In ev : monotone (fun t => In ev t).
Proof. intros t t' H. apply in_or_app. now left. Qed.

Lemma monotone_and P Q : monotone P -> monotone Q -> monotone (fun t => P t /\ Q t).
Proof. intros HP HQ t t' [? ?]. split; auto. Qed.

Lemma monotone_True : monotone (fun _ => True).
Proof. now intros t t' _. Qed.

(** One instance, under the facts that make it a listed one. *)
Lemma triple_checkResource (P : list Event -> Prop) (x : Listed) :
  monotone P ->
  (forall t, P t -> was_listed t x) ->
  triple (Inv P)
    (checkResource add_metrics (l_group x) (l_version x) (l_plural x) (l_kind x)
       (l_namespaced x) (l_resource x))
    (fun _ => Inv P) Exc.
Proof.
  intros HP Hlisted s [HI HPs].
  destruct (checkResource_outcome add_metrics x s)
    as [e w logs Hlogs | Hactive
       | meta namespace name timeout parsed current w logs answer w' _ _ _ _ _ _ Hlogs keys endpoint Hpatch
       | row w logs Hrow Hok Hlogs].
  - apply J_raise with (g := gauges s). now apply J_logs.
  - now split.
  - assert (HI' : J (trace s ++ logs) (gauges s)) by now apply J_logs.
    rewrite app_assoc.
    destruct answer as [status|e]; [destruct (Z.eqb_spec status 200) as [->|Hne]|].
    + split; cbn; [apply J_event; [exact HI'|now intros H] | rewrite <- app_assoc; now apply HP].
    + apply (J_failed _ _ (Patched endpoint patch_headers (patch_body keys) (Ok status)) HI').
      exact Hne.
    + apply (J_failed _ _ (Patched endpoint patch_headers (patch_body keys) (Raise e)) HI').
      exact Logic.I.
  - unfold add_metrics. cbn. split; [|now apply HP].
    apply (J_row _ _ row); [now apply J_logs | | exact Hok].
    rewrite Hrow. apply Hlisted. now apply HP.
Qed.

Lemma not_listable_false verbs : not_listable verbs = false -> In "list" verbs.
Proof.
  unfold not_listable. destruct verbs as [|v verbs]; [discriminate|].
  intros H%negb_false_iff%bool_decide_eq_true. now apply list_elem_of_In.
Qed.

Lemma triple_listKind (P : list Event -> Prop) group version resources resource :
  monotone P ->
  (forall t, P t ->
     In (GotResources (api_endpoint group version) (Ok (200%Z, resources))) t) ->
  In resource resources ->
  triple (Inv P)
    (listKind (checkResource add_metrics) group version (ar_name resource)
       (ar_kind resource) (ar_verbs resource) (ar_namespaced resource))
    (fun _ => Inv P) Exc.
Proof.
  intros HP Hres Hin. unfold listKind.
  destruct (not_listable (ar_verbs resource)) eqn:Hverbs.
  { intros s Hs. exact Hs. }
  apply not_listable_false in Hverbs.
  unfold getAllResourcesInAPI.
  apply triple_call_status; [exact HP | intros [[? ?]|?]; cbn; tauto | now intros [[? ?]|?] |].
  intros items.
  set (P' := fun t => P t /\ In (GotItems (list_endpoint group version (ar_name resource))
                                          (Ok (200%Z, items))) t).
  apply triple_weaken with (P' := Inv P') (Q' := fun _ => Inv P') (X' := Exc); auto.
  2:{ intros _ s [HJ [HPs _]]. now split. }
  apply triple_for_each. intros r Hr.
  apply (triple_checkResource P'
           (Build_Listed group version (ar_name resource) (ar_kind resource)
              (ar_namespaced resource) r)).
  - apply monotone_and; [exact HP | apply monotone_In].
  - intros t [HPt Hitems]. split.
    + exists resources, (ar_verbs resource). split; [now apply Hres|].
      split; [now destruct resource | exact Hverbs].
    + exists items. now split.
Qed.

Lemma triple_group (P : list Event -> Prop) group version :
  monotone P ->
  triple (Inv P)
    (getAllResourceKindsInAPI group version (listKind (checkResource add_metrics) group version))
    (fun _ => Inv P) Exc.
Proof.
  intros HP. unfold getAllResourceKindsInAPI.
  apply triple_call_status; [exact HP | intros [[? ?]|?]; cbn; tauto | now intros [[? ?]|?] |].
  intros resources.
  set (P' := fun t => P t /\ In (GotResources (api_endpoint group version)
                                              (Ok (200%Z, resources))) t).
  apply triple_weaken with (P' := Inv P') (Q' := fun _ => Inv P') (X' := Exc); auto.
  2:{ intros _ s [HJ [HPs _]]. now split. }
  apply triple_for_each. intros resource Hin.
  apply triple_listKind with (resources := resources); [|now intros t [_ H]|exact Hin].
  apply monotone_and; [exact HP | apply monotone_In].
Qed.

Lemma triple_checkAllResources :
  triple (Inv (fun _ => True)) (checkAllResources add_metrics)
    (fun _ => Inv (fun _ => True)) Exc.
Proof.
  unfold checkAllResources, getAllResources, getAllAPIs.
  eapply triple_bind; [apply triple_group, monotone_True|]. intros u.
  eapply triple_bind with (Q1 := fun _ => Inv (fun _ => True)).
  - intros s [HJ _]. unfold call.
    destruct (get_api_versions E (world s)) as [[groups|e] w]; cbn.
    + split; [|exact Logic.I]. apply J_event; [exact HJ | now intros H].
    + apply (J_failed _ _ (GotApiVersions (Raise e)) HJ). exact Logic.I.
  - intros groups. apply triple_for_each. intros api _.
    apply triple_group, monotone_True.
Qed.

(** The induction principle: what holds of the empty trace and the empty
    gauges, and is kept by every step of a sweep, holds at its end. *)
Theorem sweep_induction (w : World E) :
  J [] getGauges ->
  match run_sweep w with
  | (Ok g, s) => J (trace s) g
  | (Raise e, s) => X e (trace s)
  end.
Proof.
  intros Hinit. unfold run_sweep, collect.
  assert (H : triple (fun s => trace s = [] /\ gauges s = getGauges)
    (bind (checkAllResources add_metrics) (fun _ => get_gauges))
    (fun g s => J (trace s) g) Exc).
  { eapply triple_bind.
    - eapply triple_weaken; [apply triple_checkAllResources | | intros a s H; exact H | auto].
      intros s [Ht Hg]. split; [|exact Logic.I]. rewrite Ht, Hg. exact Hinit.
    - intros u s [HJ _]. exact HJ. }
  unfold bind at 1. cbn. apply H. now split.
Qed.

End SweepInduction.

(** ** What every sweep does *)

Section SweepFacts.

Context {E : Externals}.

Lemma was_listed_app t t' x : was_listed t x -> was_listed (t ++ t') x.
Proof.
  intros [(resources & verbs & H1 & H2 & H3) (items & H4 & H5)]. split.
  - exists resources, verbs. repeat split; try assumption. apply in_or_app. now left.
  - exists items. split; [apply in_or_app; now left | assumption].
Qed.

Lemma report_snoc rows row : report (rows ++ [row]) = add_row (report rows) row.
Proof. unfold report. now rewrite fold_left_app. Qed.

(** The gauges of a sweep that ends are the report of rows, each right for
    an instance the sweep has listed. *)
Lemma sweep_report (w : World E) (g : Gauges) (s : State E) :
  run_sweep w = (Ok g, s) ->
  exists rows,
    g = report rows
    /\ Forall (fun row => was_listed (trace s) (row_instance row) /\ row_ok E row) rows.
Proof.
  intros Hrun.
  pose proof (sweep_induction (E:=E)
    (fun t g => exists rows, g = report rows
       /\ Forall (fun row => was_listed t (row_instance row) /\ row_ok E row) rows)
    (fun _ _ => True)) as H.
  specialize (fun a b c d => H a b c d w). rewrite Hrun in H. apply H; clear H.
  - intros t g0 ev (rows & -> & Hrows) _. exists rows. split; [reflexivity|].
    eapply Forall_impl; [exact Hrows|]. intros row [? ?]. split; [|assumption].
    now apply was_listed_app.
  - trivial.
  - trivial.
  - intros t g0 row (rows & -> & Hrows) Hlisted Hok. exists (rows ++ [row])%list.
    split; [now rewrite report_snoc|]. apply Forall_app. split; [exact Hrows|].
    constructor; [now split | constructor].
  - exists []. now split.
Qed.

(** A sweep stops at the first call that fails: nothing is traced after it,
    the exception is the one of that call, and a sweep that ends has none. *)
Lemma sweep_failure (w : World E) :
  match run_sweep w with
  | (Ok _, s) => Forall (fun ev => ~ failed ev) (trace s)
  | (Raise e, s) =>
      Forall (fun ev => ~ failed ev) (trace s)
      \/ exists t ev,
           trace s = (t ++ [ev])%list /\ Forall (fun ev => ~ failed ev) t
           /\ failed ev /\ e = exception_of ev
  end.
Proof.
  apply (sweep_induction (E:=E)
    (fun t _ => Forall (fun ev => ~ failed ev) t)
    (fun e t =>
       Forall (fun ev => ~ failed ev) t
       \/ exists t' ev,
            t = (t' ++ [ev])%list /\ Forall (fun ev => ~ failed ev) t'
            /\ failed ev /\ e = exception_of ev)).
  - intros t _ ev Ht Hev. apply Forall_app. split; [exact Ht | now repeat constructor].
  - intros t _ ev Ht Hev. right. now exists t, ev.
  - intros t _ e Ht. now left.
  - intros t _ row Ht _ _. exact Ht.
  - constructor.
Qed.

Lemma failed_call_ends_sweep (w : World E) (ev : Event) :
  In ev (trace (run_sweep w).2) ->
  failed ev ->
  (run_sweep w).1 = Raise (exception_of ev)
  /\ exists t, trace (run_sweep w).2 = (t ++ [ev])%list
               /\ Forall (fun ev => ~ failed ev) t.
Proof.
  intros Hin Hfailed. pose proof (sweep_failure w) as H.
  destruct (run_sweep w) as [[g|e] s]; cbn [fst snd] in *.
  - rewrite List.Forall_forall in H. now destruct (H ev Hin).
  - destruct H as [H | (t & ev' & Ht & Hnone & Hev' & ->)].
    + rewrite List.Forall_forall in H. now destruct (H ev Hin).
    + rewrite Ht in Hin. apply in_app_or in Hin. destruct Hin as [Hin | [<- | []]].
      * rewrite List.Forall_forall in Hnone. now destruct (Hnone ev Hin).
      * split; [reflexivity|]. now exists t.
Qed.

End SweepFacts.

(** ** The claims about one instance and about one sweep *)

(** Lines 93-103 on a suspended instance whose metadata is complete: the two
    reads and the test pass and the debug record is written. *)
Ltac enter_suspended E ns Hid Hrec :=
  let Hns := fresh "Hns" in
  let Hname := fresh "Hname" in
  destruct Hid as [Hns Hname];
  unfold checkResource; cbn [r_metadata getitem];
  unfold bind at 1; cbn [ret];
  match goal with
  | |- context [if ?nsd then getitem "namespace" (md_namespace ?meta) else ret ""] =>
      replace (if nsd then getitem "namespace" (md_namespace meta) else ret "")
        with (@ret E string ns)
        by (destruct nsd; [now rewrite Hns | now rewrite Hns])
  end;
  rewrite Hname; cbn [getitem];
  unfold is_suspended; rewrite (bool_decide_eq_true_2 _ Hrec); cbn [negb].

Ltac open_resource resource Hmeta :=
  let ometa := fresh "ometa" in
  destruct resource as [ometa]; cbn [r_metadata] in Hmeta; subst ometa;
  unfold annotations_of in *; cbn [r_metadata] in *.

Section Claims.

Context {E : Externals}.

Lemma gm_samples_report rows :
  gm_samples (gAll (report rows)) = map (fun row => (row_labels row, 1%Z)) rows
  /\ gm_samples (gUnowned (report rows)) =
       map (fun row => (row_labels row, if row_hasOwner row then 0%Z else 1%Z)) rows
  /\ gm_samples (gIndefinite (report rows)) =
       map (fun row => (row_labels row, if row_hasTimeout row then 0%Z else 1%Z)) rows.
Proof.
  induction rows as [|row rows IH] using rev_ind; [now repeat split|].
  rewrite report_snoc, !map_app. cbn. destruct IH as (-> & -> & ->). now repeat split.
Qed.

(** Lines 95-100 on an instance that is not suspended. *)
Lemma checkResource_active yield_ group version plural kind namespaced resource
    (s : State E) :
  annotations_of resource !! RECONCILE_ANNOTATION <> Some "disabled" ->
  exists res,
    checkResource yield_ group version plural kind namespaced resource s = (res, s)
    /\ (res = Ok tt \/ exists key, res = Raise (KeyError key)).
Proof.
  intros Hne. destruct resource as [[meta|]]; unfold checkResource; cbn [r_metadata getitem].
  2:{ cbn. eauto. }
  unfold bind at 1. cbn [ret].
  destruct namespaced; [destruct (md_namespace meta)|]; cbn [getitem];
    unfold bind at 1; cbn [ret raise]; eauto.
  all: destruct (md_name meta); cbn [getitem]; unfold bind at 1; cbn [ret raise]; eauto.
  all: unfold is_suspended;
    match goal with
    | |- context [negb (bool_decide ?P)] =>
        destruct (bool_decide_reflect P) as [Heq|_]; [now destruct Hne|]
    end; cbn; eauto.
Qed.

(** C1. The loop takes an instance for suspended exactly when its
    annotations give the reconcile key the value [disabled].  On any other
    instance the body of the loop does nothing and yields nothing, and every
    sample of the three gauges of a sweep carries the labels of an instance
    that the sweep has listed and whose reconcile key is [disabled]. *)
Theorem suspended_iff_disabled :
  (forall annotations : gmap string string,
      is_suspended annotations = true
      <-> annotations !! RECONCILE_ANNOTATION = Some "disabled")
  /\ (forall yield_ group version plural kind namespaced resource (s : State E),
        annotations_of resource !! RECONCILE_ANNOTATION <> Some "disabled" ->
        (checkResource yield_ group version plural kind namespaced resource s).2 = s)
  /\ (forall (w : World E) g s sample,
        run_sweep w = (Ok g, s) ->
        In sample (gm_samples (gAll g))
        \/ In sample (gm_samples (gUnowned g))
        \/ In sample (gm_samples (gIndefinite g)) ->
        exists x meta namespace name,
          was_listed (trace s) x
          /\ annotations_of (l_resource x) !! RECONCILE_ANNOTATION = Some "disabled"
          /\ r_metadata (l_resource x) = Some meta
          /\ identity_of (l_namespaced x) meta namespace name
          /\ sample.1 = [l_group x +:+ "/" +:+ l_version x; l_kind x; namespace; name]).
Proof.
  split; [|split].
  - intros annotations. unfold is_suspended. apply bool_decide_eq_true.
  - intros yield_ group version plural kind namespaced resource s Hne.
    destruct (checkResource_active yield_ group version plural kind namespaced resource s Hne)
      as (res & -> & _). reflexivity.
  - intros w g s sample Hrun Hin.
    destruct (sweep_report w g s Hrun) as (rows & -> & Hrows).
    destruct (gm_samples_report rows) as (HA & HU & HI). rewrite HA, HU, HI in Hin.
    assert (exists row, In row rows /\ sample.1 = row_labels row) as (row & Hrow & ->).
    { destruct Hin as [Hin | [Hin | Hin]]; apply in_map_iff in Hin;
        destruct Hin as (row & <- & Hrow); exists row; (split; [assumption | reflexivity]). }
    rewrite List.Forall_forall in Hrows. destruct (Hrows row Hrow) as [Hlisted Hok].
    destruct Hok as (meta & namespace & name & Hmeta & Hid & Hrec & Hlabels & _).
    exists (row_instance row), meta, namespace, name.
    split; [exact Hlisted|]. split; [exact Hrec|]. split; [exact Hmeta|]. now split.
Qed.

(** Lines 105-126 on an instance whose suspension has timed out. *)
Lemma checkResource_timed_out
    (yield_ : list string -> bool -> bool -> M E unit)
    (group version plural kind : string) (namespaced : bool) (resource : Resource)
    (meta : Metadata) (namespace name timeout : string)
    (parsed current : datetime E) (w : World E) (s : State E) :
  r_metadata resource = Some meta ->
  identity_of namespaced meta namespace name ->
  annotations_of resource !! RECONCILE_ANNOTATION = Some "disabled" ->
  annotations_of resource !! SUSPEND_UNTIL_ANNOTATION = Some timeout ->
  isoparse E timeout = Ok parsed ->
  datetime_now E (world s) = (current, w) ->
  datetime_lt E parsed current = Ok true ->
  let keys :=
    ([RECONCILE_ANNOTATION; SUSPEND_UNTIL_ANNOTATION] ++
     (if bool_decide (is_Some (annotations_of resource !! SUSPENDED_BY_ANNOTATION))
      then [SUSPENDED_BY_ANNOTATION] else []))%list in
  let endpoint := patch_endpoint group version plural namespace name in
  let answer := call_api_patch E endpoint patch_headers (patch_body keys) w in
  let rname := resource_name group version namespace name in
  checkResource yield_ group version plural kind namespaced resource s =
    (match answer.1 with
     | Ok status => if (status =? 200)%Z then Ok tt else Raise AssertionError
     | Raise e => Raise e
     end,
     Build_State E answer.2
       (trace s ++
        [Logged DEBUG ("Resource " +:+ rname +:+ " is suspended");
         Logged INFO ("Removing suspend annotations from " +:+ rname);
         Patched endpoint patch_headers (patch_body keys) answer.1])%list
       (gauges s)).
Proof.
  intros Hmeta Hid Hrec Hto Hparse Hnow Hlt keys endpoint answer rname.
  subst keys endpoint answer rname.
  open_resource resource Hmeta.
  enter_suspended E namespace Hid Hrec.
  rewrite Hto. rewrite (bool_decide_eq_true_2 (is_Some (Some timeout))) by eauto.
  cbn [getitem].
  unfold check_timeout, try_except_ParserError, removeResourceAnnotation, bind, ret,
    raise, getitem, lift, log, now, call, assert.
  cbn [world trace gauges]. rewrite Hparse, Hnow. cbn [world trace gauges]. rewrite Hlt.
  cbn [world trace gauges].
  replace (if bool_decide (is_Some (default ∅ (md_annotations meta) !! SUSPENDED_BY_ANNOTATION))
           then ([RECONCILE_ANNOTATION; SUSPEND_UNTIL_ANNOTATION] ++
                 [SUSPENDED_BY_ANNOTATION])%list
           else [RECONCILE_ANNOTATION; SUSPEND_UNTIL_ANNOTATION])
    with ([RECONCILE_ANNOTATION; SUSPEND_UNTIL_ANNOTATION] ++
          (if bool_decide (is_Some (default ∅ (md_annotations meta) !! SUSPENDED_BY_ANNOTATION))
           then [SUSPENDED_BY_ANNOTATION] else []))%list
    by (now case_bool_decide).
  cbn [app].
  match goal with
  | |- context [call_api_patch E ?ep ?h ?b w] =>
      destruct (call_api_patch E ep h b w) as [[status|e] w']
  end;
    cbn [fst snd world trace gauges]; rewrite <- !app_assoc; cbn [app].
  - now destruct (status =? 200)%Z.
  - reflexivity.
Qed.

(** Lines 105-130 on a suspended instance that is reported: its
    suspend-until annotation is absent, or raises [ParserError] in the
    parser, or parses to a time the comparison does not find past. *)
Lemma checkResource_reported
    (group version plural kind : string) (namespaced : bool) (resource : Resource)
    (meta : Metadata) (namespace name : string) (s : State E) :
  r_metadata resource = Some meta ->
  identity_of namespaced meta namespace name ->
  annotations_of resource !! RECONCILE_ANNOTATION = Some "disabled" ->
  let rname := resource_name group version namespace name in
  let x := Build_Listed group version plural kind namespaced resource in
  let labels := [group +:+ "/" +:+ version; kind; namespace; name] in
  let hasOwner :=
    bool_decide (is_Some (annotations_of resource !! SUSPENDED_BY_ANNOTATION)) in
  let debug := Logged DEBUG ("Resource " +:+ rname +:+ " is suspended") in
  match annotations_of resource !! SUSPEND_UNTIL_ANNOTATION with
  | None =>
      checkResource add_metrics group version plural kind namespaced resource s =
        (Ok tt,
         Build_State E (world s) (trace s ++ [debug])%list
           (add_row (gauges s) (Build_Row x labels false hasOwner)))
  | Some timeout =>
      match isoparse E timeout with
      | Raise ParserError =>
          checkResource add_metrics group version plural kind namespaced resource s =
            (Ok tt,
             Build_State E (world s)
               (trace s ++
                [debug;
                 Logged ERROR
                   ("Failed to parse timestamp " +:+ timeout +:+ " on " +:+ rname)])%list
               (add_row (gauges s) (Build_Row x labels false hasOwner)))
      | Raise e =>
          checkResource add_metrics group version plural kind namespaced resource s =
            (Raise e, Build_State E (world s) (trace s ++ [debug])%list (gauges s))
      | Ok parsed =>
          forall current w,
            datetime_now E (world s) = (current, w) ->
            datetime_lt E parsed current = Ok false ->
            checkResource add_metrics group version plural kind namespaced resource s =
              (Ok tt,
               Build_State E w (trace s ++ [debug])%list
                 (add_row (gauges s) (Build_Row x labels true hasOwner)))
      end
  end.
Proof.
  intros Hmeta Hid Hrec rname x labels hasOwner debug.
  subst rname x labels hasOwner debug.
  open_resource resource Hmeta.
  destruct (default ∅ (md_annotations meta) !! SUSPEND_UNTIL_ANNOTATION)
    as [timeout|] eqn:Hto.
  - destruct (isoparse E timeout) as [parsed|e] eqn:Hparse.
    + intros current w Hnow Hlt.
      enter_suspended E namespace Hid Hrec.
      rewrite Hto. rewrite (bool_decide_eq_true_2 (is_Some (Some timeout))) by eauto.
      cbn [getitem].
      unfold check_timeout, try_except_ParserError, bind, ret, raise, getitem, lift,
        log, now, add_metrics, add_row.
      cbn [world trace gauges]. rewrite Hparse, Hnow. cbn [world trace gauges].
      rewrite Hlt. cbn [world trace gauges row_labels row_hasOwner row_hasTimeout].
      reflexivity.
    + destruct e; enter_suspended E namespace Hid Hrec;
        rewrite Hto; rewrite (bool_decide_eq_true_2 (is_Some (Some timeout))) by eauto;
        cbn [getitem];
        unfold check_timeout, try_except_ParserError, bind, ret, raise, getitem, lift,
          log, now, add_metrics, add_row;
        cbn [world trace gauges]; rewrite Hparse;
        cbn [world trace gauges row_labels row_hasOwner row_hasTimeout];
        rewrite <- ?app_assoc; reflexivity.
  - enter_suspended E namespace Hid Hrec.
    rewrite Hto. rewrite (bool_decide_eq_false_2 (is_Some None)) by (intros [? ?]; discriminate).
    unfold bind, ret, log, add_metrics, add_row.
    cbn [world trace gauges row_labels row_hasOwner row_hasTimeout]. reflexivity.
Qed.

Lemma for_each_cons_ok {A} (x : A) (xs : list A) (body : A -> M E unit) (s s' : State E) :
  body x s = (Ok tt, s') -> for_each (x :: xs) body s = for_each xs body s'.
Proof. intros H. cbn [for_each]. unfold bind. now rewrite H. Qed.

Lemma for_each_cons_raise {A} (x : A) (xs : list A) (body : A -> M E unit) e
    (s s' : State E) :
  body x s = (Raise e, s') -> for_each (x :: xs) body s = (Raise e, s').
Proof. intros H. cbn [for_each]. unfold bind. now rewrite H. Qed.

(** C10. For an instance of a namespaced kind the namespace is read before
    anything else is looked at: when the metadata has none, the body of the
    loop raises [KeyError] whatever the annotations are, and so does the loop
    over any list of instances that contains this one.  For a kind that is
    not namespaced the namespace label of whatever is reported is the empty
    string. *)
Theorem namespace_read_first :
  (forall (yield_ : list string -> bool -> bool -> M E unit)
          group version plural kind resource meta (s : State E),
      r_metadata resource = Some meta ->
      md_namespace meta = None ->
      checkResource yield_ group version plural kind true resource s
      = (Raise (KeyError "namespace"), s)
      /\ forall items s0,
           In resource items ->
           exists e s',
             for_each items (checkResource yield_ group version plural kind true) s0
             = (Raise e, s'))
  /\ (forall group version plural kind resource (s : State E),
        let after :=
          (checkResource add_metrics group version plural kind false resource s).2 in
        gauges after = gauges s
        \/ exists x name hasTimeout hasOwner,
             gauges after =
               add_row (gauges s)
                 (Build_Row x [group +:+ "/" +:+ version; kind; ""; name]
                    hasTimeout hasOwner)).
Proof.
  split.
  - intros yield_ group version plural kind resource meta s Hmeta Hns.
    assert (Hraise : forall s1,
      checkResource yield_ group version plural kind true resource s1
      = (Raise (KeyError "namespace"), s1)).
    { intros s1. unfold checkResource. rewrite Hmeta. cbn [getitem].
      unfold bind at 1. cbn [ret]. rewrite Hns. reflexivity. }
    split; [apply Hraise|].
    induction items as [|item items IH]; intros s0 Hin; [destruct Hin|].
    cbn [for_each]. unfold bind.
    destruct (checkResource yield_ group version plural kind true item s0)
      as [[u|e] s1] eqn:Hitem.
    + destruct Hin as [->|Hin]; [now rewrite Hraise in Hitem | now apply IH].
    + now exists e, s1.
  - intros group version plural kind resource s after. subst after.
    pose proof (checkResource_outcome add_metrics
                  (Build_Listed group version plural kind false resource) s) as H.
    cbn [l_group l_version l_plural l_kind l_namespaced l_resource] in H.
    inversion H as [e w logs Hlogs Heq | Hactive Heq
       | meta namespace name timeout parsed current w logs answer w' _ _ _ _ _ _ Hlogs keys endpoint Hpatch Heq
       | row w logs Hrow Hok Hlogs Heq]; try (left; reflexivity).
    right. destruct Hok as (meta & namespace & name & _ & [Hns _] & _ & Hlabels & _).
    rewrite Hrow in *. cbn [l_namespaced l_group l_version l_kind] in *. subst namespace.
    exists (row_instance row), name, (row_hasTimeout row), (row_hasOwner row).
    unfold add_metrics. cbn [snd gauges]. unfold add_row.
    cbn [row_labels row_hasOwner row_hasTimeout]. now rewrite Hlabels.
Qed.

(** C5, as the script has it.  A removal that is answered with another
    status than 200, or that raises, ends the sweep: the exception is the
    [AssertionError] of line 87, or the one the call raised, nothing is done
    after the call, and the sweep hands out no gauge. *)
Theorem rejected_patch_ends_sweep (w : World E) endpoint headers body answer :
  In (Patched endpoint headers body answer) (trace (run_sweep w).2) ->
  answer <> Ok 200%Z ->
  (run_sweep w).1 =
    Raise (match answer with Ok _ => AssertionError | Raise e => e end)
  /\ exists t,
       trace (run_sweep w).2 = (t ++ [Patched endpoint headers body answer])%list
       /\ Forall (fun ev => ~ failed ev) t.
Proof.
  intros Hin Hne.
  destruct (failed_call_ends_sweep w _ Hin) as [Hres Htrace].
  - destruct answer as [status|e]; cbn; [congruence | exact Logic.I].
  - split; [|exact Htrace]. rewrite Hres. now destruct answer.
Qed.

(** C6, as the script has it.  A listing that is answered with another
    status than 200, or that raises, ends the sweep: the exception is the
    [AssertionError] of line 46, or the one the call raised, no kind is
    listed after it, and the sweep hands out no gauge. *)
Theorem failed_listing_ends_sweep (w : World E) endpoint answer :
  In (GotItems endpoint answer) (trace (run_sweep w).2) ->
  (forall items, answer <> Ok (200%Z, items)) ->
  (run_sweep w).1 =
    Raise (match answer with Ok _ => AssertionError | Raise e => e end)
  /\ exists t,
       trace (run_sweep w).2 = (t ++ [GotItems endpoint answer])%list
       /\ Forall (fun ev => ~ failed ev) t.
Proof.
  intros Hin Hne.
  destruct (failed_call_ends_sweep w _ Hin) as [Hres Htrace].
  - destruct answer as [[status items]|e]; cbn; [|exact Logic.I].
    intros ->. now apply (Hne items).
  - split; [|exact Htrace]. rewrite Hres. now destruct answer.
Qed.

End Claims.

(** ** The classifier and the script *)

Section ClassifierFacts.

Context {E : Externals}.

(** The body of the loop does what the classifier says. *)
Lemma checkResource_classify group version plural kind namespaced resource
    (s : State E) current w :
  datetime_now E (world s) = (current, w) ->
  let run := checkResource add_metrics group version plural kind namespaced resource s in
  match classify current group version kind namespaced resource with
  | (Fails e, read) =>
      run.1 = Raise e
      /\ world run.2 = (if read then w else world s)
      /\ gauges run.2 = gauges s
      /\ exists logs, Forall is_log logs /\ trace run.2 = (trace s ++ logs)%list
  | (Active, _) => run = (Ok tt, s)
  | (Reported labels hasTimeout hasOwner, read) =>
      run.1 = Ok tt
      /\ world run.2 = (if read then w else world s)
      /\ gauges run.2 = gauges (add_metrics labels hasTimeout hasOwner s).2
      /\ exists logs, Forall is_log logs /\ trace run.2 = (trace s ++ logs)%list
  | (TimedOut namespace name keys, _) =>
      let endpoint := patch_endpoint group version plural namespace name in
      let answer := call_api_patch E endpoint patch_headers (patch_body keys) w in
      run.1 = match answer.1 with
              | Ok status => if (status =? 200)%Z then Ok tt else Raise AssertionError
              | Raise e => Raise e
              end
      /\ world run.2 = answer.2
      /\ gauges run.2 = gauges s
      /\ exists logs,
           Forall is_log logs
           /\ trace run.2 =
                (trace s ++ logs ++
                 [Patched endpoint patch_headers (patch_body keys) answer.1])%list
  end.
Proof.
  intros Hnow run. subst run. unfold classify.
  destruct resource as [[meta|]]; cbn [r_metadata].
  2:{ cbn. repeat (split; [reflexivity|]).
      exists []. split; [constructor | now rewrite app_nil_r]. }
  destruct (if namespaced then md_namespace meta else Some "") as [namespace|] eqn:Hns.
  2:{ assert (Hrun : checkResource add_metrics group version plural kind namespaced
                       {| r_metadata := Some meta |} s
                     = (Raise (KeyError "namespace"), s)).
      { destruct namespaced; [|discriminate]. unfold checkResource.
        cbn [r_metadata getitem]. unfold bind at 1. cbn [ret]. now rewrite Hns. }
      rewrite Hrun. cbn. repeat (split; [reflexivity|]).
      exists []. split; [constructor | now rewrite app_nil_r]. }
  assert (Hget : (if namespaced then getitem "namespace" (md_namespace meta) else ret "")
                 = @ret E string namespace).
  { destruct namespaced; [now rewrite Hns | now injection Hns as <-]. }
  destruct (md_name meta) as [name|] eqn:Hname.
  2:{ assert (Hrun : checkResource add_metrics group version plural kind namespaced
                       {| r_metadata := Some meta |} s
                     = (Raise (KeyError "name"), s)).
      { unfold checkResource. cbn [r_metadata getitem]. unfold bind at 1. cbn [ret].
        now rewrite Hget, Hname. }
      rewrite Hrun. cbn. repeat (split; [reflexivity|]).
      exists []. split; [constructor | now rewrite app_nil_r]. }
  assert (Hid : identity_of namespaced meta namespace name).
  { split; [|exact Hname]. destruct namespaced; [exact Hns | now injection Hns as <-]. }
  set (resource := {| r_metadata := Some meta |}).
  change (default ∅ (md_annotations meta)) with (annotations_of resource).
  cbv zeta.
  unfold is_suspended. case_bool_decide as Hrec; cbn [negb].
  2:{ unfold checkResource. cbn [r_metadata getitem resource]. unfold bind at 1. cbn [ret].
      rewrite Hget, Hname. cbn [getitem]. unfold bind at 1. cbn [ret].
      unfold bind at 1. cbn [ret]. unfold is_suspended.
      match goal with
      | |- context [negb (bool_decide ?P)] =>
          destruct (bool_decide_reflect P) as [Heq|_]; [now destruct Hrec|]
      end. reflexivity. }
  pose proof (checkResource_reported group version plural kind namespaced resource meta
                namespace name s eq_refl Hid Hrec) as Hrep.
  cbv zeta in Hrep.
  destruct (annotations_of resource !! SUSPEND_UNTIL_ANNOTATION) as [timeout|] eqn:Hto.
  2:{ rewrite Hrep. cbn. repeat (split; [reflexivity|]).
      eexists. split; [|reflexivity]. repeat constructor. }
  destruct (isoparse E timeout) as [parsed|e] eqn:Hparse.
  2:{ destruct e; rewrite Hrep; cbn; repeat (split; [reflexivity|]);
        (eexists; split; [|reflexivity]; repeat constructor). }
  destruct (datetime_lt E parsed current) as [[|]|e] eqn:Hlt.
  - pose proof (checkResource_timed_out add_metrics group version plural kind namespaced
                  resource meta namespace name timeout parsed current w s eq_refl Hid Hrec
                  Hto Hparse Hnow Hlt) as Hout.
    cbv zeta in Hout. rewrite Hout. cbn [fst snd world trace gauges].
    repeat (split; [reflexivity|]).
    exists [Logged DEBUG ("Resource " +:+ resource_name group version namespace name
                          +:+ " is suspended");
            Logged INFO ("Removing suspend annotations from "
                         +:+ resource_name group version namespace name)].
    split; [repeat constructor | reflexivity].
  - rewrite (Hrep current w Hnow Hlt). cbn. repeat (split; [reflexivity|]).
    eexists. split; [|reflexivity]. repeat constructor.
  - clear Hrep.
    set (debug := Logged DEBUG ("Resource " +:+ resource_name group version namespace name
                                +:+ " is suspended")).
    set (error := Logged ERROR ("Failed to parse timestamp " +:+ timeout +:+ " on "
                                +:+ resource_name group version namespace name)).
    assert (Hrun : checkResource add_metrics group version plural kind namespaced resource s
      = match e with
        | ParserError =>
            add_metrics [group +:+ "/" +:+ version; kind; namespace; name] false
              (bool_decide (is_Some (annotations_of resource !! SUSPENDED_BY_ANNOTATION)))
              (Build_State E w (trace s ++ [debug; error])%list (gauges s))
        | _ => (Raise e, Build_State E w (trace s ++ [debug])%list (gauges s))
        end).
    { subst debug error resource. unfold annotations_of in *. cbn [r_metadata] in *.
      enter_suspended E namespace Hid Hrec.
      rewrite Hto. rewrite (bool_decide_eq_true_2 (is_Some (Some timeout))) by eauto.
      cbn [getitem].
      unfold check_timeout, try_except_ParserError, bind, ret, raise, getitem, lift,
        log, now.
      cbn [world trace gauges]. rewrite Hparse, Hnow. cbn [world trace gauges].
      rewrite Hlt.
      destruct e; cbn [fst snd world trace gauges]; rewrite <- ?app_assoc; reflexivity. }
    rewrite Hrun.
    destruct e; cbn [fst snd world trace gauges add_metrics];
      repeat (split; [reflexivity|]);
      (eexists; split; [|reflexivity]; repeat constructor).
Qed.

End ClassifierFacts.

(** ** Two sweeps in a row *)

Section SettlingFacts.

Context (T : TimeLib).

Local Abbreviation CE := (Cluster.externals T).














(** *** The server on the three keys *)






(** *** The classifier on a steady cluster *)



(** *** One instance on the cluster *)







(** *** Sequences of parts *)






(** *** The instances of one collection *)




(** *** What is expected does not change when the cluster settles *)





(** *** One kind, one group, the sweep *)











End SettlingFacts.

(** ** The claims on the clusters of the examples *)

(** A sweep that is known to finish is the pair of its gauges and its final
    state. *)
Lemma run_sweep_eta {E : Externals} (w : World E) (g : Gauges) :
  (run_sweep w).1 = Ok g -> run_sweep w = (Ok g, (run_sweep w).2).
Proof.
  destruct (run_sweep w) as [res s]. cbn. intros ->. reflexivity.
Qed.

Lemma suspended_iff_disabled_witness :
  is_suspended Demo.suspended_only = true
  /\ (Demo.check (Demo.myapp ∅) (Demo.start (Demo.cluster ∅ Demo.noon))).2
     = Demo.start (Demo.cluster ∅ Demo.noon)
  /\ exists x meta namespace name,
       was_listed (Cluster.sweep_trace Demo.time (Demo.cluster Demo.suspended_only Demo.noon)) x
       /\ annotations_of (l_resource x) !! RECONCILE_ANNOTATION = Some "disabled"
       /\ r_metadata (l_resource x) = Some meta
       /\ identity_of (l_namespaced x) meta namespace name
       /\ Demo.myapp_labels =
            [l_group x +:+ "/" +:+ l_version x; l_kind x; namespace; name].
Proof.
  destruct (@suspended_iff_disabled Demo.externals) as (Hiff & Hactive & Hsweep).
  split; [apply Hiff; reflexivity|]. split.
  - apply Hactive. vm_compute. discriminate.
  - set (c := Demo.cluster Demo.suspended_only Demo.noon).
    apply (Hsweep c
             match (@run_sweep Demo.externals c).1 with
             | Ok g => g
             | Raise _ => getGauges
             end
             (@run_sweep Demo.externals c).2 (Demo.myapp_labels, 1%Z)).
    + apply run_sweep_eta. vm_compute. reflexivity.
    + left. vm_compute. left. reflexivity.
Defined.

Lemma namespace_read_first_witness :
  (r_metadata Demo.homeless = Some Demo.homeless_meta
   /\ md_namespace Demo.homeless_meta = None)
  /\ Demo.check Demo.homeless (Demo.start (Demo.cluster ∅ Demo.noon))
     = (Raise (KeyError "namespace"), Demo.start (Demo.cluster ∅ Demo.noon))
  /\ exists e s',
       for_each [Demo.myapp ∅; Demo.homeless; Demo.myapp Demo.suspended_only] Demo.check
         (Demo.start (Demo.cluster ∅ Demo.noon))
       = (Raise e, s').
Proof.
  split; [now split|].
  destruct (@namespace_read_first Demo.externals) as [Hraise _].
  destruct (Hraise add_metrics "apps" "v1" "helmreleases" "HelmRelease" Demo.homeless
              Demo.homeless_meta (Demo.start (Demo.cluster ∅ Demo.noon)) eq_refl eq_refl)
    as [Hone Hloop].
  split; [exact Hone|]. apply Hloop. right. now left.
Defined.

Lemma rejected_patch_ends_sweep_witness :
  let ev :=
    Patched Demo.myapp_url patch_headers
      (patch_body [RECONCILE_ANNOTATION; SUSPEND_UNTIL_ANNOTATION]) (Ok 403%Z) in
  (In ev (Cluster.sweep_trace Demo.time Demo.rejecting) /\ Ok 403%Z <> Ok 200%Z)
  /\ (Cluster.sweep Demo.time Demo.rejecting).1 = Raise AssertionError.
Proof.
  intros ev.
  assert (Hin : In ev (trace (@run_sweep Demo.externals Demo.rejecting).2)).
  { vm_compute. repeat (first [left; reflexivity | right]). }
  assert (Hne : Ok 403%Z <> Ok 200%Z) by discriminate.
  split; [now split|].
  destruct (@rejected_patch_ends_sweep Demo.externals Demo.rejecting _ _ _ _ Hin Hne)
    as [Hres _].
  unfold Cluster.sweep. now destruct (@run_sweep Demo.externals Demo.rejecting).
Defined.

Lemma failed_listing_ends_sweep_witness :
  let ev := GotItems "/api/v1/configmaps" (Ok (500%Z, [])) in
  (In ev (Cluster.sweep_trace Demo.time Demo.unlistable)
   /\ forall items : list Resource, Ok (500%Z, []) <> Ok (200%Z, items))
  /\ (Cluster.sweep Demo.time Demo.unlistable).1 = Raise AssertionError.
Proof.
  intros ev.
  assert (Hin : In ev (trace (@run_sweep Demo.externals Demo.unlistable).2)).
  { vm_compute. repeat (first [left; reflexivity | right]). }
  assert (Hne : forall items : list Resource,
             Ok (500%Z, @nil Resource) <> Ok (200%Z, items)) by (intros; discriminate).
  split; [now split|].
  destruct (@failed_listing_ends_sweep Demo.externals Demo.unlistable _ _ Hin Hne)
    as [Hres _].
  unfold Cluster.sweep. now destruct (@run_sweep Demo.externals Demo.unlistable).
Defined.

(** C5 as the specification has it fails on [Demo.rejecting]: the removal on
    [apps/myapp] is answered with 403, it is the last thing the sweep does,
    so that [apps/other] is never looked at, and the sweep hands out no
    gauges, so that [apps/myapp] is not counted. *)
Lemma rejected_patch_counterexample :
  last (Cluster.sweep_trace Demo.time Demo.rejecting)
  = Some (Patched Demo.myapp_url patch_headers
            (patch_body [RECONCILE_ANNOTATION; SUSPEND_UNTIL_ANNOTATION]) (Ok 403%Z))
  /\ (Cluster.sweep Demo.time Demo.rejecting).1 = Raise AssertionError
  /\ ~ exists g, (Cluster.sweep Demo.time Demo.rejecting).1 = Ok g.
Proof.
  assert (H : (Cluster.sweep Demo.time Demo.rejecting).1 = Raise AssertionError)
    by (vm_compute; reflexivity).
  split; [vm_compute; reflexivity|]. split; [exact H|].
  intros [g Hg]. rewrite H in Hg. discriminate.
Qed.

(** C6 as the specification has it fails on [Demo.unlistable]: the listing
    of the config maps is answered with 500, it is the last thing the sweep
    does, so that the release [apps/myapp] is never listed, and the sweep
    hands out no gauges. *)
Lemma failed_listing_counterexample :
  last (Cluster.sweep_trace Demo.time Demo.unlistable)
  = Some (GotItems "/api/v1/configmaps" (Ok (500%Z, [])))
  /\ (Cluster.sweep Demo.time Demo.unlistable).1 = Raise AssertionError
  /\ ~ exists g, (Cluster.sweep Demo.time Demo.unlistable).1 = Ok g.
Proof.
  assert (H : (Cluster.sweep Demo.time Demo.unlistable).1 = Raise AssertionError)
    by (vm_compute; reflexivity).
  split; [vm_compute; reflexivity|]. split; [exact H|].
  intros [g Hg]. rewrite H in Hg. discriminate.
Qed.



(** * Further properties *)

(** ** The patch request (lines 59-87) *)

Lemma append_cancel_l (p a b : string) : p +:+ a = p +:+ b -> a = b.
Proof.
  induction p as [|c p IH]; cbn; [trivial|]. intros H. injection H as H. now apply IH.
Qed.

Lemma escape_annotation_inj (a b : string) :
  escape_annotation a = escape_annotation b -> a = b.
Proof.
  intros H. rewrite <- (unescape_escape a), <- (unescape_escape b). now rewrite H.
Qed.

Lemma annotation_path_inj (a b : string) :
  annotation_path a = annotation_path b -> a = b.
Proof.
  unfold annotation_path. intros H%append_cancel_l. now apply escape_annotation_inj.
Qed.

(** X1. Two annotation keys never share a path: the escaping of lines 72-74
    is injective, whatever [~] and [/] the keys contain, and the body built
    for keys that are pairwise distinct has one [remove] operation per key,
    in the order of the keys, on paths that are pairwise distinct. *)
Theorem distinct_keys_distinct_paths :
  (forall a b : string, annotation_path a = annotation_path b -> a = b)
  /\ (forall annotations : list string,
        List.NoDup annotations ->
        List.NoDup (map path (patch_body annotations))
        /\ map op (patch_body annotations) = map (fun _ => "remove") annotations
        /\ map path (patch_body annotations) = map annotation_path annotations).
Proof.
  split; [exact annotation_path_inj|].
  intros annotations Hnodup. unfold patch_body. rewrite !map_map. cbn [op path].
  split; [|now split].
  apply Finite.Injective_map_NoDup; [|exact Hnodup].
  intros a b. apply annotation_path_inj.
Qed.

Lemma reference_token_escape_both (s : string) :
  reference_token (escape_both s) = true.
Proof.
  induction s as [|c s IH]; [reflexivity|].
  cbn [escape_both].
  destruct (Ascii.eqb c "~") eqn:Htilde.
  { cbn. exact IH. }
  destruct (Ascii.eqb c "/") eqn:Hslash.
  { cbn. exact IH. }
  cbn [reference_token]. now rewrite Hslash, Htilde.
Qed.

(** X2. What lines 72-73 put behind [/metadata/annotations/] is one
    reference token of a JSON Pointer, for every key: it has no [/] in it
    and every [~] in it is followed by [0] or [1]. *)
Theorem escaped_key_is_reference_token (annotation : string) :
  exists token,
    annotation_path annotation = "/metadata/annotations/" +:+ token
    /\ reference_token token = true.
Proof.
  exists (escape_annotation annotation). split; [reflexivity|].
  rewrite escape_annotation_chars. apply reference_token_escape_both.
Qed.

(** ** The endpoints (lines 32, 42 and 63-66) *)

Lemma append_assoc (a b c : string) : (a +:+ b) +:+ c = a +:+ (b +:+ c).
Proof.
  induction a as [|x a IH]; [reflexivity|].
  change (String x ((a +:+ b) +:+ c) = String x (a +:+ (b +:+ c))). now rewrite IH.
Qed.

(** X3. The three endpoints nest: a collection is listed under the endpoint
    of the discovery document that names its kind, an instance without a
    namespace is patched under the endpoint its collection was listed at,
    and one with a namespace under [namespaces/<namespace>] between the two;
    and so for the core group as for any other. *)
Theorem endpoints_nest (group version plural namespace name : string) (c : ascii) :
  list_endpoint group version plural = api_endpoint group version +:+ "/" +:+ plural
  /\ patch_endpoint group version plural "" name
     = list_endpoint group version plural +:+ "/" +:+ name
  /\ patch_endpoint group version plural (String c namespace) name
     = api_endpoint group version +:+ "/namespaces/" +:+ String c namespace
       +:+ "/" +:+ plural +:+ "/" +:+ name.
Proof.
  unfold patch_endpoint, list_endpoint, api_endpoint.
  destruct (PyStr.truthy group); cbn [PyStr.truthy];
    repeat split; rewrite ?append_assoc; cbn; rewrite ?append_assoc; reflexivity.
Qed.

(** ** One instance, further *)

Section Instances.

Context {E : Externals}.

(** X4. An instance without [metadata] ends the body of the loop with
    [KeyError('metadata')], and one whose metadata has no [name] with
    [KeyError('name')] (lines 93 and 96): both before the annotations are
    looked at, so whether or not the instance is suspended, and with nothing
    logged, called or counted.  The loop over a list of instances ends with
    a [KeyError] at the first instance that lacks one of the two, and does
    not look at those after it. *)
Theorem missing_metadata_or_name_raises
    (yield_ : list string -> bool -> bool -> M E unit)
    (group version plural kind : string) (namespaced : bool) (resource : Resource)
    (before rest : list Resource) (s : State E) :
  let body := checkResource yield_ group version plural kind namespaced in
  (r_metadata resource = None ->
   body resource s = (Raise (KeyError "metadata"), s))
  /\ (forall meta,
        r_metadata resource = Some meta ->
        (namespaced = true -> is_Some (md_namespace meta)) ->
        md_name meta = None ->
        body resource s = (Raise (KeyError "name"), s))
  /\ (forall s',
        ~ has_identity resource ->
        for_each before body s = (Ok tt, s') ->
        exists key,
          for_each (before ++ resource :: rest) body s = (Raise (KeyError key), s')).
Proof.
  intros body.
  assert (Hname : forall s0 meta,
            r_metadata resource = Some meta ->
            (namespaced = true -> is_Some (md_namespace meta)) ->
            md_name meta = None ->
            body resource s0 = (Raise (KeyError "name"), s0)).
  { intros s0 meta H Hns Hnone. subst body. unfold checkResource. rewrite H.
    cbn [getitem]. unfold bind at 1. cbn [ret].
    destruct namespaced.
    - destruct (Hns eq_refl) as [ns ->]. cbn [getitem]. unfold bind at 1. cbn [ret].
      now rewrite Hnone.
    - unfold bind at 1. cbn [ret]. now rewrite Hnone. }
  split; [|split; [apply Hname|]].
  { intros H. subst body. unfold checkResource. now rewrite H. }
  intros s' Hnot Hbefore.
  assert (Hraise : exists key, body resource s' = (Raise (KeyError key), s')).
  { destruct (r_metadata resource) as [meta|] eqn:Hm.
    - destruct (md_name meta) as [name|] eqn:Hn.
      { destruct Hnot. now exists meta, name. }
      destruct namespaced eqn:Hnsd.
      + destruct (md_namespace meta) as [ns|] eqn:Hns.
        * exists "name". apply (Hname s' meta eq_refl); [eauto | exact Hn].
        * exists "namespace". subst body. unfold checkResource. rewrite Hm.
          cbn [getitem]. unfold bind at 1. cbn [ret]. now rewrite Hns.
      + exists "name". apply (Hname s' meta eq_refl); [discriminate | exact Hn].
    - exists "metadata". subst body. unfold checkResource. now rewrite Hm. }
  destruct Hraise as [key Hraise]. exists key.
  clear Hname. revert s Hbefore.
  induction before as [|r before IH]; intros s Hbefore.
  - cbn [for_each ret] in Hbefore. injection Hbefore as <-.
    cbn [app]. now apply for_each_cons_raise.
  - cbn [app for_each] in *. unfold bind in *.
    destruct (body r s) as [[[]|e] s1]; [now apply IH | discriminate].
Qed.

(** X5. A suspended instance without a suspend-until annotation is
    reported as indefinite and is never removed (lines 106-108 and 128-130):
    the body of the loop neither reads the clock nor calls the parser or
    the cluster, so that the world is as it was; it logs the one debug
    record and adds the instance with the values 1, 1 unless it has a
    suspended-by annotation, and 1. *)
Theorem no_timeout_is_indefinite
    (group version plural kind : string) (namespaced : bool) (resource : Resource)
    (meta : Metadata) (namespace name : string) (s : State E) :
  r_metadata resource = Some meta ->
  identity_of namespaced meta namespace name ->
  annotations_of resource !! RECONCILE_ANNOTATION = Some "disabled" ->
  annotations_of resource !! SUSPEND_UNTIL_ANNOTATION = None ->
  let run := checkResource add_metrics group version plural kind namespaced resource s in
  let rname := resource_name group version namespace name in
  let labels := [group +:+ "/" +:+ version; kind; namespace; name] in
  let hasOwner :=
    bool_decide (is_Some (annotations_of resource !! SUSPENDED_BY_ANNOTATION)) in
  run.1 = Ok tt
  /\ world run.2 = world s
  /\ trace run.2 =
       (trace s ++ [Logged DEBUG ("Resource " +:+ rname +:+ " is suspended")])%list
  /\ gm_samples (gAll (gauges run.2)) =
       (gm_samples (gAll (gauges s)) ++ [(labels, 1%Z)])%list
  /\ gm_samples (gUnowned (gauges run.2)) =
       (gm_samples (gUnowned (gauges s)) ++ [(labels, if hasOwner then 0%Z else 1%Z)])%list
  /\ gm_samples (gIndefinite (gauges run.2)) =
       (gm_samples (gIndefinite (gauges s)) ++ [(labels, 1%Z)])%list.
Proof.
  intros Hmeta Hid Hrec Hto run rname labels hasOwner.
  pose proof (checkResource_reported group version plural kind namespaced resource
                meta namespace name s Hmeta Hid Hrec) as H.
  cbv zeta in H. rewrite Hto in H. subst run. rewrite H.
  cbn [fst snd world trace gauges add_row gAll gUnowned gIndefinite add_metric gm_samples
       row_labels row_hasOwner row_hasTimeout].
  now repeat split.
Qed.

(** X6. The handler of line 114 catches [ParserError] and nothing else: an
    exception of any other class that the parser raises, or that the
    comparison with the clock raises, leaves the body of the loop, after the
    debug record and with nothing removed or counted, and ends the loop
    over the instances: those that follow are not looked at. *)
Theorem other_exceptions_end_the_loop
    (yield_ : list string -> bool -> bool -> M E unit)
    (group version plural kind : string) (namespaced : bool) (resource : Resource)
    (meta : Metadata) (namespace name timeout : string) (e : exn)
    (rest : list Resource) (s : State E) :
  r_metadata resource = Some meta ->
  identity_of namespaced meta namespace name ->
  annotations_of resource !! RECONCILE_ANNOTATION = Some "disabled" ->
  annotations_of resource !! SUSPEND_UNTIL_ANNOTATION = Some timeout ->
  e <> ParserError ->
  let body := checkResource yield_ group version plural kind namespaced in
  let debug :=
    Logged DEBUG
      ("Resource " +:+ resource_name group version namespace name +:+ " is suspended") in
  (isoparse E timeout = Raise e ->
   for_each (resource :: rest) body s
   = (Raise e, Build_State E (world s) (trace s ++ [debug])%list (gauges s)))
  /\ (forall parsed,
        isoparse E timeout = Ok parsed ->
        datetime_lt E parsed (datetime_now E (world s)).1 = Raise e ->
        for_each (resource :: rest) body s
        = (Raise e,
           Build_State E (datetime_now E (world s)).2 (trace s ++ [debug])%list (gauges s))).
Proof.
  intros Hmeta Hid Hrec Hto Hne body debug. subst body debug.
  open_resource resource Hmeta.
  split.
  - intros Hparse. apply for_each_cons_raise.
    enter_suspended E namespace Hid Hrec.
    rewrite Hto. rewrite (bool_decide_eq_true_2 (is_Some (Some timeout))) by eauto.
    cbn [getitem].
    unfold check_timeout, try_except_ParserError, bind, ret, raise, getitem, lift, log, now.
    cbn [world trace gauges]. rewrite Hparse.
    destruct e; try reflexivity. now destruct Hne.
  - intros parsed Hparse Hlt. apply for_each_cons_raise.
    enter_suspended E namespace Hid Hrec.
    rewrite Hto. rewrite (bool_decide_eq_true_2 (is_Some (Some timeout))) by eauto.
    cbn [getitem].
    unfold check_timeout, try_except_ParserError, bind, ret, raise, getitem, lift, log, now.
    cbn [world trace gauges]. rewrite Hparse.
    destruct (datetime_now E (world s)) as [current w]. cbn [fst snd] in *.
    cbn [world trace gauges]. rewrite Hlt.
    destruct e; try reflexivity. now destruct Hne.
Qed.

(** X7. The body of the loop looks at five things on an instance: its
    namespace, its name, the values of the reconcile and of the
    suspend-until annotation, and whether it has a suspended-by annotation
    (lines 94-96, 100, 106-107 and 111).  Two instances that agree on these
    are treated alike: the value of the suspended-by annotation and every
    other annotation are of no account. *)
Theorem only_the_view_counts
    (yield_ : list string -> bool -> bool -> M E unit)
    (group version plural kind : string) (namespaced : bool) (meta meta' : Metadata)
    (s : State E) :
  view meta = view meta' ->
  checkResource yield_ group version plural kind namespaced {| r_metadata := Some meta |} s
  = checkResource yield_ group version plural kind namespaced {| r_metadata := Some meta' |} s.
Proof.
  unfold view. cbv zeta. intros H. injection H as Hns Hname Hrec Hto Hby.
  unfold checkResource, is_suspended. cbn [r_metadata getitem]. cbv zeta.
  unfold bind at 1. unfold bind at 7. cbn [ret].
  now rewrite Hns, Hname, Hrec, Hto, Hby.
Qed.

End Instances.

(** ** What a sweep leaves in its trace *)

Section Events.

Context {E : Externals}.

Lemma classify_TimedOut current group version kind namespaced resource
    namespace name keys read :
  @classify E current group version kind namespaced resource
  = (TimedOut namespace name keys, read) ->
  exists meta timeout parsed,
    r_metadata resource = Some meta
    /\ identity_of namespaced meta namespace name
    /\ annotations_of resource !! RECONCILE_ANNOTATION = Some "disabled"
    /\ annotations_of resource !! SUSPEND_UNTIL_ANNOTATION = Some timeout
    /\ isoparse E timeout = Ok parsed
    /\ datetime_lt E parsed current = Ok true
    /\ keys = removal_keys (annotations_of resource).
Proof.
  unfold classify, annotations_of, removal_keys.
  destruct (r_metadata resource) as [meta|] eqn:Hmeta; [|discriminate].
  destruct (if namespaced then md_namespace meta else Some "") as [ns|] eqn:Hns;
    [|discriminate].
  destruct (md_name meta) as [nm|] eqn:Hname; [|discriminate].
  cbv zeta. unfold is_suspended. case_bool_decide as Hrec; cbn [negb]; [|discriminate].
  destruct (default ∅ (md_annotations meta) !! SUSPEND_UNTIL_ANNOTATION)
    as [timeout|] eqn:Hto; [|discriminate].
  destruct (isoparse E timeout) as [parsed|e] eqn:Hparse.
  2:{ destruct e; discriminate. }
  destruct (datetime_lt E parsed current) as [[|]|e] eqn:Hlt.
  - intros [= <- <- <- <-]. exists meta, timeout, parsed. repeat split; try reflexivity.
    + destruct namespaced; [exact Hns | now injection Hns as <-].
    + exact Hname.
    + exact Hrec.
    + exact Hparse.
    + exact Hlt.
  - discriminate.
  - destruct e; discriminate.
Qed.

(** The events of one instance: log records, or the two log records and
    the request of a removal. *)
Lemma checkResource_events (x : Listed) (s : State E) :
  exists evs,
    trace (checkResource add_metrics (l_group x) (l_version x) (l_plural x) (l_kind x)
             (l_namespaced x) (l_resource x) s).2 = (trace s ++ evs)%list
    /\ (Forall is_log evs
        \/ exists namespace name answer,
             timed_out E x namespace name /\ evs = removal_events x namespace name answer).
Proof.
  destruct (datetime_now E (world s)) as [current w] eqn:Hnow.
  pose proof (checkResource_classify (l_group x) (l_version x) (l_plural x) (l_kind x)
                (l_namespaced x) (l_resource x) s current w Hnow) as H.
  cbv zeta in H.
  destruct (classify current (l_group x) (l_version x) (l_kind x) (l_namespaced x)
              (l_resource x)) as [[e| |namespace name keys|labels hasTimeout hasOwner] read]
    eqn:Hclass.
  - destruct H as (_ & _ & _ & logs & Hlogs & Htrace). exists logs. split; [exact Htrace|now left].
  - rewrite H. exists []. cbn. split; [now rewrite app_nil_r | left; constructor].
  - destruct (classify_TimedOut _ _ _ _ _ _ _ _ _ _ Hclass)
      as (meta & timeout & parsed & Hmeta & Hid & Hrec & Hto & Hparse & Hlt & ->).
    pose proof (checkResource_timed_out add_metrics (l_group x) (l_version x) (l_plural x)
                  (l_kind x) (l_namespaced x) (l_resource x) meta namespace name timeout
                  parsed current w s Hmeta Hid Hrec Hto Hparse Hnow Hlt) as Hout.
    cbv zeta in Hout. rewrite Hout. cbn [fst snd trace].
    eexists. split; [reflexivity|]. right.
    eexists namespace, name, _. split; [|reflexivity].
    exists meta, timeout, parsed, current. repeat (split; [assumption|]).
    split; [|exact Hlt]. exists (world s). now rewrite Hnow.
  - destruct H as (_ & _ & _ & logs & Hlogs & Htrace). exists logs. split; [exact Htrace|now left].
Qed.

End Events.

(** *** Induction over the trace of a sweep

    What holds of the empty trace and is kept by every call and log record
    of a sweep, each taken with what is known where the script makes it,
    holds of the trace the sweep leaves, whether it ends or raises. *)

Section SweepHistory.

Context {E : Externals}.

Variable J : list Event -> Prop.

Hypothesis J_core : forall r, J [GotResources (api_endpoint "" "v1") r].
Hypothesis J_versions :
  forall t r, J t -> core_done t -> J (t ++ [GotApiVersions r])%list.
Hypothesis J_resources :
  forall t groups api r,
    J t -> core_done t -> In (GotApiVersions (Ok groups)) t -> In api groups ->
    J (t ++ [GotResources (api_endpoint (api_name api) (api_preferred_version api)) r])%list.
Hypothesis J_items :
  forall t group version resource r,
    J t -> offered t group version resource ->
    J (t ++ [GotItems (list_endpoint group version (ar_name resource)) r])%list.
Hypothesis J_logged :
  forall t level message, J t -> J (t ++ [Logged level message])%list.
Hypothesis J_removed :
  forall t x namespace name answer,
    J t -> was_listed t x -> timed_out E x namespace name ->
    J (t ++ removal_events x namespace name answer)%list.

Local Abbreviation Hist P := (fun s : State E => J (trace s) /\ P (trace s)).
Local Abbreviation Left := (fun (_ : exn) (s : State E) => J (trace s)).

Lemma history_logs t logs : J t -> Forall is_log logs -> J (t ++ logs)%list.
Proof.
  intros HJ Hlogs. revert t HJ.
  induction Hlogs as [|ev logs Hev _ IH]; intros t HJ.
  - now rewrite app_nil_r.
  - change (ev :: logs) with ([ev] ++ logs)%list. rewrite app_assoc. apply IH.
    destruct ev; try contradiction. now apply J_logged.
Qed.

Lemma history_item (P : list Event -> Prop) (x : Listed) :
  monotone P ->
  (forall t, P t -> was_listed t x) ->
  triple (Hist P)
    (checkResource add_metrics (l_group x) (l_version x) (l_plural x) (l_kind x)
       (l_namespaced x) (l_resource x))
    (fun _ => Hist P) Left.
Proof.
  intros HP Hlisted s [HJ HPs].
  destruct (checkResource_events x s) as (evs & Htrace & Hevs).
  assert (HJ' : J (trace s ++ evs)).
  { destruct Hevs as [Hlogs | (namespace & name & answer & Hout & ->)].
    - now apply history_logs.
    - apply J_removed; [exact HJ | now apply Hlisted | exact Hout]. }
  destruct (checkResource _ _ _ _ _ _ _ s) as [[u|e] s']; cbn [snd] in Htrace;
    rewrite Htrace; [split; [exact HJ' | now apply HP] | exact HJ'].
Qed.

(** A call with the [assert status == 200] after it, and what follows. *)
Lemma history_call_status {A B} (Pre P : list Event -> Prop)
    (f : World E -> Result (Z * A) * World E) (ev : Result (Z * A) -> Event)
    (k : A -> M E B) (Q : B -> State E -> Prop) :
  monotone P ->
  (forall t r, Pre t -> J (t ++ [ev r])%list) ->
  (forall t, Pre t -> P t) ->
  (forall a, triple (Hist (fun t => P t /\ In (ev (Ok (200%Z, a))) t)) (k a) Q Left) ->
  triple (fun s => Pre (trace s))
    (bind (call f ev) (fun '(status, a) => bind (assert (status =? 200)%Z) (fun _ => k a)))
    Q Left.
Proof.
  intros HP Hev HPre Hk s Hs. unfold bind at 1, call.
  destruct (f (world s)) as [[[status a]|e] w]; cbn [world trace gauges].
  - unfold bind, assert. destruct (Z.eqb_spec status 200) as [->|Hne]; cbn [ret raise].
    + apply Hk. cbn [world trace gauges]. split; [now apply Hev|].
      split; [apply HP; now apply HPre | apply in_or_app; right; now left].
    + cbn [trace]. now apply Hev.
  - cbn [trace]. now apply Hev.
Qed.

Lemma history_kind (P : list Event -> Prop) group version resources resource :
  monotone P ->
  (forall t, P t ->
     In (GotResources (api_endpoint group version) (Ok (200%Z, resources))) t) ->
  In resource resources ->
  triple (Hist P)
    (listKind (checkResource add_metrics) group version (ar_name resource)
       (ar_kind resource) (ar_verbs resource) (ar_namespaced resource))
    (fun _ => Hist P) Left.
Proof.
  intros HP Hres Hin. unfold listKind.
  destruct (not_listable (ar_verbs resource)) eqn:Hverbs.
  { intros s Hs. exact Hs. }
  apply not_listable_false in Hverbs.
  unfold getAllResourcesInAPI.
  apply (history_call_status (fun t => J t /\ P t) P); [exact HP | | tauto |].
  { intros t r [HJ HPt]. apply J_items; [exact HJ|].
    exists resources. split; [now apply Hres | now split]. }
  intros items.
  set (P' := fun t => P t /\ In (GotItems (list_endpoint group version (ar_name resource))
                                          (Ok (200%Z, items))) t).
  apply triple_weaken with (P' := Hist P') (Q' := fun _ => Hist P') (X' := Left); auto.
  2:{ intros _ s [HJ [HPs _]]. now split. }
  apply triple_for_each. intros r Hr.
  apply (history_item P'
           (Build_Listed group version (ar_name resource) (ar_kind resource)
              (ar_namespaced resource) r)).
  - apply monotone_and; [exact HP | apply monotone_In].
  - intros t [HPt Hitems]. split.
    + exists resources, (ar_verbs resource). split; [now apply Hres|].
      split; [now destruct resource | exact Hverbs].
    + exists items. now split.
Qed.

Lemma history_group (Pre P : list Event -> Prop) group version :
  monotone P ->
  (forall t r, Pre t -> J (t ++ [GotResources (api_endpoint group version) r])%list) ->
  (forall t, Pre t -> P t) ->
  triple (fun s => Pre (trace s))
    (getAllResourceKindsInAPI group version (listKind (checkResource add_metrics) group version))
    (fun _ =>
       Hist (fun t => P t /\ exists resources,
                        In (GotResources (api_endpoint group version)
                              (Ok (200%Z, resources))) t))
    Left.
Proof.
  intros HP Hev HPre. unfold getAllResourceKindsInAPI.
  apply (history_call_status Pre P); [exact HP | exact Hev | exact HPre |].
  intros resources.
  set (P' := fun t => P t /\ In (GotResources (api_endpoint group version)
                                              (Ok (200%Z, resources))) t).
  apply triple_weaken with (P' := Hist P') (Q' := fun _ => Hist P') (X' := Left); auto.
  2:{ intros _ s [HJ [HPs Hin]]. split; [exact HJ|]. split; [exact HPs|]. now exists resources. }
  apply triple_for_each. intros resource Hin.
  apply history_kind with (resources := resources); [|now intros t [_ H]|exact Hin].
  apply monotone_and; [exact HP | apply monotone_In].
Qed.

Lemma history_checkAllResources :
  triple (fun s => trace s = []) (checkAllResources add_metrics)
    (fun _ s => J (trace s)) Left.
Proof.
  unfold checkAllResources, getAllResources, getAllAPIs.
  eapply triple_bind.
  { apply (history_group (fun t => t = []) (fun _ => True)); [apply monotone_True | | trivial].
    intros t r ->. apply J_core. }
  intros u.
  eapply triple_bind with (Q1 := fun groups => Hist (fun t =>
           core_done t /\ In (GotApiVersions (Ok groups)) t)).
  - intros s [HJ [_ Hcore]]. unfold call.
    destruct (get_api_versions E (world s)) as [[groups|e] w]; cbn [world trace gauges].
    + split; [now apply J_versions|]. split.
      * destruct Hcore as [resources Hin]. exists resources. apply in_or_app. now left.
      * apply in_or_app. right. now left.
    + now apply J_versions.
  - intros groups.
    set (P := fun t => core_done t /\ In (GotApiVersions (Ok groups)) t).
    assert (HP : monotone P).
    { intros t t' [[resources Hin] Hv]. split.
      - exists resources. apply in_or_app. now left.
      - apply in_or_app. now left. }
    eapply triple_weaken with (P' := Hist P) (Q' := fun _ => Hist P) (X' := Left); auto.
    2:{ now intros _ s [HJ _]. }
    apply triple_for_each. intros api Hin.
    eapply triple_weaken;
      [apply (history_group (fun t => J t /\ P t) P (api_name api) (api_preferred_version api) HP)
      | | |].
    + intros t r [HJ [Hcore Hv]]. now apply (J_resources t groups api r).
    + tauto.
    + intros s Hs. exact Hs.
    + intros _ s [HJ [HPs _]]. now split.
    + auto.
Qed.

Lemma sweep_history (w : World E) : J (trace (run_sweep w).2).
Proof.
  unfold run_sweep, collect.
  unfold bind at 1, set_gauges. cbn [world trace gauges fresh].
  pose proof (history_checkAllResources (Build_State E w [] getGauges) eq_refl) as H.
  unfold bind, get_gauges.
  destruct (checkAllResources add_metrics _) as [[u|e] s]; exact H.
Qed.

End SweepHistory.

(** ** What a sweep asks of the cluster, and what it never asks *)

Section Requests.

Context {E : Externals}.




Lemma offered_app t t' group version resource :
  offered t group version resource -> offered (t ++ t') group version resource.
Proof.
  intros (resources & Hin & H). exists resources. split; [|exact H].
  apply in_or_app. now left.
Qed.

Lemma listings_offered_app t evs :
  listings_offered t ->
  (forall endpoint answer, ~ In (GotItems endpoint answer) evs) ->
  listings_offered (t ++ evs)%list.
Proof.
  intros HJ Hev endpoint answer Hin.
  apply in_app_or in Hin. destruct Hin as [Hin | Hin]; [|now destruct (Hev endpoint answer)].
  destruct (HJ _ _ Hin) as (group & version & resource & Hoff & ->).
  exists group, version, resource. split; [now apply offered_app | reflexivity].
Qed.

Lemma sweep_listings (w : World E) : listings_offered (trace (run_sweep w).2).
Proof.
  apply (sweep_history (E:=E) listings_offered).
  - intros r endpoint answer [Hin | []]. discriminate.
  - intros t r HJ _. apply listings_offered_app; [exact HJ|].
    intros endpoint answer [H | []]. discriminate.
  - intros t groups api r HJ _ _ _. apply listings_offered_app; [exact HJ|].
    intros endpoint answer [H | []]. discriminate.
  - intros t group version resource r HJ Hoff endpoint answer Hin.
    apply in_app_or in Hin. destruct Hin as [Hin | [Hin | []]].
    + destruct (HJ _ _ Hin) as (group' & version' & resource' & Hoff' & ->).
      exists group', version', resource'. split; [now apply offered_app | reflexivity].
    + injection Hin as <- <-. exists group, version, resource.
      split; [now apply offered_app | reflexivity].
  - intros t level message HJ. apply listings_offered_app; [exact HJ|].
    intros endpoint answer [H | []]. discriminate.
  - intros t x namespace name answer HJ _ _. apply listings_offered_app; [exact HJ|].
    intros endpoint answer' [H | [H | [H | []]]]; discriminate.
Qed.

(** X9. A sweep lists nothing but what discovery offers (lines 52-55):
    every GET of a collection goes to the endpoint of a kind that a
    discovery document of the same sweep, answered with status 200, names
    with the verb [list] among its verbs.  A kind without that verb is
    never listed. *)
Theorem lists_only_offered_kinds (w : World E) endpoint answer :
  In (GotItems endpoint answer) (trace (run_sweep w).2) ->
  exists group version resources resource,
    In (GotResources (api_endpoint group version) (Ok (200%Z, resources)))
       (trace (run_sweep w).2)
    /\ In resource resources
    /\ In "list" (ar_verbs resource)
    /\ endpoint = list_endpoint group version (ar_name resource).
Proof.
  intros Hin.
  destruct (sweep_listings w _ _ Hin)
    as (group & version & resource & (resources & H1 & H2 & H3) & ->).
  now exists group, version, resources, resource.
Qed.

Lemma core_done_app t t' : core_done t -> core_done (t ++ t').
Proof. intros [resources Hin]. exists resources. apply in_or_app. now left. Qed.

Lemma discovery_in_order_app t evs :
  discovery_in_order t ->
  (forall r, ~ In (GotApiVersions r) evs) ->
  (forall endpoint r, ~ In (GotResources endpoint r) evs) ->
  discovery_in_order (t ++ evs)%list.
Proof.
  intros ((r0 & rest & ->) & Hv & Hr) Hnv Hnr. split; [|split].
  - now exists r0, (rest ++ evs)%list.
  - intros r Hin. apply in_app_or in Hin. destruct Hin as [Hin | Hin].
    + apply core_done_app. now apply (Hv r).
    + now destruct (Hnv r).
  - intros endpoint r Hin. apply in_app_or in Hin. destruct Hin as [Hin | Hin].
    + destruct (Hr _ _ Hin) as [-> | (groups & api & H1 & H2 & ->)]; [now left|].
      right. exists groups, api. split; [apply in_or_app; now left | now split].
    + now destruct (Hnr endpoint r).
Qed.

Lemma sweep_discovery (w : World E) : discovery_in_order (trace (run_sweep w).2).
Proof.
  apply (sweep_history (E:=E) discovery_in_order).
  - intros r. split; [now exists r, []|]. split.
    + intros r' [H | []]. discriminate.
    + intros endpoint r' [H | []]. injection H as <- <-. now left.
  - intros t r ((r0 & rest & ->) & Hv & Hr) Hcore. split; [|split].
    + now exists r0, (rest ++ [GotApiVersions r])%list.
    + intros _ _. now apply core_done_app.
    + intros endpoint r' Hin. apply in_app_or in Hin.
      destruct Hin as [Hin | [Hin | []]]; [|discriminate].
      destruct (Hr _ _ Hin) as [-> | (groups & api & H1 & H2 & ->)]; [now left|].
      right. exists groups, api. split; [apply in_or_app; now left | now split].
  - intros t groups api r ((r0 & rest & ->) & Hv & Hr) Hcore Hgroups Hin. split; [|split].
    + now eexists r0, (rest ++ [_])%list.
    + intros _ _. now apply core_done_app.
    + intros endpoint r' Hin'. apply in_app_or in Hin'.
      destruct Hin' as [Hin' | [Hin' | []]].
      * destruct (Hr _ _ Hin') as [-> | (groups' & api' & H1 & H2 & ->)]; [now left|].
        right. exists groups', api'. split; [apply in_or_app; now left | now split].
      * injection Hin' as <- <-. right. exists groups, api.
        split; [apply in_or_app; now left | now split].
  - intros t group version resource r HJ _. apply discovery_in_order_app; [exact HJ | |];
      intros; intros [H | []]; discriminate.
  - intros t level message HJ. apply discovery_in_order_app; [exact HJ | |];
      intros; intros [H | []]; discriminate.
  - intros t x namespace name answer HJ _ _. apply discovery_in_order_app; [exact HJ | |];
      intros; intros [H | [H | [H | []]]]; discriminate.
Qed.

(** X10. The order of discovery (lines 25-28 and 31-36): the first call of
    every sweep is the GET of [/api/v1]; [get_api_versions] is called only
    after that GET has been answered with status 200; and every other
    discovery document the sweep asks for is that of a group, in its
    preferred version, that [get_api_versions] has named in the same
    sweep. *)
Theorem discovers_core_then_named_groups (w : World E) :
  (exists r rest, trace (run_sweep w).2 = GotResources "/api/v1" r :: rest)
  /\ (forall r,
        In (GotApiVersions r) (trace (run_sweep w).2) ->
        exists resources,
          In (GotResources "/api/v1" (Ok (200%Z, resources))) (trace (run_sweep w).2))
  /\ (forall endpoint r,
        In (GotResources endpoint r) (trace (run_sweep w).2) ->
        endpoint = "/api/v1"
        \/ exists groups api,
             In (GotApiVersions (Ok groups)) (trace (run_sweep w).2)
             /\ In api groups
             /\ endpoint = api_endpoint (api_name api) (api_preferred_version api)).
Proof. exact (sweep_discovery w). Qed.

(** X11. A discovery document that is answered with another status than
    200, or whose call raises, ends the sweep (line 36): the exception is
    the [AssertionError] of the assertion, or the one the call raised;
    nothing is done after the call, so that no group after it is looked at,
    and the sweep hands out no gauge. *)
Theorem failed_discovery_ends_sweep (w : World E) endpoint answer :
  In (GotResources endpoint answer) (trace (run_sweep w).2) ->
  (forall resources, answer <> Ok (200%Z, resources)) ->
  (run_sweep w).1 =
    Raise (match answer with Ok _ => AssertionError | Raise e => e end)
  /\ exists t,
       trace (run_sweep w).2 = (t ++ [GotResources endpoint answer])%list
       /\ Forall (fun ev => ~ failed ev) t.
Proof.
  intros Hin Hne.
  destruct (failed_call_ends_sweep w _ Hin) as [Hres Htrace].
  - destruct answer as [[status resources]|e]; cbn; [|exact Logic.I].
    intros ->. now apply (Hne resources).
  - split; [|exact Htrace]. rewrite Hres. now destruct answer.
Qed.

(** X12. When [get_api_versions] raises (line 27), the sweep ends with
    that exception and hands out no gauge, although the core group has
    been gone through by then: its discovery was answered with status 200,
    no call before this one has failed, and nothing is done after it. *)
Theorem failed_get_api_versions_ends_sweep (w : World E) (e : exn) :
  In (GotApiVersions (Raise e)) (trace (run_sweep w).2) ->
  (run_sweep w).1 = Raise e
  /\ exists t,
       trace (run_sweep w).2 = (t ++ [GotApiVersions (Raise e)])%list
       /\ Forall (fun ev => ~ failed ev) t
       /\ exists resources, In (GotResources "/api/v1" (Ok (200%Z, resources))) t.
Proof.
  intros Hin.
  destruct (failed_call_ends_sweep w _ Hin Logic.I) as [Hres (t & Htrace & Hnone)].
  split; [exact Hres|]. exists t. split; [exact Htrace|]. split; [exact Hnone|].
  destruct (sweep_discovery w) as (_ & Hv & _).
  destruct (Hv _ Hin) as [resources Hcore]. exists resources.
  rewrite Htrace in Hcore. apply in_app_or in Hcore.
  destruct Hcore as [Hcore | [Hcore | []]]; [exact Hcore | discriminate].
Qed.

End Requests.

(** ** What a sweep that ends has seen *)

Section Completed.

Context {E : Externals}.

Lemma checkResource_ok_identity (yield_ : list string -> bool -> bool -> M E unit)
    group version plural kind namespaced resource (s : State E) :
  (checkResource yield_ group version plural kind namespaced resource s).1 = Ok tt ->
  has_identity resource.
Proof.
  unfold checkResource. destruct resource as [[meta|]]; cbn [r_metadata getitem];
    [|discriminate].
  unfold bind at 1. cbn [ret].
  destruct (md_name meta) as [name|] eqn:Hname; [intros _; now exists meta, name|].
  destruct namespaced; [destruct (md_namespace meta)|]; cbn [getitem];
    unfold bind at 1; cbn [ret raise]; discriminate.
Qed.

Lemma removal_events_not_listing x namespace name answer :
  Forall (fun ev => ~ is_listing ev) (removal_events x namespace name answer).
Proof. repeat constructor; exact id. Qed.

Lemma logs_not_listing logs :
  Forall is_log logs -> Forall (fun ev => ~ is_listing ev) logs.
Proof.
  intros H. eapply Forall_impl; [exact H|]. intros ev Hlog. now destruct ev.
Qed.

(** A loop over the instances of a collection that ends has found every
    one of them with its metadata and its name, and has listed nothing. *)
Lemma for_each_ok_identity group version plural kind namespaced
    (items : list Resource) (s : State E) :
  let run := for_each items (checkResource add_metrics group version plural kind namespaced) s in
  run.1 = Ok tt ->
  Forall has_identity items
  /\ exists evs,
       trace run.2 = (trace s ++ evs)%list /\ Forall (fun ev => ~ is_listing ev) evs.
Proof.
  cbv zeta. revert s. induction items as [|r items IH]; intros s.
  - intros _. split; [constructor|]. exists []. cbn. now rewrite app_nil_r.
  - cbn [for_each]. unfold bind.
    pose proof (checkResource_ok_identity add_metrics group version plural kind namespaced r s)
      as Hid.
    destruct (checkResource_events
                (Build_Listed group version plural kind namespaced r) s)
      as (evs & Htrace & Hevs).
    cbn [l_group l_version l_plural l_kind l_namespaced l_resource] in Htrace.
    destruct (checkResource add_metrics group version plural kind namespaced r s)
      as [[[]|e] s1]; [|discriminate].
    cbn [fst snd] in *. intros Hrest.
    destruct (IH s1 Hrest) as [Hall (evs' & Htrace' & Hevs')].
    split; [constructor; [now apply Hid | exact Hall]|].
    exists (evs ++ evs')%list. split.
    + now rewrite Htrace', Htrace, app_assoc.
    + apply Forall_app. split; [|exact Hevs'].
      destruct Hevs as [Hlogs | (namespace & name & answer & _ & ->)].
      * now apply logs_not_listing.
      * apply removal_events_not_listing.
Qed.

Lemma listings_identified_app t evs :
  listings_identified t ->
  Forall (fun ev => ~ is_listing ev) evs ->
  listings_identified (t ++ evs)%list.
Proof.
  intros HJ Hevs endpoint items Hin. apply in_app_or in Hin.
  destruct Hin as [Hin | Hin]; [now apply (HJ endpoint)|].
  rewrite List.Forall_forall in Hevs. now destruct (Hevs _ Hin).
Qed.

Local Abbreviation Seen := (fun s : State E => listings_identified (trace s)).
Local Abbreviation Any := (fun (_ : exn) (_ : State E) => True).

Lemma identified_kind group version plural kind verbs namespaced :
  triple Seen (listKind (checkResource add_metrics) group version plural kind verbs namespaced)
    (fun _ => Seen) Any.
Proof.
  unfold listKind. destruct (not_listable verbs); [intros s Hs; exact Hs|].
  unfold getAllResourcesInAPI. intros s HJ. unfold bind at 1, call.
  destruct (call_api_items E _ (world s)) as [[[status items]|e] w];
    cbn [world trace gauges]; [|exact Logic.I].
  unfold bind at 1, assert.
  destruct (Z.eqb_spec status 200) as [->|Hne]; cbn [ret raise]; [|exact Logic.I].
  match goal with
  | |- context [for_each items ?body ?s1] =>
      pose proof (for_each_ok_identity group version plural kind namespaced items s1) as H;
      cbv zeta in H;
      destruct (for_each items body s1) as [[[]|e] s']; [|exact Logic.I]
  end.
  cbn [fst snd trace] in H. destruct (H eq_refl) as [Hall (evs & -> & Hevs)].
  apply listings_identified_app; [|exact Hevs].
  intros endpoint items' Hin. apply in_app_or in Hin.
  destruct Hin as [Hin | [Hin | []]]; [now apply (HJ endpoint)|].
  now injection Hin as <- <-.
Qed.

Lemma identified_group group version :
  triple Seen
    (getAllResourceKindsInAPI group version (listKind (checkResource add_metrics) group version))
    (fun _ => Seen) Any.
Proof.
  unfold getAllResourceKindsInAPI. intros s HJ. unfold bind at 1, call.
  destruct (call_api_resources E _ (world s)) as [[[status resources]|e] w];
    cbn [world trace gauges]; [|exact Logic.I].
  unfold bind at 1, assert.
  destruct (Z.eqb_spec status 200) as [->|Hne]; cbn [ret raise]; [|exact Logic.I].
  apply (triple_for_each Seen); [intros resource _; apply identified_kind|].
  cbn [trace]. apply listings_identified_app; [exact HJ|].
  repeat constructor. exact id.
Qed.

Lemma identified_checkAllResources :
  triple Seen (checkAllResources add_metrics) (fun _ => Seen) Any.
Proof.
  unfold checkAllResources, getAllResources, getAllAPIs.
  eapply triple_bind; [apply identified_group|]. intros u.
  eapply triple_bind with (Q1 := fun _ => Seen).
  - intros s HJ. unfold call.
    destruct (get_api_versions E (world s)) as [[groups|e] w]; cbn [world trace gauges];
      [|exact Logic.I].
    apply listings_identified_app; [exact HJ|]. repeat constructor. exact id.
  - intros groups. apply triple_for_each. intros api _. apply identified_group.
Qed.

(** X13. A sweep that ends has found its metadata and its name on every
    instance it was given: every listing in its trace was answered with
    status 200, and every instance of every such answer has [metadata] and,
    in it, [name] (lines 93 and 96), suspended or not.  One instance
    without them, in any collection, and the sweep hands out no gauge. *)
Theorem completed_sweep_identified_every_instance (w : World E) (g : Gauges) (s : State E)
    endpoint answer :
  run_sweep w = (Ok g, s) ->
  In (GotItems endpoint answer) (trace s) ->
  exists items,
    answer = Ok (200%Z, items)
    /\ forall resource,
         In resource items ->
         exists meta name, r_metadata resource = Some meta /\ md_name meta = Some name.
Proof.
  intros Hrun Hin.
  pose proof (sweep_failure w) as Hfail. rewrite Hrun in Hfail.
  rewrite List.Forall_forall in Hfail. specialize (Hfail _ Hin).
  destruct answer as [[status items]|e]; cbn in Hfail; [|now destruct Hfail].
  assert (status = 200%Z) as -> by (destruct (Z.eq_dec status 200%Z); [assumption | now destruct Hfail]).
  exists items. split; [reflexivity|].
  assert (Hseen : listings_identified (trace s)).
  { unfold run_sweep, collect in Hrun. unfold bind at 1, set_gauges in Hrun.
    cbn [world trace gauges fresh] in Hrun.
    pose proof (identified_checkAllResources (Build_State E w [] getGauges)) as H.
    cbn [trace] in H. unfold bind, get_gauges in Hrun.
    destruct (checkAllResources add_metrics _) as [[u|e] s']; [|discriminate].
    injection Hrun as _ <-. apply H. intros ? ? []. }
  intros resource Hr. specialize (Hseen _ _ Hin).
  rewrite List.Forall_forall in Hseen. now apply Hseen.
Qed.

(** ** The families a collector hands out (lines 133-166) *)

Lemma header_add_row (g : Gauges) (row : Row) :
  map header (yielded (add_row g row)) = map header (yielded g).
Proof. reflexivity. Qed.

Lemma header_report (rows : list Row) :
  map header (yielded (report rows)) = map header describe.
Proof.
  induction rows as [|row rows IH] using rev_ind; [reflexivity|].
  now rewrite report_snoc, header_add_row.
Qed.

Lemma labels_report (rows : list Row) :
  gm_labels (gAll (report rows)) = LABELS
  /\ gm_labels (gUnowned (report rows)) = LABELS
  /\ gm_labels (gIndefinite (report rows)) = LABELS.
Proof.
  induction rows as [|row rows IH] using rev_ind; [now repeat split|].
  rewrite report_snoc. exact IH.
Qed.

(** X14. [describe] and [collect] agree (lines 136-166): the three
    families a sweep hands out have, in the same order, the names, the
    documentation and the label names of the three families [describe]
    hands out, which have no sample; and every sample of a sweep has as
    many label values as its family has label names, four. *)
Theorem collect_agrees_with_describe (w : World E) (g : Gauges) (s : State E) :
  run_sweep w = (Ok g, s) ->
  map header (yielded g) = map header describe
  /\ Forall (fun f => gm_samples f = [] /\ gm_labels f = LABELS) describe
  /\ Forall (fun f =>
               Forall (fun sample => length sample.1 = length (gm_labels f))
                      (gm_samples f))
            (yielded g).
Proof.
  intros Hrun. destruct (sweep_report w g s Hrun) as (rows & -> & Hrows).
  split; [apply header_report|]. split; [repeat constructor|].
  assert (Hlabels : forall row, In row rows -> length (row_labels row) = 4).
  { intros row Hin. rewrite List.Forall_forall in Hrows.
    destruct (Hrows row Hin) as [_ (meta & namespace & name & _ & _ & _ & -> & _)].
    reflexivity. }
  destruct (labels_report rows) as (H1 & H2 & H3).
  destruct (gm_samples_report rows) as (HA & HU & HI).
  unfold yielded. repeat constructor.
  - rewrite HA, H1. apply List.Forall_forall. intros sample Hin.
    apply in_map_iff in Hin. destruct Hin as (row & <- & Hin). now apply Hlabels.
  - rewrite HU, H2. apply List.Forall_forall. intros sample Hin.
    apply in_map_iff in Hin. destruct Hin as (row & <- & Hin). now apply Hlabels.
  - rewrite HI, H3. apply List.Forall_forall. intros sample Hin.
    apply in_map_iff in Hin. destruct Hin as (row & <- & Hin). now apply Hlabels.
Qed.

End Completed.

(** ** No suspended instance is passed over *)

Section Accounting.

Context {E : Externals}.

(** Lines 112-117 when the comparison with the clock raises. *)
Lemma checkResource_compare_raises
    (yield_ : list string -> bool -> bool -> M E unit)
    (group version plural kind : string) (namespaced : bool) (resource : Resource)
    (meta : Metadata) (namespace name timeout : string)
    (parsed current : datetime E) (w : World E) (e : exn) (s : State E) :
  r_metadata resource = Some meta ->
  identity_of namespaced meta namespace name ->
  annotations_of resource !! RECONCILE_ANNOTATION = Some "disabled" ->
  annotations_of resource !! SUSPEND_UNTIL_ANNOTATION = Some timeout ->
  isoparse E timeout = Ok parsed ->
  datetime_now E (world s) = (current, w) ->
  datetime_lt E parsed current = Raise e ->
  let rname := resource_name group version namespace name in
  let debug := Logged DEBUG ("Resource " +:+ rname +:+ " is suspended") in
  let error :=
    Logged ERROR ("Failed to parse timestamp " +:+ timeout +:+ " on " +:+ rname) in
  checkResource yield_ group version plural kind namespaced resource s
  = match e with
    | ParserError =>
        yield_ [group +:+ "/" +:+ version; kind; namespace; name] false
          (bool_decide (is_Some (annotations_of resource !! SUSPENDED_BY_ANNOTATION)))
          (Build_State E w (trace s ++ [debug; error])%list (gauges s))
    | _ => (Raise e, Build_State E w (trace s ++ [debug])%list (gauges s))
    end.
Proof.
  intros Hmeta Hid Hrec Hto Hparse Hnow Hlt rname debug error. subst rname debug error.
  open_resource resource Hmeta.
  enter_suspended E namespace Hid Hrec.
  rewrite Hto. rewrite (bool_decide_eq_true_2 (is_Some (Some timeout))) by eauto.
  cbn [getitem].
  unfold check_timeout, try_except_ParserError, bind, ret, raise, getitem, lift, log, now.
  cbn [world trace gauges]. rewrite Hparse, Hnow. cbn [world trace gauges]. rewrite Hlt.
  destruct e; cbn [fst snd world trace gauges]; rewrite <- ?app_assoc; reflexivity.
Qed.

Lemma quiet_grows_refl (s : State E) : quiet_grows s s.
Proof. exists [], []. cbn. now rewrite app_nil_r. Qed.

Lemma quiet_grows_trans (s1 s2 s3 : State E) :
  quiet_grows s1 s2 -> quiet_grows s2 s3 -> quiet_grows s1 s3.
Proof.
  intros (evs & rows & Ht & Hq & Hg) (evs' & rows' & Ht' & Hq' & Hg').
  exists (evs ++ evs')%list, (rows ++ rows')%list. split; [|split].
  - now rewrite Ht', Ht, app_assoc.
  - apply Forall_app. now split.
  - now rewrite Hg', Hg, fold_left_app.
Qed.

Lemma samples_fold_left (rows : list Row) (g : Gauges) sample :
  In sample (gm_samples (gAll g)) ->
  In sample (gm_samples (gAll (fold_left add_row rows g))).
Proof.
  revert g. induction rows as [|row rows IH]; intros g Hin; [exact Hin|].
  cbn [fold_left]. apply IH. cbn. apply in_or_app. now left.
Qed.

Lemma accounted_later (x : Listed) (s s' : State E) evs rows :
  accounted x s ->
  trace s' = (trace s ++ evs)%list ->
  gauges s' = fold_left add_row rows (gauges s) ->
  accounted x s'.
Proof.
  intros Hacc Ht Hg meta name Hmeta Hname Hrec.
  destruct (Hacc meta name Hmeta Hname Hrec) as (namespace & Hid & H).
  exists namespace. split; [exact Hid|].
  destruct H as [H | [answer H]].
  - left. rewrite Hg. now apply samples_fold_left.
  - right. exists answer. rewrite Ht. apply in_or_app. now left.
Qed.

Lemma accounted_grows (x : Listed) (s s' : State E) :
  accounted x s -> quiet_grows s s' -> accounted x s'.
Proof.
  intros Hacc (evs & rows & Ht & _ & Hg). now apply (accounted_later x s s' evs rows).
Qed.

Lemma listings_accounted_grows (s s' : State E) :
  listings_accounted s -> quiet_grows s s' -> listings_accounted s'.
Proof.
  intros Hacc Hgrows endpoint items resource Hin Hr.
  pose proof Hgrows as (evs & rows & Ht & Hq & Hg).
  rewrite Ht in Hin. apply in_app_or in Hin. destruct Hin as [Hin | Hin].
  - destruct (Hacc endpoint items resource Hin Hr) as (group & version & kind & Hoff & -> & H).
    exists group, version, kind. split; [|split; [reflexivity|]].
    + rewrite Ht. now apply offered_app.
    + now apply (accounted_grows _ s).
  - rewrite List.Forall_forall in Hq. now destruct (Hq _ Hin).
Qed.

(** One instance: the state grows quietly, and when the body of the loop
    ends the instance is accounted for. *)
Lemma item_grows group version plural kind namespaced resource (s : State E) :
  quiet_grows s
    (checkResource add_metrics group version plural kind namespaced resource s).2.
Proof.
  destruct (datetime_now E (world s)) as [current w] eqn:Hnow.
  pose proof (checkResource_classify group version plural kind namespaced resource s
                current w Hnow) as H.
  cbv zeta in H.
  destruct (classify current group version kind namespaced resource)
    as [[e| |namespace name keys|labels hasTimeout hasOwner] read].
  - destruct H as (_ & _ & Hg & logs & Hlogs & Ht).
    exists logs, []. split; [exact Ht|]. split; [now apply logs_not_listing | exact Hg].
  - rewrite H. apply quiet_grows_refl.
  - destruct H as (_ & _ & Hg & logs & Hlogs & Ht).
    eexists _, []. split; [exact Ht|]. split; [|exact Hg].
    apply Forall_app. split; [now apply logs_not_listing|]. repeat constructor. exact id.
  - destruct H as (_ & _ & Hg & logs & Hlogs & Ht).
    exists logs,
      [Build_Row (Build_Listed group version plural kind namespaced resource)
         labels hasTimeout hasOwner].
    split; [exact Ht|]. split; [now apply logs_not_listing | exact Hg].
Qed.

Lemma item_accounted group version plural kind namespaced resource (s : State E) :
  let run := checkResource add_metrics group version plural kind namespaced resource s in
  run.1 = Ok tt ->
  accounted (Build_Listed group version plural kind namespaced resource) run.2.
Proof.
  cbv zeta. intros Hok meta name Hmeta Hname Hrec.
  cbn [l_group l_version l_plural l_kind l_namespaced l_resource] in *.
  assert (exists namespace, identity_of namespaced meta namespace name) as [namespace Hid].
  { destruct namespaced; [|exists ""; now split].
    destruct (md_namespace meta) as [ns|] eqn:Hns; [exists ns; now split|].
    exfalso. revert Hok. unfold checkResource. rewrite Hmeta. cbn [getitem].
    unfold bind at 1. cbn [ret]. rewrite Hns. cbn [getitem]. unfold bind at 1.
    cbn [raise]. discriminate. }
  exists namespace. split; [exact Hid|].
  pose proof (checkResource_reported group version plural kind namespaced resource
                meta namespace name s Hmeta Hid Hrec) as Hrep.
  cbv zeta in Hrep.
  assert (Hleft : forall w t hasTimeout,
    checkResource add_metrics group version plural kind namespaced resource s
    = (Ok tt,
       Build_State E w t
         (add_row (gauges s)
            (Build_Row (Build_Listed group version plural kind namespaced resource)
               [group +:+ "/" +:+ version; kind; namespace; name] hasTimeout
               (bool_decide (is_Some (annotations_of resource !! SUSPENDED_BY_ANNOTATION))))))
    ->
    In ([group +:+ "/" +:+ version; kind; namespace; name], 1%Z)
       (gm_samples
          (gAll (gauges
             (checkResource add_metrics group version plural kind namespaced resource s).2)))).
  { intros w t hasTimeout ->. cbn. apply in_or_app. right. now left. }
  destruct (annotations_of resource !! SUSPEND_UNTIL_ANNOTATION) as [timeout|] eqn:Hto.
  2:{ left. eapply Hleft. exact Hrep. }
  destruct (isoparse E timeout) as [parsed|e] eqn:Hparse.
  2:{ destruct e; try (rewrite Hrep in Hok; discriminate).
      left. eapply Hleft. exact Hrep. }
  destruct (datetime_now E (world s)) as [current w] eqn:Hnow.
  destruct (datetime_lt E parsed current) as [[|]|e] eqn:Hlt.
  - right.
    pose proof (checkResource_timed_out add_metrics group version plural kind namespaced
                  resource meta namespace name timeout parsed current w s Hmeta Hid Hrec
                  Hto Hparse Hnow Hlt) as Hout.
    cbv zeta in Hout. rewrite Hout. cbn [snd trace]. eexists.
    apply in_or_app. right. right. right. left. reflexivity.
  - left. eapply Hleft. exact (Hrep current w eq_refl Hlt).
  - pose proof (checkResource_compare_raises add_metrics group version plural kind
                  namespaced resource meta namespace name timeout parsed current w e s
                  Hmeta Hid Hrec Hto Hparse Hnow Hlt) as Hraise.
    cbv zeta in Hraise.
    destruct e; try (rewrite Hraise in Hok; discriminate).
    left. rewrite Hraise. cbn. apply in_or_app. right. now left.
Qed.

Lemma for_each_grows group version plural kind namespaced (items : list Resource)
    (s : State E) :
  quiet_grows s
    (for_each items (checkResource add_metrics group version plural kind namespaced) s).2.
Proof.
  revert s. induction items as [|r items IH]; intros s; [apply quiet_grows_refl|].
  cbn [for_each]. unfold bind.
  pose proof (item_grows group version plural kind namespaced r s) as H.
  destruct (checkResource add_metrics group version plural kind namespaced r s)
    as [[[]|e] s1]; cbn [snd] in *; [|exact H].
  apply (quiet_grows_trans s s1); [exact H | apply IH].
Qed.

Lemma for_each_accounted group version plural kind namespaced (items : list Resource)
    (s : State E) :
  let run := for_each items (checkResource add_metrics group version plural kind namespaced) s in
  run.1 = Ok tt ->
  forall resource,
    In resource items ->
    accounted (Build_Listed group version plural kind namespaced resource) run.2.
Proof.
  cbv zeta. revert s. induction items as [|r items IH]; intros s Hok resource Hin;
    [destruct Hin|].
  cbn [for_each] in *. unfold bind in *.
  pose proof (item_accounted group version plural kind namespaced r s) as Hitem.
  cbv zeta in Hitem.
  destruct (checkResource add_metrics group version plural kind namespaced r s)
    as [[[]|e] s1]; cbn [fst snd] in *; [|discriminate].
  destruct Hin as [<- | Hin].
  - apply (accounted_grows _ s1); [now apply Hitem | apply for_each_grows].
  - now apply IH.
Qed.

Local Abbreviation Acc P := (fun s : State E => listings_accounted s /\ P (trace s)).
Local Abbreviation Any := (fun (_ : exn) (_ : State E) => True).

Lemma event_grows (s : State E) (w : World E) (ev : Event) :
  ~ is_listing ev ->
  quiet_grows s (Build_State E w (trace s ++ [ev])%list (gauges s)).
Proof.
  intros Hev. exists [ev], []. cbn. split; [reflexivity|]. split; [|reflexivity].
  now repeat constructor.
Qed.

Lemma accounted_kind (P : list Event -> Prop) group version resources kind :
  monotone P ->
  (forall t, P t ->
     In (GotResources (api_endpoint group version) (Ok (200%Z, resources))) t) ->
  In kind resources ->
  triple (Acc P)
    (listKind (checkResource add_metrics) group version (ar_name kind) (ar_kind kind)
       (ar_verbs kind) (ar_namespaced kind))
    (fun _ => Acc P) Any.
Proof.
  intros HP Hres Hkind. unfold listKind.
  destruct (not_listable (ar_verbs kind)) eqn:Hverbs; [intros s Hs; exact Hs|].
  apply not_listable_false in Hverbs.
  unfold getAllResourcesInAPI. intros s [Hacc HPs]. unfold bind at 1, call.
  destruct (call_api_items E _ (world s)) as [[[status items]|e] w];
    cbn [world trace gauges]; [|exact Logic.I].
  unfold bind at 1, assert.
  destruct (Z.eqb_spec status 200) as [->|Hne]; cbn [ret raise]; [|exact Logic.I].
  match goal with
  | |- context [for_each items ?body ?s1] =>
      pose proof (for_each_grows group version (ar_name kind) (ar_kind kind)
                    (ar_namespaced kind) items s1) as Hgrows;
      pose proof (for_each_accounted group version (ar_name kind) (ar_kind kind)
                    (ar_namespaced kind) items s1) as Hitems;
      cbv zeta in Hitems;
      destruct (for_each items body s1) as [[[]|e] s']; [|exact Logic.I]
  end.
  cbn [fst snd] in *. specialize (Hitems eq_refl).
  pose proof Hgrows as (evs & rows & Ht & Hq & Hg). cbn [trace gauges] in Ht, Hg.
  assert (HP' : P (trace s')).
  { rewrite Ht, <- app_assoc. now apply HP. }
  split; [|exact HP'].
  intros endpoint items' resource Hin Hr.
  rewrite Ht in Hin. apply in_app_or in Hin. destruct Hin as [Hin | Hin].
  2:{ rewrite List.Forall_forall in Hq. now destruct (Hq _ Hin). }
  apply in_app_or in Hin. destruct Hin as [Hin | [Hin | []]].
  - destruct (Hacc endpoint items' resource Hin Hr) as (g & v & k & Hoff & -> & H).
    exists g, v, k. split; [|split; [reflexivity|]].
    + rewrite Ht, <- app_assoc. now apply offered_app.
    + apply (accounted_later _ s s'
               ([GotItems (list_endpoint group version (ar_name kind)) (Ok (200%Z, items))]
                ++ evs)%list rows); [exact H | now rewrite Ht, <- app_assoc | exact Hg].
  - injection Hin as <- <-. exists group, version, kind. split; [|split; [reflexivity|]].
    + exists resources. split; [|now split]. rewrite Ht, <- app_assoc.
      apply in_or_app. left. now apply Hres.
    + now apply Hitems.
Qed.

Lemma accounted_event (P : list Event -> Prop) (s : State E) (w : World E) (ev : Event) :
  monotone P ->
  ~ is_listing ev ->
  Acc P s ->
  Acc P (Build_State E w (trace s ++ [ev])%list (gauges s)).
Proof.
  intros HP Hev [Hacc HPs]. split; [|now apply HP].
  apply (listings_accounted_grows s); [exact Hacc | now apply event_grows].
Qed.

Lemma accounted_group (P : list Event -> Prop) group version :
  monotone P ->
  triple (Acc P)
    (getAllResourceKindsInAPI group version (listKind (checkResource add_metrics) group version))
    (fun _ => Acc P) Any.
Proof.
  intros HP. unfold getAllResourceKindsInAPI. intros s Hs. unfold bind at 1, call.
  destruct (call_api_resources E _ (world s)) as [[[status resources]|e] w];
    cbn [world trace gauges]; [|exact Logic.I].
  unfold bind at 1, assert.
  destruct (Z.eqb_spec status 200) as [->|Hne]; cbn [ret raise]; [|exact Logic.I].
  set (ev := GotResources (api_endpoint group version) (Ok (200%Z, resources))).
  set (P' := fun t => P t /\ In ev t).
  assert (HP' : monotone P') by (apply monotone_and; [exact HP | apply monotone_In]).
  assert (Hloop : triple (Acc P')
            (for_each resources (fun resource =>
               listKind (checkResource add_metrics) group version (ar_name resource)
                 (ar_kind resource) (ar_verbs resource) (ar_namespaced resource)))
            (fun _ => Acc P') Any).
  { apply triple_for_each. intros kind Hkind.
    apply (accounted_kind P' group version resources kind HP'); [|exact Hkind].
    now intros t [_ H]. }
  assert (Hs1 : Acc P' (Build_State E w (trace s ++ [ev])%list (gauges s))).
  { destruct (accounted_event P s w ev HP (fun H => H) Hs) as [Hacc HPs].
    split; [exact Hacc|]. split; [exact HPs|]. apply in_or_app. right. now left. }
  specialize (Hloop _ Hs1).
  match goal with
  | |- match ?run with _ => _ end => destruct run as [[u|e] s']
  end; [|exact Logic.I].
  destruct Hloop as [Hacc [HPs _]]. now split.
Qed.

Lemma accounted_checkAllResources :
  triple (Acc (fun _ => True)) (checkAllResources add_metrics)
    (fun _ => Acc (fun _ => True)) Any.
Proof.
  unfold checkAllResources, getAllResources, getAllAPIs.
  eapply triple_bind; [apply (accounted_group (fun _ => True) _ _ monotone_True)|]. intros u.
  eapply triple_bind with (Q1 := fun _ => Acc (fun _ => True)).
  - intros s Hs. unfold call.
    destruct (get_api_versions E (world s)) as [[groups|e] w]; cbn [world trace gauges];
      [|exact Logic.I].
    exact (accounted_event (fun _ => True) s w (GotApiVersions (Ok groups)) monotone_True
             (fun H => H) Hs).
  - intros groups. apply triple_for_each. intros api _.
    apply (accounted_group (fun _ => True) _ _ monotone_True).
Qed.

(** X16. A sweep that ends has passed over no suspended instance.  Every
    instance of every collection it has listed whose reconcile annotation
    is [disabled] has been dealt with as an instance of a kind that
    discovery offers under the endpoint of that collection: either it has
    a sample with the value 1 in the first gauge, under its API version,
    kind, namespace and name, or the sweep has asked for the removal of its
    annotations, and that request was answered with status 200. *)
Theorem completed_sweep_accounts_for_every_suspended_instance
    (w : World E) (g : Gauges) (s : State E) endpoint items resource meta name :
  run_sweep w = (Ok g, s) ->
  In (GotItems endpoint (Ok (200%Z, items))) (trace s) ->
  In resource items ->
  r_metadata resource = Some meta ->
  md_name meta = Some name ->
  annotations_of resource !! RECONCILE_ANNOTATION = Some "disabled" ->
  exists group version kind namespace,
    offered (trace s) group version kind
    /\ endpoint = list_endpoint group version (ar_name kind)
    /\ identity_of (ar_namespaced kind) meta namespace name
    /\ (In ([group +:+ "/" +:+ version; ar_kind kind; namespace; name], 1%Z)
           (gm_samples (gAll g))
        \/ In (Patched (patch_endpoint group version (ar_name kind) namespace name)
                  patch_headers (patch_body (removal_keys (annotations_of resource)))
                  (Ok 200%Z))
              (trace s)).
Proof.
  intros Hrun Hin Hr Hmeta Hname Hrec.
  pose proof (sweep_failure w) as Hfail. rewrite Hrun in Hfail.
  rewrite List.Forall_forall in Hfail.
  assert (Hacc : listings_accounted s /\ gauges s = g).
  { unfold run_sweep, collect in Hrun. unfold bind at 1, set_gauges in Hrun.
    cbn [world trace gauges fresh] in Hrun.
    pose proof (accounted_checkAllResources (Build_State E w [] getGauges)) as H.
    unfold bind, get_gauges in Hrun.
    destruct (checkAllResources add_metrics _) as [[u|e] s']; [|discriminate].
    injection Hrun as <- <-. split; [|reflexivity]. apply H.
    split; [|exact Logic.I]. intros ? ? ? []. }
  destruct Hacc as [Hacc <-].
  destruct (Hacc endpoint items resource Hin Hr) as (group & version & kind & Hoff & -> & H).
  destruct (H meta name Hmeta Hname Hrec) as (namespace & Hid & Hcase).
  exists group, version, kind, namespace.
  split; [exact Hoff|]. split; [reflexivity|]. split; [exact Hid|].
  destruct Hcase as [Hsample | [answer Hpatch]]; [now left|]. right.
  cbn [l_group l_version l_plural l_resource] in Hpatch.
  pose proof (Hfail _ Hpatch) as Hok. cbn in Hok.
  destruct answer as [status|e]; [|now destruct Hok].
  destruct (Z.eq_dec status 200%Z) as [->|Hne]; [exact Hpatch | now destruct Hok].
Qed.

End Accounting.

(** * The whole sweep *)

(** ** The ledger of a sweep that has ended *)

Section Ledger.

Context {E : Externals}.

(** The readings of the clock taken up to a world: the reading of a call
    to the clock is among them, and no call takes one away. *)
Variable seen : World E -> datetime E -> Prop.

Hypothesis seen_now : forall w, seen (datetime_now E w).2 (datetime_now E w).1.
Hypothesis kept_now : forall w current, seen w current -> seen (datetime_now E w).2 current.
Hypothesis kept_versions :
  forall w current, seen w current -> seen (get_api_versions E w).2 current.
Hypothesis kept_resources :
  forall endpoint w current,
    seen w current -> seen (call_api_resources E endpoint w).2 current.
Hypothesis kept_items :
  forall endpoint w current,
    seen w current -> seen (call_api_items E endpoint w).2 current.
Hypothesis kept_patch :
  forall endpoint headers body w current,
    seen w current -> seen (call_api_patch E endpoint headers body w).2 current.

Lemma rows_of_app (a b : list Entry) : rows_of (a ++ b) = (rows_of a ++ rows_of b)%list.
Proof. apply flat_map_app. Qed.

Lemma removals_of_app (a b : list Entry) :
  removals_of (a ++ b) = (removals_of a ++ removals_of b)%list.
Proof. apply flat_map_app. Qed.

Lemma asked_app (t t' : list Event) : asked (t ++ t') = (asked t ++ asked t')%list.
Proof. apply flat_map_app. Qed.

Lemma discovered_app (t t' : list Event) :
  discovered (t ++ t') = (discovered t ++ discovered t')%list.
Proof. apply flat_map_app. Qed.

Lemma listings_app (t t' : list Event) :
  listings (t ++ t') = (listings t ++ listings t')%list.
Proof. apply flat_map_app. Qed.

Lemma listed_app (t t' : list Event) : listed (t ++ t') = (listed t ++ listed t')%list.
Proof. apply flat_map_app. Qed.

Lemma patches_app (t t' : list Event) :
  patches (t ++ t') = (patches t ++ patches t')%list.
Proof. apply flat_map_app. Qed.

(** Log records and patch requests are no reads. *)
Lemma no_get_projections (evs : list Event) :
  Forall (fun ev => ~ is_get ev) evs ->
  asked evs = [] /\ discovered evs = [] /\ listings evs = [] /\ listed evs = [].
Proof.
  induction 1 as [|ev evs Hev _ (Ha & Hd & Hl & Hi)]; [now repeat split|].
  destruct ev; try (now destruct Hev); cbn; now rewrite ?Ha, ?Hd, ?Hl, ?Hi.
Qed.

Lemma logs_no_get (logs : list Event) :
  Forall is_log logs -> Forall (fun ev => ~ is_get ev) logs.
Proof.
  apply List.Forall_impl. intros ev Hlog Hget. destruct ev; now try destruct Hlog.
Qed.

Lemma logs_no_patches (logs : list Event) : Forall is_log logs -> patches logs = [].
Proof.
  induction 1 as [|ev logs Hev _ IH]; [reflexivity|].
  destruct ev; now try destruct Hev.
Qed.

Lemma found_mono (P Q : datetime E -> Prop) (annotations : gmap string string)
    (o : Outcome) :
  (forall current, P current -> Q current) ->
  found E P annotations o -> found E Q annotations o.
Proof.
  intros HPQ. destruct o as [| |hasTimeout hasOwner]; cbn; [auto| |].
  - intros (Hrec & timeout & parsed & current & Hto & Hparse & Hseen & Hlt).
    split; [exact Hrec|]. exists timeout, parsed, current. auto.
  - intros (Hrec & Hby & Hflag). split; [exact Hrec|]. split; [exact Hby|].
    destruct (annotations !! SUSPEND_UNTIL_ANNOTATION) as [timeout|]; [|exact Hflag].
    destruct (isoparse E timeout) as [parsed|e]; [|exact Hflag].
    destruct Hflag as (current & Hseen & Hlt). exists current. auto.
Qed.

Lemma read_right_mono (P Q : datetime E -> Prop) (e : Entry) :
  (forall current, P current -> Q current) ->
  read_right E P e -> read_right E Q e.
Proof.
  intros HPQ (meta & Hmeta & Hid & Hfound). exists meta.
  split; [exact Hmeta|]. split; [exact Hid|]. now apply (found_mono P Q).
Qed.

Lemma grows_refl (s : State E) : grows seen s s [] [].
Proof. split; [now rewrite app_nil_r|]. now repeat split. Qed.

Lemma grows_trans (s1 s2 s3 : State E) evs evs' entries entries' :
  grows seen s1 s2 evs entries ->
  grows seen s2 s3 evs' entries' ->
  grows seen s1 s3 (evs ++ evs')%list (entries ++ entries')%list.
Proof.
  intros (Ht & Hkept & Hg & Hp & Hok) (Ht' & Hkept' & Hg' & Hp' & Hok').
  split; [now rewrite Ht', Ht, app_assoc|].
  split; [auto|].
  split; [now rewrite Hg', Hg, rows_of_app, fold_left_app|].
  split; [now rewrite patches_app, removals_of_app, Hp, Hp'|].
  apply Forall_app. split; [|exact Hok'].
  revert Hok. apply List.Forall_impl. intros e. now apply read_right_mono.
Qed.

(** What the classifier has read on an instance it lets pass, and on one it
    reports. *)
Lemma classify_Active current group version kind namespaced resource read :
  @classify E current group version kind namespaced resource = (Active, read) ->
  exists meta namespace name,
    r_metadata resource = Some meta
    /\ identity_of namespaced meta namespace name
    /\ annotations_of resource !! RECONCILE_ANNOTATION <> Some "disabled".
Proof.
  unfold classify, annotations_of.
  destruct (r_metadata resource) as [meta|] eqn:Hmeta; [|discriminate].
  destruct (if namespaced then md_namespace meta else Some "") as [ns|] eqn:Hns;
    [|discriminate].
  destruct (md_name meta) as [nm|] eqn:Hname; [|discriminate].
  cbv zeta. unfold is_suspended. case_bool_decide as Hrec; cbn [negb].
  - destruct (default ∅ (md_annotations meta) !! SUSPEND_UNTIL_ANNOTATION)
      as [timeout|]; [|discriminate].
    destruct (isoparse E timeout) as [parsed|e]; [|destruct e; discriminate].
    destruct (datetime_lt E parsed current) as [[|]|e]; try discriminate.
    destruct e; discriminate.
  - intros _. exists meta, ns, nm. split; [reflexivity|]. split; [|exact Hrec].
    split; [|exact Hname]. destruct namespaced; [exact Hns | now injection Hns as <-].
Qed.

Lemma classify_Reported current group version kind namespaced resource
    labels hasTimeout hasOwner read :
  @classify E current group version kind namespaced resource
  = (Reported labels hasTimeout hasOwner, read) ->
  exists meta namespace name,
    r_metadata resource = Some meta
    /\ identity_of namespaced meta namespace name
    /\ annotations_of resource !! RECONCILE_ANNOTATION = Some "disabled"
    /\ labels = [group +:+ "/" +:+ version; kind; namespace; name]
    /\ hasOwner
       = bool_decide (is_Some (annotations_of resource !! SUSPENDED_BY_ANNOTATION))
    /\ match annotations_of resource !! SUSPEND_UNTIL_ANNOTATION with
       | None => hasTimeout = false
       | Some timeout =>
           match isoparse E timeout with
           | Ok parsed =>
               read = true
               /\ datetime_lt E parsed current
                  = (if hasTimeout then Ok false else Raise ParserError)
           | Raise e => hasTimeout = false /\ e = ParserError
           end
       end.
Proof.
  unfold classify, annotations_of.
  destruct (r_metadata resource) as [meta|] eqn:Hmeta; [|discriminate].
  destruct (if namespaced then md_namespace meta else Some "") as [ns|] eqn:Hns;
    [|discriminate].
  destruct (md_name meta) as [nm|] eqn:Hname; [|discriminate].
  cbv zeta. unfold is_suspended. case_bool_decide as Hrec; cbn [negb]; [|discriminate].
  assert (Hid : identity_of namespaced meta ns nm).
  { split; [|exact Hname]. destruct namespaced; [exact Hns | now injection Hns as <-]. }
  destruct (default ∅ (md_annotations meta) !! SUSPEND_UNTIL_ANNOTATION)
    as [timeout|] eqn:Hto.
  2:{ intros [= <- <- <- <-]. exists meta, ns, nm.
      split; [reflexivity|]. split; [exact Hid|]. split; [exact Hrec|].
      repeat split; reflexivity. }
  destruct (isoparse E timeout) as [parsed|e] eqn:Hparse.
  2:{ destruct e; try discriminate.
      intros [= <- <- <- <-]. exists meta, ns, nm.
      split; [reflexivity|]. split; [exact Hid|]. split; [exact Hrec|].
      repeat split; reflexivity. }
  destruct (datetime_lt E parsed current) as [[|]|e] eqn:Hlt; try discriminate.
  - intros [= <- <- <- <-]. exists meta, ns, nm.
      split; [reflexivity|]. split; [exact Hid|]. split; [exact Hrec|].
      repeat split; reflexivity.
  - destruct e; try discriminate.
    intros [= <- <- <- <-]. exists meta, ns, nm.
      split; [reflexivity|]. split; [exact Hid|]. split; [exact Hrec|].
      repeat split; reflexivity.
Qed.

(** One instance the body of the loop does not raise on: its entry. *)
Lemma item_entry group version plural kind namespaced resource (s s' : State E) :
  checkResource add_metrics group version plural kind namespaced resource s = (Ok tt, s') ->
  exists e evs,
    e_instance e = Build_Listed group version plural kind namespaced resource
    /\ grows seen s s' evs [e]
    /\ Forall (fun ev => ~ is_get ev) evs.
Proof.
  intros Hrun.
  destruct (datetime_now E (world s)) as [current w] eqn:Hnow.
  assert (Hseen : seen w current).
  { pose proof (seen_now (world s)) as H. now rewrite Hnow in H. }
  assert (Hkept : forall d, seen (world s) d -> seen w d).
  { intros d Hd. pose proof (kept_now (world s) d Hd) as H. now rewrite Hnow in H. }
  pose proof (checkResource_classify group version plural kind namespaced resource s
                current w Hnow) as H.
  cbv zeta in H. rewrite Hrun in H. cbn [fst snd] in H.
  set (x := Build_Listed group version plural kind namespaced resource).
  destruct (classify current group version kind namespaced resource)
    as [[e| |namespace name keys|labels hasTimeout hasOwner] read] eqn:Hclass.
  - now destruct H.
  - injection H as <-.
    destruct (classify_Active _ _ _ _ _ _ _ Hclass)
      as (meta & namespace & name & Hmeta & Hid & Hrec).
    exists (Build_Entry x namespace name Passed), []. split; [reflexivity|].
    split; [|constructor].
    split; [now rewrite app_nil_r|]. split; [auto|].
    split; [reflexivity|]. split; [reflexivity|].
    repeat constructor. now exists meta.
  - destruct (classify_TimedOut _ _ _ _ _ _ _ _ _ _ Hclass)
      as (meta & timeout & parsed & Hmeta & Hid & Hrec & Hto & Hparse & Hlt & ->).
    destruct H as (Hres & Hworld & Hg & logs & Hlogs & Ht).
    set (endpoint := patch_endpoint group version plural namespace name) in *.
    set (body := patch_body (removal_keys (annotations_of resource))) in *.
    assert (Hpatched : forall d, seen w d -> seen (world s') d).
    { intros d Hd. rewrite Hworld. now apply kept_patch. }
    destruct (call_api_patch E endpoint patch_headers body w) as [answer w'] eqn:Hcall.
    cbn [fst snd] in *.
    assert (Hanswer : answer = Ok 200%Z).
    { destruct answer as [status|e]; [|discriminate].
      destruct (status =? 200)%Z eqn:Hs; [|discriminate].
      apply Z.eqb_eq in Hs. now subst. }
    subst answer.
    exists (Build_Entry x namespace name Removed),
      (logs ++ [Patched endpoint patch_headers body (Ok 200%Z)])%list.
    split; [reflexivity|].
    split.
    + split; [exact Ht|]. split; [auto|].
      split; [exact Hg|]. split.
      { rewrite patches_app, (logs_no_patches logs Hlogs). reflexivity. }
      repeat constructor. exists meta. split; [exact Hmeta|]. split; [exact Hid|].
      split; [exact Hrec|]. exists timeout, parsed, current.
      split; [exact Hto|]. split; [exact Hparse|]. split; [auto | exact Hlt].
    + apply Forall_app. split; [now apply logs_no_get|].
      repeat constructor. exact (fun H => H).
  - destruct (classify_Reported _ _ _ _ _ _ _ _ _ _ Hclass)
      as (meta & namespace & name & Hmeta & Hid & Hrec & -> & -> & Hflag).
    destruct H as (_ & Hworld & Hg & logs & Hlogs & Ht).
    exists (Build_Entry x namespace name
              (Yielded hasTimeout
                 (bool_decide (is_Some (annotations_of resource !! SUSPENDED_BY_ANNOTATION))))),
      logs.
    split; [reflexivity|]. split; [|now apply logs_no_get].
    split; [exact Ht|]. split.
    { rewrite Hworld. destruct read; auto. }
    split; [exact Hg|]. split; [now apply logs_no_patches|].
    repeat constructor. exists meta. split; [exact Hmeta|]. split; [exact Hid|].
    split; [exact Hrec|]. split; [reflexivity|].
    unfold e_annotations. cbn [e_instance x l_resource].
    destruct (annotations_of resource !! SUSPEND_UNTIL_ANNOTATION) as [timeout|];
      [|exact Hflag].
    destruct (isoparse E timeout) as [parsed|e]; [|exact Hflag].
    destruct Hflag as (-> & Hlt). exists current. split; [|exact Hlt].
    now rewrite Hworld.
Qed.

(** The instances of one collection. *)
Lemma items_entries group version plural kind namespaced (items : list Resource)
    (s s' : State E) :
  for_each items (checkResource add_metrics group version plural kind namespaced) s
  = (Ok tt, s') ->
  exists evs entries,
    grows seen s s' evs entries
    /\ Forall (fun ev => ~ is_get ev) evs
    /\ map e_instance entries
       = map (Build_Listed group version plural kind namespaced) items.
Proof.
  revert s. induction items as [|r items IH]; intros s Hrun.
  - injection Hrun as <-. exists [], []. split; [apply grows_refl|]. now split.
  - cbn [for_each] in Hrun. unfold bind in Hrun.
    destruct (checkResource add_metrics group version plural kind namespaced r s)
      as [[[]|e] s1] eqn:Hitem; [|discriminate].
    destruct (item_entry _ _ _ _ _ _ _ _ Hitem) as (e & evs & He & Hgrows & Hq).
    destruct (IH s1 Hrun) as (evs' & entries & Hgrows' & Hq' & Hmap).
    exists (evs ++ evs')%list, ([e] ++ entries)%list.
    split; [now apply (grows_trans s s1 s')|].
    split; [apply Forall_app; now split|].
    cbn. now rewrite He, Hmap.
Qed.

Lemma not_listable_spec (verbs : list string) :
  not_listable verbs = negb (bool_decide ("list" ∈ verbs)).
Proof.
  destruct verbs as [|v verbs]; [|reflexivity].
  cbn. symmetry. apply negb_true_iff, bool_decide_eq_false_2, not_elem_of_nil.
Qed.

Lemma list_endpoint_nest (group version plural : string) :
  list_endpoint group version plural = api_endpoint group version +:+ "/" +:+ plural.
Proof.
  unfold list_endpoint, api_endpoint.
  destruct (PyStr.truthy group); rewrite ?append_assoc; cbn; rewrite ?append_assoc;
    reflexivity.
Qed.

(** [s'] is [s] after [evs], and every instance of [entries] was listed on
    the way. *)
Local Abbreviation covers s s' evs entries :=
  (grows seen s s' evs entries
   /\ listed evs = map locate entries
   /\ Forall (fun e => was_listed (trace s') (e_instance e)) entries).

Lemma covers_refl (s : State E) : covers s s [] [].
Proof. split; [apply grows_refl|]. now split. Qed.

Lemma covers_trans (s1 s2 s3 : State E) evs evs' entries entries' :
  covers s1 s2 evs entries ->
  covers s2 s3 evs' entries' ->
  covers s1 s3 (evs ++ evs')%list (entries ++ entries')%list.
Proof.
  intros (Hgrows & Hlisted & Hwas) (Hgrows' & Hlisted' & Hwas').
  split; [now apply (grows_trans s1 s2 s3)|].
  split; [now rewrite listed_app, map_app, Hlisted, Hlisted'|].
  apply Forall_app. split; [|exact Hwas'].
  destruct Hgrows' as (Ht' & _). rewrite Ht'.
  revert Hwas. apply List.Forall_impl. intros e. apply was_listed_app.
Qed.

(** A call that reads from the cluster. *)
Lemma covers_get (s : State E) (w : World E) (ev : Event) :
  (forall current, seen (world s) current -> seen w current) ->
  is_get ev ->
  grows seen s (Build_State E w (trace s ++ [ev])%list (gauges s)) [ev] [].
Proof.
  intros Hkept Hget. split; [reflexivity|]. split; [exact Hkept|].
  split; [reflexivity|]. split; [|constructor].
  destruct ev; now try destruct Hget.
Qed.

(** One kind (lines 53-56). *)
Lemma kind_entries group version resources kind (s s' : State E) :
  In (GotResources (api_endpoint group version) (Ok (200%Z, resources))) (trace s) ->
  In kind resources ->
  listKind (checkResource add_metrics) group version (ar_name kind) (ar_kind kind)
    (ar_verbs kind) (ar_namespaced kind) s = (Ok tt, s') ->
  exists evs entries,
    covers s s' evs entries
    /\ asked evs = [] /\ discovered evs = []
    /\ listings evs = kinds_listed (api_endpoint group version, [kind]).
Proof.
  intros Hdoc Hkind Hrun.
  unfold kinds_listed. cbn [fst snd flat_map]. rewrite app_nil_r.
  unfold listKind in Hrun. rewrite not_listable_spec in Hrun.
  destruct (bool_decide ("list" ∈ ar_verbs kind)) eqn:Hlist; cbn [negb] in Hrun.
  2:{ injection Hrun as <-. exists [], []. split; [apply covers_refl|]. now repeat split. }
  apply bool_decide_eq_true in Hlist. apply list_elem_of_In in Hlist.
  unfold getAllResourcesInAPI, bind, call in Hrun.
  set (endpoint := list_endpoint group version (ar_name kind)) in *.
  destruct (call_api_items E endpoint (world s)) as [answer w] eqn:Hcall.
  assert (Hw : forall current, seen (world s) current -> seen w current).
  { intros current Hcurrent.
    replace w with (call_api_items E endpoint (world s)).2 by now rewrite Hcall.
    now apply kept_items. }
  destruct answer as [[status items]|e]; [|discriminate].
  unfold assert in Hrun.
  destruct (status =? 200)%Z eqn:Hstatus; [|discriminate].
  apply Z.eqb_eq in Hstatus. subst status. cbn [ret] in Hrun.
  set (ev := GotItems endpoint (Ok (200%Z, items))) in *.
  set (s1 := Build_State E w (trace s ++ [ev])%list (gauges s)) in *.
  destruct (items_entries group version (ar_name kind) (ar_kind kind) (ar_namespaced kind)
              items s1 s' Hrun) as (evs & entries & Hgrows & Hquiet & Hmap).
  destruct (no_get_projections evs Hquiet) as (Ha & Hd & Hl & Hi).
  exists ([ev] ++ evs)%list, ([] ++ entries)%list.
  assert (Htrace : trace s' = (trace s ++ [ev] ++ evs)%list).
  { destruct Hgrows as (Ht & _). rewrite Ht. subst s1. cbn [trace]. now rewrite <- app_assoc. }
  split; [split; [|split]|].
  - apply (grows_trans s s1 s'); [|exact Hgrows]. now apply covers_get.
  - rewrite listed_app, Hi, app_nil_r. cbn [app]. subst ev. cbn.
    rewrite app_nil_r.
    replace (map locate entries)
      with (map (fun x => (list_endpoint (l_group x) (l_version x) (l_plural x),
                           l_resource x)) (map e_instance entries))
      by now rewrite map_map.
    rewrite Hmap, map_map. reflexivity.
  - cbn [app]. rewrite List.Forall_forall. intros e He.
    apply (in_map e_instance) in He. rewrite Hmap in He.
    apply in_map_iff in He. destruct He as (r & <- & Hr).
    split; cbn [l_group l_version l_plural l_kind l_namespaced l_resource].
    + exists resources, (ar_verbs kind). split.
      { rewrite Htrace. apply in_or_app. now left. }
      split; [now destruct kind | exact Hlist].
    + exists items. split; [|exact Hr].
      rewrite Htrace. apply in_or_app. right. now left.
  - rewrite asked_app, discovered_app, listings_app, Ha, Hd, Hl.
    subst ev endpoint. cbn. rewrite list_endpoint_nest. now repeat split.
Qed.

(** The kinds of one discovery document, in order. *)
Lemma kinds_entries group version resources (kinds : list APIResource) :
  forall s s' : State E,
  In (GotResources (api_endpoint group version) (Ok (200%Z, resources))) (trace s) ->
  (forall kind, In kind kinds -> In kind resources) ->
  for_each kinds
    (fun resource =>
       listKind (checkResource add_metrics) group version (ar_name resource)
         (ar_kind resource) (ar_verbs resource) (ar_namespaced resource)) s
  = (Ok tt, s') ->
  exists evs entries,
    covers s s' evs entries
    /\ asked evs = [] /\ discovered evs = []
    /\ listings evs = kinds_listed (api_endpoint group version, kinds).
Proof.
  induction kinds as [|kind kinds IH]; intros s s' Hdoc Hsub Hrun.
  - injection Hrun as <-. exists [], []. split; [apply covers_refl|]. now repeat split.
  - cbn [for_each] in Hrun. unfold bind in Hrun.
    destruct (listKind (checkResource add_metrics) group version (ar_name kind)
                (ar_kind kind) (ar_verbs kind) (ar_namespaced kind) s)
      as [[[]|e] s1] eqn:Hkind; [|discriminate].
    destruct (kind_entries group version resources kind s s1 Hdoc
                (Hsub kind (or_introl eq_refl)) Hkind)
      as (evs & entries & Hcov & Ha & Hd & Hl).
    assert (Hdoc1 : In (GotResources (api_endpoint group version) (Ok (200%Z, resources)))
                       (trace s1)).
    { destruct Hcov as ((Ht & _) & _). rewrite Ht. apply in_or_app. now left. }
    destruct (IH s1 s' Hdoc1 (fun k Hk => Hsub k (or_intror Hk)) Hrun)
      as (evs' & entries' & Hcov' & Ha' & Hd' & Hl').
    exists (evs ++ evs')%list, (entries ++ entries')%list.
    split; [now apply (covers_trans s s1 s')|].
    rewrite asked_app, discovered_app, listings_app, Ha, Ha', Hd, Hd', Hl, Hl'.
    repeat split. unfold kinds_listed. cbn [fst snd flat_map]. now rewrite app_nil_r.
Qed.

(** One group (lines 31-38 and 52-56). *)
Lemma group_entries group version (s s' : State E) :
  getAllResourceKindsInAPI group version (listKind (checkResource add_metrics) group version) s
  = (Ok tt, s') ->
  exists resources evs entries,
    covers s s' evs entries
    /\ asked evs = []
    /\ discovered evs = [(api_endpoint group version, resources)]
    /\ listings evs = kinds_listed (api_endpoint group version, resources).
Proof.
  intros Hrun.
  unfold getAllResourceKindsInAPI, bind, call in Hrun.
  set (endpoint := api_endpoint group version) in *.
  destruct (call_api_resources E endpoint (world s)) as [answer w] eqn:Hcall.
  assert (Hw : forall current, seen (world s) current -> seen w current).
  { intros current Hcurrent.
    replace w with (call_api_resources E endpoint (world s)).2 by now rewrite Hcall.
    now apply kept_resources. }
  destruct answer as [[status resources]|e]; [|discriminate].
  unfold assert in Hrun.
  destruct (status =? 200)%Z eqn:Hstatus; [|discriminate].
  apply Z.eqb_eq in Hstatus. subst status. cbn [ret] in Hrun.
  set (ev := GotResources endpoint (Ok (200%Z, resources))) in *.
  set (s1 := Build_State E w (trace s ++ [ev])%list (gauges s)) in *.
  destruct (kinds_entries group version resources resources s1 s') as
    (evs & entries & Hcov & Ha & Hd & Hl); [| auto | exact Hrun |].
  { subst s1. cbn [trace]. apply in_or_app. right. now left. }
  exists resources, ([ev] ++ evs)%list, ([] ++ entries)%list.
  split.
  - apply (covers_trans s s1 s'); [|exact Hcov].
    split; [now apply covers_get|]. now split.
  - rewrite asked_app, discovered_app, listings_app, Ha, Hd, Hl. now repeat split.
Qed.

(** The groups [get_api_versions] names, in order. *)
Lemma groups_entries (groups : list ApiGroup) :
  forall s s' : State E,
  for_each groups
    (fun api =>
       getAllResourceKindsInAPI (api_name api) (api_preferred_version api)
         (listKind (checkResource add_metrics) (api_name api) (api_preferred_version api))) s
  = (Ok tt, s') ->
  exists evs entries,
    covers s s' evs entries
    /\ asked evs = []
    /\ map fst (discovered evs)
       = map (fun api => api_endpoint (api_name api) (api_preferred_version api)) groups
    /\ listings evs = flat_map kinds_listed (discovered evs).
Proof.
  induction groups as [|api groups IH]; intros s s' Hrun.
  - injection Hrun as <-. exists [], []. split; [apply covers_refl|]. now repeat split.
  - cbn [for_each] in Hrun. unfold bind in Hrun.
    destruct (getAllResourceKindsInAPI (api_name api) (api_preferred_version api)
                (listKind (checkResource add_metrics) (api_name api)
                   (api_preferred_version api)) s)
      as [[[]|e] s1] eqn:Hgroup; [|discriminate].
    destruct (group_entries _ _ s s1 Hgroup)
      as (resources & evs & entries & Hcov & Ha & Hd & Hl).
    destruct (IH s1 s' Hrun) as (evs' & entries' & Hcov' & Ha' & Hd' & Hl').
    exists (evs ++ evs')%list, (entries ++ entries')%list.
    split; [now apply (covers_trans s s1 s')|].
    rewrite asked_app, discovered_app, listings_app, Ha, Ha', Hd, Hl, Hl'.
    split; [reflexivity|]. split.
    + cbn [app map fst]. now rewrite Hd'.
    + reflexivity.
Qed.

(** Lines 25-28 and 50-56: the core group, then the named groups. *)
Lemma checkAllResources_entries (s s' : State E) :
  checkAllResources add_metrics s = (Ok tt, s') ->
  exists groups evs entries,
    covers s s' evs entries
    /\ asked evs = [Ok groups]
    /\ map fst (discovered evs)
       = api_endpoint "" "v1"
         :: map (fun api => api_endpoint (api_name api) (api_preferred_version api)) groups
    /\ listings evs = flat_map kinds_listed (discovered evs).
Proof.
  intros Hrun.
  unfold checkAllResources, getAllResources, getAllAPIs in Hrun.
  unfold bind at 1 in Hrun.
  destruct (getAllResourceKindsInAPI "" "v1" (listKind (checkResource add_metrics) "" "v1") s)
    as [[[]|e] s1] eqn:Hcore; [|discriminate].
  destruct (group_entries _ _ s s1 Hcore)
    as (resources & evs & entries & Hcov & Ha & Hd & Hl).
  unfold bind, call in Hrun.
  destruct (get_api_versions E (world s1)) as [answer w] eqn:Hcall.
  assert (Hw : forall current, seen (world s1) current -> seen w current).
  { intros current Hcurrent.
    replace w with (get_api_versions E (world s1)).2 by now rewrite Hcall.
    now apply kept_versions. }
  destruct answer as [groups|e]; [|discriminate].
  set (ev := GotApiVersions (Ok groups)) in *.
  set (s2 := Build_State E w (trace s1 ++ [ev])%list (gauges s1)) in *.
  destruct (groups_entries groups s2 s' Hrun)
    as (evs' & entries' & Hcov' & Ha' & Hd' & Hl').
  exists groups, (evs ++ [ev] ++ evs')%list, (entries ++ [] ++ entries')%list.
  split.
  - apply (covers_trans s s1 s'); [exact Hcov|].
    apply (covers_trans s1 s2 s'); [|exact Hcov'].
    split; [now apply covers_get|]. now split.
  - rewrite !asked_app, !discovered_app, !listings_app, Ha, Ha', Hd, Hl, Hl'.
    subst ev. cbn [asked discovered listings flat_map app].
    split; [reflexivity|]. split.
    + cbn [map fst]. now rewrite Hd'.
    + reflexivity.
Qed.

(** A sweep that has ended has a ledger, with the readings its last world
    has seen. *)
Lemma collect_ledger (w : World E) (g : Gauges) (s : State E) :
  run_sweep w = (Ok g, s) ->
  exists groups entries, ledger E (seen (world s)) g (trace s) groups entries.
Proof.
  unfold run_sweep, collect, bind, set_gauges, get_gauges, fresh. cbn [world trace gauges].
  set (s0 := Build_State E w [] getGauges).
  destruct (checkAllResources add_metrics s0) as [[[]|e] s1] eqn:Hrun; [|discriminate].
  intros [= <- <-].
  destruct (checkAllResources_entries s0 s1 Hrun)
    as (groups & evs & entries & ((Ht & _ & Hg & Hp & Hok) & Hlisted & Hwas) & Ha & Hd & Hl).
  cbn [trace gauges s0 app] in Ht, Hg.
  exists groups, entries. rewrite Ht.
  repeat (split; [assumption|]).
  rewrite List.Forall_forall in *. intros e He. split; auto.
  specialize (Hwas e He). now rewrite Ht in Hwas.
Qed.

End Ledger.

(** ** The script over externals that note the readings of the clock

    The script does over [noting E] what it does over [E]: the same result,
    the same trace, the same gauges and the same world of [E]. *)

Section Noting.

Context {E : Externals}.

Local Abbreviation NE := (noting E).

Lemma same_ret {A} (a : A) : same (@ret E A a) (@ret NE A a).
Proof. intros s s' Hs. cbn. repeat split; try apply Hs. exists []. now rewrite app_nil_r. Qed.

Lemma same_raise {A} (e : exn) : same (@raise E A e) (@raise NE A e).
Proof. intros s s' Hs. cbn. repeat split; try apply Hs. exists []. now rewrite app_nil_r. Qed.

Lemma same_bind {A B} (m : M E A) (m' : M NE A) (f : A -> M E B) (f' : A -> M NE B) :
  same m m' -> (forall a, same (f a) (f' a)) -> same (bind m f) (bind m' f').
Proof.
  intros Hm Hf s s' Hs. unfold bind.
  destruct (Hm s s' Hs) as (Hres & Hnoted & more & Hmore).
  destruct (m s) as [[a|e] s1], (m' s') as [[a'|e'] s1']; cbn [fst snd] in *;
    try discriminate.
  - injection Hres as ->.
    destruct (Hf a s1 s1' Hnoted) as (Hres' & Hnoted' & more' & Hmore').
    split; [exact Hres'|]. split; [exact Hnoted'|].
    exists (more ++ more')%list. now rewrite Hmore', Hmore, app_assoc.
  - injection Hres as ->. split; [reflexivity|]. split; [exact Hnoted|]. now exists more.
Qed.

Lemma same_try {A} (m : M E A) (m' : M NE A) (h : M E A) (h' : M NE A) :
  same m m' -> same h h' ->
  same (try_except_ParserError m h) (try_except_ParserError m' h').
Proof.
  intros Hm Hh s s' Hs. unfold try_except_ParserError.
  destruct (Hm s s' Hs) as (Hres & Hnoted & more & Hmore).
  destruct (m s) as [[a|e] s1], (m' s') as [[a'|e'] s1']; cbn [fst snd] in *;
    try discriminate.
  - split; [exact Hres|]. split; [exact Hnoted|]. now exists more.
  - injection Hres as ->.
    destruct e; try (split; [reflexivity|]; split; [exact Hnoted|]; now exists more).
    destruct (Hh s1 s1' Hnoted) as (Hres' & Hnoted' & more' & Hmore').
    split; [exact Hres'|]. split; [exact Hnoted'|].
    exists (more ++ more')%list. now rewrite Hmore', Hmore, app_assoc.
Qed.

Lemma same_for_each {X} (xs : list X) (body : X -> M E unit) (body' : X -> M NE unit) :
  (forall x, same (body x) (body' x)) -> same (for_each xs body) (for_each xs body').
Proof.
  intros Hbody. induction xs as [|x xs IH]; cbn [for_each].
  - apply same_ret.
  - apply same_bind; [apply Hbody | intros _; exact IH].
Qed.

Lemma same_assert (b : bool) : same (@assert E b) (@assert NE b).
Proof. destruct b; [apply same_ret | apply same_raise]. Qed.

Lemma same_getitem {A} (key : string) (field : option A) :
  same (@getitem E A key field) (@getitem NE A key field).
Proof. destruct field; [apply same_ret | apply same_raise]. Qed.

Lemma same_lift {A} (r : Result A) : same (@lift E A r) (@lift NE A r).
Proof. intros s s' Hs. cbn. repeat split; try apply Hs. exists []. now rewrite app_nil_r. Qed.

Lemma same_log (level : LogLevel) (message : string) :
  same (@log E level message) (@log NE level message).
Proof.
  intros s s' (Hw & Ht & Hg). cbn. rewrite Ht. repeat split; try assumption.
  exists []. now rewrite app_nil_r.
Qed.

Lemma same_set_gauges (g : Gauges) : same (@set_gauges E g) (@set_gauges NE g).
Proof.
  intros s s' (Hw & Ht & Hg). cbn. repeat split; try assumption.
  exists []. now rewrite app_nil_r.
Qed.

Lemma same_get_gauges : same (@get_gauges E) (@get_gauges NE).
Proof.
  intros s s' (Hw & Ht & Hg). cbn. rewrite Hg. repeat split; try assumption.
  exists []. now rewrite app_nil_r.
Qed.

Lemma same_add_metrics (labels : list string) (hasTimeout hasOwner : bool) :
  same (@add_metrics E labels hasTimeout hasOwner) (@add_metrics NE labels hasTimeout hasOwner).
Proof.
  intros s s' (Hw & Ht & Hg). cbn. rewrite Hg. repeat split; try assumption.
  exists []. now rewrite app_nil_r.
Qed.

Lemma same_now : same (@now E) (@now NE).
Proof.
  intros s s' (Hw & Ht & Hg). unfold now. cbn [datetime_now noting]. rewrite Hw.
  destruct (datetime_now E (world s)) as [current w]. cbn.
  repeat split; try assumption. now exists [current].
Qed.

Lemma same_get_api_versions :
  same (call (get_api_versions E) GotApiVersions) (call (get_api_versions NE) GotApiVersions).
Proof.
  intros s s' (Hw & Ht & Hg). unfold call. cbn [get_api_versions noting]. rewrite Hw.
  destruct (get_api_versions E (world s)) as [answer w]. cbn. rewrite Ht.
  repeat split; try assumption. exists []. now rewrite app_nil_r.
Qed.

Lemma same_call_api_resources (endpoint : string) :
  same (call (call_api_resources E endpoint) (GotResources endpoint))
       (call (call_api_resources NE endpoint) (GotResources endpoint)).
Proof.
  intros s s' (Hw & Ht & Hg). unfold call. cbn [call_api_resources noting]. rewrite Hw.
  destruct (call_api_resources E endpoint (world s)) as [answer w]. cbn. rewrite Ht.
  repeat split; try assumption. exists []. now rewrite app_nil_r.
Qed.

Lemma same_call_api_items (endpoint : string) :
  same (call (call_api_items E endpoint) (GotItems endpoint))
       (call (call_api_items NE endpoint) (GotItems endpoint)).
Proof.
  intros s s' (Hw & Ht & Hg). unfold call. cbn [call_api_items noting]. rewrite Hw.
  destruct (call_api_items E endpoint (world s)) as [answer w]. cbn. rewrite Ht.
  repeat split; try assumption. exists []. now rewrite app_nil_r.
Qed.

Lemma same_call_api_patch (endpoint : string) (headers : list (string * string))
    (body : list PatchOp) :
  same (call (call_api_patch E endpoint headers body) (Patched endpoint headers body))
       (call (call_api_patch NE endpoint headers body) (Patched endpoint headers body)).
Proof.
  intros s s' (Hw & Ht & Hg). unfold call. cbn [call_api_patch noting]. rewrite Hw.
  destruct (call_api_patch E endpoint headers body (world s)) as [answer w]. cbn. rewrite Ht.
  repeat split; try assumption. exists []. now rewrite app_nil_r.
Qed.

(** The parts of the script, from the inside out. *)

Lemma same_check_timeout (timeout resourceName : string) :
  same (@check_timeout E timeout resourceName) (@check_timeout NE timeout resourceName).
Proof.
  unfold check_timeout. apply same_try.
  - apply same_bind; [apply same_lift | intros parsed].
    apply same_bind; [apply same_now | intros current].
    apply same_bind; [apply same_lift | intros timedOut]. apply same_ret.
  - apply same_bind; [apply same_log | intros _]. apply same_ret.
Qed.

Lemma same_removeResourceAnnotation group version plural namespace name annotations :
  same (@removeResourceAnnotation E group version plural namespace name annotations)
       (@removeResourceAnnotation NE group version plural namespace name annotations).
Proof.
  unfold removeResourceAnnotation.
  apply same_bind; [apply same_call_api_patch | intros status]. apply same_assert.
Qed.

Lemma same_checkResource group version plural kind namespaced resource :
  same (checkResource (E:=E) add_metrics group version plural kind namespaced resource)
       (checkResource (E:=NE) add_metrics group version plural kind namespaced resource).
Proof.
  unfold checkResource.
  apply same_bind; [apply same_getitem | intros meta].
  apply same_bind; [destruct namespaced; [apply same_getitem | apply same_ret] | intros namespace].
  apply same_bind; [apply same_getitem | intros name]. cbv zeta.
  destruct (negb (is_suspended (default ∅ (md_annotations meta)))); [apply same_ret|].
  apply same_bind; [apply same_log | intros _].
  apply same_bind.
  - destruct (bool_decide (is_Some (default ∅ (md_annotations meta) !! SUSPEND_UNTIL_ANNOTATION)));
      [|apply same_ret].
    apply same_bind; [apply same_getitem | intros timeout].
    apply same_bind; [apply same_check_timeout | intros [timedOut hasTimeout]].
    destruct timedOut; [|apply same_ret].
    apply same_bind; [apply same_log | intros _].
    apply same_bind; [apply same_removeResourceAnnotation | intros _]. apply same_ret.
  - intros [removed hasTimeout]. destruct removed; [apply same_ret|].
    apply same_bind; [destruct namespaced; [apply same_getitem | apply same_ret] | intros ?].
    apply same_bind; [apply same_getitem | intros ?]. apply same_add_metrics.
Qed.

Lemma same_checkAllResources :
  same (checkAllResources (E:=E) add_metrics) (checkAllResources (E:=NE) add_metrics).
Proof.
  unfold checkAllResources, getAllResources, getAllAPIs.
  assert (Hgroup : forall group version,
    same (getAllResourceKindsInAPI (E:=E) group version
            (listKind (checkResource add_metrics) group version))
         (getAllResourceKindsInAPI (E:=NE) group version
            (listKind (checkResource add_metrics) group version))).
  { intros group version. unfold getAllResourceKindsInAPI.
    apply same_bind; [apply same_call_api_resources | intros [status resources]].
    apply same_bind; [apply same_assert | intros _].
    apply same_for_each. intros kind. unfold listKind.
    destruct (not_listable (ar_verbs kind)); [apply same_ret|].
    unfold getAllResourcesInAPI.
    apply same_bind; [apply same_call_api_items | intros [status' items]].
    apply same_bind; [apply same_assert | intros _].
    apply same_for_each. intros resource. apply same_checkResource. }
  apply same_bind; [apply Hgroup | intros _].
  apply same_bind; [apply same_get_api_versions | intros groups].
  apply same_for_each. intros api. apply Hgroup.
Qed.

Lemma same_collect : same (@collect E) (@collect NE).
Proof.
  unfold collect.
  apply same_bind; [apply same_set_gauges | intros _].
  apply same_bind; [apply same_checkAllResources | intros _]. apply same_get_gauges.
Qed.

(** A sweep over [noting E] is the sweep over [E], with its readings. *)
Lemma noting_run_sweep (w : World E) :
  (@run_sweep NE (w, [])).1 = (run_sweep w).1
  /\ noted (run_sweep w).2 (@run_sweep NE (w, [])).2.
Proof.
  destruct (same_collect (fresh w) (@fresh NE (w, []))) as (Hres & Hnoted & _);
    [now repeat split | now split].
Qed.

(** The readings [noting E] has noted up to a world. *)
Local Abbreviation noted_in := (fun (w : World NE) (current : datetime E) => In current w.2).

(** A sweep that has ended has a ledger, with the readings of the clock it
    has taken. *)
Lemma sweep_ledger (w : World E) (g : Gauges) (s : State E) :
  run_sweep w = (Ok g, s) ->
  exists groups entries,
    ledger E (fun current => In current (readings w)) g (trace s) groups entries.
Proof.
  intros Hrun. destruct (noting_run_sweep w) as (Hres & _ & Ht & _).
  rewrite Hrun in Hres, Ht. cbn [fst snd] in Hres, Ht.
  assert (Hrun' : @run_sweep NE (w, []) = (Ok g, (@run_sweep NE (w, [])).2)).
  { destruct (@run_sweep NE (w, [])) as [res s']. cbn in *. now subst. }
  destruct (@collect_ledger NE noted_in) with (w := (w, @nil (datetime E))) (g := g)
    (s := (@run_sweep NE (w, [])).2) as (groups & entries & Hledger).
  - intros w'. cbn [datetime_now noting].
    destruct (datetime_now E w'.1) as [current w'']. cbn. apply in_or_app. right. now left.
  - intros w' current Hin. cbn [datetime_now noting].
    destruct (datetime_now E w'.1) as [current' w'']. cbn. apply in_or_app. now left.
  - intros w' current Hin. cbn [get_api_versions noting].
    now destruct (get_api_versions E w'.1).
  - intros endpoint w' current Hin. cbn [call_api_resources noting].
    now destruct (call_api_resources E endpoint w'.1).
  - intros endpoint w' current Hin. cbn [call_api_items noting].
    now destruct (call_api_items E endpoint w'.1).
  - intros endpoint headers body w' current Hin. cbn [call_api_patch noting].
    now destruct (call_api_patch E endpoint headers body w'.1).
  - exact Hrun'.
  - exists groups, entries. rewrite <- Ht. exact Hledger.
Qed.

End Noting.

(** ** The calls of any sweep, ended or not *)

Section Enumeration.

Context {E : Externals}.

Local Abbreviation endpoint_of :=
  (fun api : ApiGroup => api_endpoint (api_name api) (api_preferred_version api)).

(** The collections listed are the first of those the documents read
    offer with the verb [list]. *)
Local Abbreviation in_order evs :=
  (listings evs `prefix_of` flat_map kinds_listed (discovered evs)).

Lemma named_app (t t' : list Event) : named (t ++ t') = (named t ++ named t')%list.
Proof. unfold named. now rewrite asked_app, flat_map_app. Qed.

(** A group the sweep gets through: its document is read and the
    collections it offers with the verb [list] are listed, all of them. *)
Lemma group_through group version (s s' : State E) :
  getAllResourceKindsInAPI group version (listKind (checkResource add_metrics) group version) s
  = (Ok tt, s') ->
  exists resources evs,
    trace s' = (trace s ++ evs)%list
    /\ discovered evs = [(api_endpoint group version, resources)]
    /\ listings evs = kinds_listed (api_endpoint group version, resources).
Proof.
  intros Hrun.
  destruct (@group_entries E (fun _ _ => True)) with (group := group) (version := version)
    (s := s) (s' := s') as (resources & evs & entries & ((Ht & _) & _) & _ & Hd & Hl); auto.
  now exists resources, evs.
Qed.

Lemma items_calls group version plural kind namespaced (items : list Resource) :
  forall s : State E,
  exists evs,
    trace (for_each items (checkResource add_metrics group version plural kind namespaced) s).2
    = (trace s ++ evs)%list
    /\ Forall (fun ev => ~ is_get ev) evs.
Proof.
  induction items as [|r items IH]; intros s.
  - exists []. cbn. now rewrite app_nil_r.
  - cbn [for_each]. unfold bind.
    destruct (checkResource_events (Build_Listed group version plural kind namespaced r) s)
      as (evs & Ht & Hevs).
    cbn [l_group l_version l_plural l_kind l_namespaced l_resource] in Ht.
    assert (Hquiet : Forall (fun ev => ~ is_get ev) evs).
    { destruct Hevs as [Hlogs | (namespace & name & answer & _ & ->)].
      - now apply logs_no_get.
      - repeat constructor; exact (fun H => H). }
    destruct (checkResource add_metrics group version plural kind namespaced r s)
      as [[[]|e] s1]; cbn [snd] in *.
    + destruct (IH s1) as (evs' & Ht' & Hquiet').
      exists (evs ++ evs')%list. split; [now rewrite Ht', Ht, app_assoc|].
      apply Forall_app. now split.
    + now exists evs.
Qed.

(** One kind: its collection is listed exactly when its verbs contain
    [list], whatever comes of it. *)
Lemma kind_calls group version kind (s : State E) :
  exists evs,
    trace (listKind (checkResource add_metrics) group version (ar_name kind) (ar_kind kind)
             (ar_verbs kind) (ar_namespaced kind) s).2 = (trace s ++ evs)%list
    /\ asked evs = [] /\ discovered evs = []
    /\ listings evs = kinds_listed (api_endpoint group version, [kind]).
Proof.
  unfold kinds_listed. cbn [fst snd flat_map]. rewrite app_nil_r.
  unfold listKind. rewrite not_listable_spec.
  destruct (bool_decide ("list" ∈ ar_verbs kind)); cbn [negb].
  2:{ exists []. cbn. now rewrite app_nil_r. }
  unfold getAllResourcesInAPI, bind, call.
  rewrite <- list_endpoint_nest.
  set (endpoint := list_endpoint group version (ar_name kind)).
  destruct (call_api_items E endpoint (world s)) as [answer w].
  set (ev := GotItems endpoint answer).
  assert (Hev : asked [ev] = [] /\ discovered [ev] = [] /\ listings [ev] = [endpoint])
    by now repeat split.
  destruct answer as [[status items]|e]; [|now exists [ev]].
  unfold assert. destruct (status =? 200)%Z; [|now exists [ev]].
  cbn [ret].
  destruct (items_calls group version (ar_name kind) (ar_kind kind) (ar_namespaced kind) items
              (Build_State E w (trace s ++ [ev])%list (gauges s)))
    as (evs & Ht & Hquiet).
  destruct (no_get_projections evs Hquiet) as (Ha & Hd & Hl & _).
  exists ([ev] ++ evs)%list. split.
  { transitivity ((trace s ++ [ev]) ++ evs)%list; [exact Ht | now rewrite <- app_assoc]. }
  rewrite asked_app, discovered_app, listings_app, Ha, Hd, Hl.
  destruct Hev as (-> & -> & ->). now repeat split.
Qed.

(** The kinds of one document: the collections listed are the first of
    those to list. *)
Lemma kinds_calls group version (kinds : list APIResource) :
  forall s : State E,
  exists evs,
    trace (for_each kinds
             (fun resource =>
                listKind (checkResource add_metrics) group version (ar_name resource)
                  (ar_kind resource) (ar_verbs resource) (ar_namespaced resource)) s).2
    = (trace s ++ evs)%list
    /\ asked evs = [] /\ discovered evs = []
    /\ listings evs `prefix_of` kinds_listed (api_endpoint group version, kinds).
Proof.
  induction kinds as [|kind kinds IH]; intros s.
  - exists []. cbn. now rewrite app_nil_r.
  - cbn [for_each]. unfold bind.
    destruct (kind_calls group version kind s) as (evs & Ht & Ha & Hd & Hl).
    assert (Hsplit : kinds_listed (api_endpoint group version, kind :: kinds)
                     = (kinds_listed (api_endpoint group version, [kind])
                        ++ kinds_listed (api_endpoint group version, kinds))%list).
    { unfold kinds_listed. cbn [fst snd flat_map]. now rewrite app_nil_r. }
    destruct (listKind (checkResource add_metrics) group version (ar_name kind)
                (ar_kind kind) (ar_verbs kind) (ar_namespaced kind) s)
      as [[[]|e] s1]; cbn [snd] in *.
    + destruct (IH s1) as (evs' & Ht' & Ha' & Hd' & Hl').
      exists (evs ++ evs')%list. split; [now rewrite Ht', Ht, app_assoc|].
      rewrite asked_app, discovered_app, listings_app, Ha, Ha', Hd, Hd', Hl, Hsplit.
      repeat split. now apply prefix_app.
    + exists evs. rewrite Ha, Hd, Hl, Hsplit. repeat split; [exact Ht|].
      now apply prefix_app_r.
Qed.

(** One group. *)
Lemma group_calls group version (s : State E) :
  exists evs,
    trace (getAllResourceKindsInAPI group version
             (listKind (checkResource add_metrics) group version) s).2
    = (trace s ++ evs)%list
    /\ asked evs = []
    /\ map fst (discovered evs) `prefix_of` [api_endpoint group version]
    /\ in_order evs.
Proof.
  unfold getAllResourceKindsInAPI, bind, call.
  set (endpoint := api_endpoint group version).
  destruct (call_api_resources E endpoint (world s)) as [answer w].
  set (ev := GotResources endpoint answer).
  destruct answer as [[status resources]|e].
  2:{ exists [ev]. cbn. repeat split; now eexists. }
  unfold assert. destruct (status =? 200)%Z eqn:Hstatus.
  2:{ exists [ev]. cbn. rewrite Hstatus. cbn. repeat split; now eexists. }
  cbn [ret].
  destruct (kinds_calls group version resources
              (Build_State E w (trace s ++ [ev])%list (gauges s)))
    as (evs & Ht & Ha & Hd & Hl).
  exists ([ev] ++ evs)%list. split.
  { transitivity ((trace s ++ [ev]) ++ evs)%list; [exact Ht | now rewrite <- app_assoc]. }
  rewrite asked_app, discovered_app, listings_app, Ha, Hd.
  subst ev. cbn. rewrite Hstatus. cbn. rewrite app_nil_r. now repeat split.
Qed.

(** The groups named, in order. *)
Lemma groups_calls (groups : list ApiGroup) :
  forall s : State E,
  exists evs,
    trace (for_each groups
             (fun api =>
                getAllResourceKindsInAPI (api_name api) (api_preferred_version api)
                  (listKind (checkResource add_metrics) (api_name api)
                     (api_preferred_version api))) s).2
    = (trace s ++ evs)%list
    /\ asked evs = []
    /\ map fst (discovered evs) `prefix_of` map endpoint_of groups
    /\ in_order evs.
Proof.
  induction groups as [|api groups IH]; intros s.
  - exists []. cbn. rewrite app_nil_r. now repeat split.
  - cbn [for_each]. unfold bind.
    destruct (group_calls (api_name api) (api_preferred_version api) s)
      as (evs & Ht & Ha & Hd & Hl).
    destruct (getAllResourceKindsInAPI (api_name api) (api_preferred_version api)
                (listKind (checkResource add_metrics) (api_name api)
                   (api_preferred_version api)) s)
      as [[[]|e] s1] eqn:Hgroup; cbn [snd] in *.
    + destruct (group_through _ _ s s1 Hgroup) as (resources & evs0 & Ht0 & Hd0 & Hl0).
      rewrite Ht in Ht0. apply app_inv_head in Ht0. subst evs0.
      destruct (IH s1) as (evs' & Ht' & Ha' & Hd' & Hl').
      exists (evs ++ evs')%list. split; [now rewrite Ht', Ht, app_assoc|].
      rewrite asked_app, discovered_app, listings_app, Ha, Ha', Hd0, Hl0.
      split; [reflexivity|]. cbn [app map fst flat_map]. split.
      * now apply (prefix_app [_]).
      * now apply prefix_app.
    + exists evs. split; [exact Ht|]. split; [exact Ha|]. split; [|exact Hl].
      cbn [map]. destruct Hd as [k Hk]. destruct (map fst (discovered evs)) as [|d ds].
      * now eexists.
      * destruct ds; [|destruct ds; discriminate]. injection Hk as <-.
        now apply (prefix_app_r [_] [_]).
Qed.

(** Any sweep: the discovery documents read are the first of those of the
    core group and of the groups named, and the collections listed are the
    first of those these documents offer with the verb [list]. *)
Lemma sweep_calls (w : World E) :
  let t := trace (run_sweep w).2 in
  map fst (discovered t) `prefix_of` (api_endpoint "" "v1" :: map endpoint_of (named t))
  /\ in_order t.
Proof.
  cbv zeta.
  unfold run_sweep, collect, bind, set_gauges, get_gauges, fresh. cbn [world trace gauges].
  set (s0 := Build_State E w [] getGauges).
  assert (H : exists evs,
    trace (checkAllResources add_metrics s0).2 = (trace s0 ++ evs)%list
    /\ map fst (discovered evs)
       `prefix_of` (api_endpoint "" "v1" :: map endpoint_of (named evs))
    /\ in_order evs).
  { generalize s0. intros s.
    unfold checkAllResources, getAllResources, getAllAPIs. unfold bind at 1.
    destruct (group_calls "" "v1" s) as (evs & Ht & Ha & Hd & Hl).
    destruct (getAllResourceKindsInAPI "" "v1" (listKind (checkResource add_metrics) "" "v1") s)
      as [[[]|e] s1] eqn:Hcore; cbn [snd] in *.
    2:{ exists evs. split; [exact Ht|]. split; [|exact Hl].
        unfold named. rewrite Ha. cbn [flat_map map]. exact Hd. }
    destruct (group_through _ _ s s1 Hcore) as (resources & evs0 & Ht0 & Hd0 & Hl0).
    rewrite Ht in Ht0. apply app_inv_head in Ht0. subst evs0.
    unfold bind, call.
    destruct (get_api_versions E (world s1)) as [answer w1].
    set (ev := GotApiVersions answer).
    destruct answer as [groups|e].
    2:{ exists (evs ++ [ev])%list. cbn [snd trace]. split; [now rewrite Ht, app_assoc|].
        unfold named.
        rewrite asked_app, discovered_app, listings_app, Ha, Hd0, Hl0. cbn.
        split; [reflexivity|]. now rewrite app_nil_r. }
    destruct (groups_calls groups (Build_State E w1 (trace s1 ++ [ev])%list (gauges s1)))
      as (evs' & Ht' & Ha' & Hd' & Hl').
    exists (evs ++ [ev] ++ evs')%list.
    split; [rewrite Ht'; cbn [trace]; now rewrite Ht, <- !app_assoc|].
    unfold named.
    rewrite !asked_app, !discovered_app, !listings_app, Ha, Ha', Hd0, Hl0.
    subst ev. cbn [asked discovered listings flat_map app map fst].
    rewrite app_nil_r. split.
    - now apply (prefix_app [_]).
    - now apply prefix_app. }
  destruct H as (evs & Ht & Hd & Hl). cbn [trace s0 app] in Ht.
  destruct (checkAllResources add_metrics s0) as [[[]|e] s1]; cbn [snd] in *;
    rewrite Ht; now split.
Qed.

End Enumeration.

(** ** The claims about the whole sweep *)

Section SweepClaims.

Context {E : Externals}.

Lemma lookup_map {A B} (f : A -> B) (l : list A) (i : nat) (x : A) :
  l !! i = Some x -> map f l !! i = Some (f x).
Proof.
  revert i. induction l as [|y l IH]; intros [|i] H; try discriminate.
  - now injection H as ->.
  - now apply IH.
Qed.

Lemma removal_keys_spec (annotations : gmap string string) (key : string) :
  In key (removal_keys annotations)
  <-> key = RECONCILE_ANNOTATION
      \/ key = SUSPEND_UNTIL_ANNOTATION
      \/ (key = SUSPENDED_BY_ANNOTATION
          /\ is_Some (annotations !! SUSPENDED_BY_ANNOTATION)).
Proof.
  unfold removal_keys. case_bool_decide as Hby; cbn [app In]; split.
  - intros [<- | [<- | [<- | []]]]; auto.
  - intros [-> | [-> | [-> _]]]; auto.
  - intros [<- | [<- | []]]; auto.
  - intros [-> | [-> | [_ Hsome]]]; auto; now destruct Hby.
Qed.

(** What became of an entry whose timestamp every reading of the clock
    finds past, and of one whose timestamp no reading finds past. *)
Lemma found_past (seen : datetime E -> Prop) (annotations : gmap string string)
    (o : Outcome) (timeout : string) (parsed : datetime E) :
  found E seen annotations o ->
  annotations !! RECONCILE_ANNOTATION = Some "disabled" ->
  annotations !! SUSPEND_UNTIL_ANNOTATION = Some timeout ->
  isoparse E timeout = Ok parsed ->
  (forall current, seen current -> datetime_lt E parsed current = Ok true) ->
  o = Removed.
Proof.
  intros Hfound Hrec Hto Hparse Hpast. destruct o as [| |hasTimeout hasOwner]; cbn in Hfound.
  - now destruct Hfound.
  - reflexivity.
  - destruct Hfound as (_ & _ & Hflag). rewrite Hto, Hparse in Hflag.
    destruct Hflag as (current & Hseen & Hlt). rewrite (Hpast current Hseen) in Hlt.
    destruct hasTimeout; discriminate.
Qed.

Lemma found_ahead (seen : datetime E -> Prop) (annotations : gmap string string)
    (o : Outcome) (timeout : string) (parsed : datetime E) :
  found E seen annotations o ->
  annotations !! RECONCILE_ANNOTATION = Some "disabled" ->
  annotations !! SUSPEND_UNTIL_ANNOTATION = Some timeout ->
  isoparse E timeout = Ok parsed ->
  (forall current, seen current -> datetime_lt E parsed current = Ok false) ->
  o = Yielded true (bool_decide (is_Some (annotations !! SUSPENDED_BY_ANNOTATION))).
Proof.
  intros Hfound Hrec Hto Hparse Hahead. destruct o as [| |hasTimeout hasOwner]; cbn in Hfound.
  - now destruct Hfound.
  - destruct Hfound as (_ & timeout' & parsed' & current & Hto' & Hparse' & Hseen & Hlt).
    rewrite Hto in Hto'. injection Hto' as <-. rewrite Hparse in Hparse'.
    injection Hparse' as <-. rewrite (Hahead current Hseen) in Hlt. discriminate.
  - destruct Hfound as (_ & -> & Hflag). rewrite Hto, Hparse in Hflag.
    destruct Hflag as (current & Hseen & Hlt). rewrite (Hahead current Hseen) in Hlt.
    destruct hasTimeout; [reflexivity | discriminate].
Qed.

(** C2, as the script has it.  In a sweep that ends, the instances the
    loop was handed are those of the collections listed, in order, one
    entry each; the patch requests of the sweep are those of the entries
    that were removed, one each, in order, all answered with status 200;
    and the samples are those of the entries that were yielded.  An entry
    whose reconcile key is [disabled] and whose suspend-until annotation
    parses to a datetime that the comparison finds before every reading of
    the clock the sweep takes has been removed: it has its one request,
    whose body names the reconcile and the suspend-until key, and the
    suspended-by key exactly when the instance has it, and it has no row in
    the gauges. *)
Theorem timed_out_removed (w : World E) (g : Gauges) (s : State E) :
  run_sweep w = (Ok g, s) ->
  exists entries,
    listed (trace s) = map locate entries
    /\ Forall (entry_ok E (fun current => In current (readings w)) (trace s)) entries
    /\ patches (trace s) = removals_of entries
    /\ g = report (rows_of entries)
    /\ forall e timeout parsed,
         In e entries ->
         e_annotations e !! RECONCILE_ANNOTATION = Some "disabled" ->
         e_annotations e !! SUSPEND_UNTIL_ANNOTATION = Some timeout ->
         isoparse E timeout = Ok parsed ->
         (forall current, In current (readings w) ->
                          datetime_lt E parsed current = Ok true) ->
         e_outcome e = Removed
         /\ removals_of [e] = [(e_request e, Ok 200%Z)]
         /\ rows_of [e] = []
         /\ In (e_request e, Ok 200%Z) (patches (trace s))
         /\ forall key,
              In {| op := "remove"; path := annotation_path key |} (e_request e).2
              <-> key = RECONCILE_ANNOTATION
                  \/ key = SUSPEND_UNTIL_ANNOTATION
                  \/ (key = SUSPENDED_BY_ANNOTATION
                      /\ is_Some (e_annotations e !! SUSPENDED_BY_ANNOTATION)).
Proof.
  intros Hrun.
  destruct (sweep_ledger w g s Hrun)
    as (groups & entries & _ & _ & _ & Hlisted & Hpatches & Hg & Hok).
  exists entries. repeat (split; [assumption|]).
  intros e timeout parsed He Hrec Hto Hparse Hpast.
  rewrite List.Forall_forall in Hok. destruct (Hok e He) as (_ & meta & _ & _ & Hfound).
  pose proof (found_past _ _ _ timeout parsed Hfound Hrec Hto Hparse Hpast) as Hout.
  split; [exact Hout|].
  unfold removals_of, rows_of. cbn [flat_map]. rewrite Hout.
  split; [reflexivity|]. split; [reflexivity|]. split.
  { rewrite Hpatches. unfold removals_of. apply in_flat_map. exists e.
    split; [exact He|]. rewrite Hout. now left. }
  intros key. rewrite <- removal_keys_spec. unfold e_request, patch_body. cbn [snd].
  rewrite in_map_iff. split.
  - intros (key' & Heq & Hin). apply (f_equal path) in Heq. cbn [path] in Heq.
    apply annotation_path_inj in Heq. now subst.
  - intros Hin. now exists key.
Qed.

(** C7, as the script has it.  In a sweep that ends, the three gauges hold
    one sample each for the same rows, those of the entries that were
    yielded, in order: the same labels, the value 1 in the first gauge, 1 in
    the second exactly when the instance listed has no suspended-by
    annotation, and 1 in the third exactly when it was yielded without a
    timeout.  An entry
    whose reconcile key is [disabled], which has no suspended-by annotation,
    and whose suspend-until annotation parses to a datetime that the
    comparison finds before no reading of the clock the sweep takes, has
    been yielded with a timeout and without an owner: at one position the
    three gauges hold its labels with the values 1, 1 and 0. *)
Theorem gauge_values (w : World E) (g : Gauges) (s : State E) :
  run_sweep w = (Ok g, s) ->
  exists entries,
    listed (trace s) = map locate entries
    /\ Forall (entry_ok E (fun current => In current (readings w)) (trace s)) entries
    /\ gm_samples (gAll g) = map (fun row => (row_labels row, 1%Z)) (rows_of entries)
    /\ gm_samples (gUnowned g)
       = map (fun row => (row_labels row, if row_hasOwner row then 0%Z else 1%Z))
           (rows_of entries)
    /\ gm_samples (gIndefinite g)
       = map (fun row => (row_labels row, if row_hasTimeout row then 0%Z else 1%Z))
           (rows_of entries)
    /\ forall e timeout parsed,
         In e entries ->
         e_annotations e !! RECONCILE_ANNOTATION = Some "disabled" ->
         e_annotations e !! SUSPEND_UNTIL_ANNOTATION = Some timeout ->
         e_annotations e !! SUSPENDED_BY_ANNOTATION = None ->
         isoparse E timeout = Ok parsed ->
         (forall current, In current (readings w) ->
                          datetime_lt E parsed current = Ok false) ->
         e_outcome e = Yielded true false
         /\ exists i : nat,
              gm_samples (gAll g) !! i = Some (e_labels e, 1%Z)
              /\ gm_samples (gUnowned g) !! i = Some (e_labels e, 1%Z)
              /\ gm_samples (gIndefinite g) !! i = Some (e_labels e, 0%Z).
Proof.
  intros Hrun.
  destruct (sweep_ledger w g s Hrun)
    as (groups & entries & _ & _ & _ & Hlisted & _ & -> & Hok).
  destruct (gm_samples_report (rows_of entries)) as (HA & HU & HI).
  exists entries. repeat (split; [assumption|]).
  intros e timeout parsed He Hrec Hto Hby Hparse Hahead.
  rewrite List.Forall_forall in Hok. destruct (Hok e He) as (_ & meta & _ & _ & Hfound).
  pose proof (found_ahead _ _ _ timeout parsed Hfound Hrec Hto Hparse Hahead) as Hout.
  rewrite Hby in Hout.
  rewrite (bool_decide_eq_false_2 (is_Some None)) in Hout by (intros [? ?]; discriminate).
  split; [exact Hout|].
  set (row := {| row_instance := e_instance e; row_labels := e_labels e;
                 row_hasTimeout := true; row_hasOwner := false |}).
  assert (Hrow : In row (rows_of entries)).
  { unfold rows_of. apply in_flat_map. exists e. split; [exact He|].
    rewrite Hout. now left. }
  apply list_elem_of_In, list_elem_of_lookup_1 in Hrow. destruct Hrow as [i Hi].
  exists i. rewrite HA, HU, HI.
  split; [|split].
  - exact (lookup_map (fun row => (row_labels row, 1%Z)) _ i row Hi).
  - exact (lookup_map
             (fun row => (row_labels row, if row_hasOwner row then 0%Z else 1%Z)) _ i row Hi).
  - exact (lookup_map
             (fun row => (row_labels row, if row_hasTimeout row then 0%Z else 1%Z))
             _ i row Hi).
Qed.

(** C9.  In every sweep the first call is the discovery of the core group
    [("", "v1")].  The discovery documents read are, in this order, that of
    the core group and then those of the groups [get_api_versions] named,
    each under its preferred version, in the order of the answer; the
    collections listed are, in order, those of the kinds of these documents
    whose verbs contain [list], and no other.  A sweep that an exception
    ends has got through the first of these documents and collections; in a
    sweep that ends without one no call has failed, [get_api_versions] was
    asked once, every one of these documents was read and every one of
    these collections listed, and the instances of these collections have
    all been handed to the classifier, one entry each, in order. *)
Theorem enumeration_order (w : World E) :
  (exists r rest, trace (run_sweep w).2 = GotResources (api_endpoint "" "v1") r :: rest)
  /\ map fst (discovered (trace (run_sweep w).2))
     `prefix_of`
     (api_endpoint "" "v1"
      :: map (fun api => api_endpoint (api_name api) (api_preferred_version api))
           (named (trace (run_sweep w).2)))
  /\ listings (trace (run_sweep w).2)
     `prefix_of` flat_map kinds_listed (discovered (trace (run_sweep w).2))
  /\ forall g s,
       run_sweep w = (Ok g, s) ->
       Forall (fun ev => ~ failed ev) (trace s)
       /\ exists groups entries,
            asked (trace s) = [Ok groups]
            /\ map fst (discovered (trace s))
               = api_endpoint "" "v1"
                 :: map (fun api => api_endpoint (api_name api) (api_preferred_version api))
                      groups
            /\ listings (trace s) = flat_map kinds_listed (discovered (trace s))
            /\ listed (trace s) = map locate entries
            /\ Forall (entry_ok E (fun current => In current (readings w)) (trace s)) entries.
Proof.
  split; [apply sweep_discovery|].
  destruct (sweep_calls w) as (Hd & Hl). split; [exact Hd|]. split; [exact Hl|].
  intros g s Hrun. split.
  - pose proof (sweep_failure w) as H. now rewrite Hrun in H.
  - destruct (sweep_ledger w g s Hrun)
      as (groups & entries & Ha & Hd' & Hl' & Hlisted & _ & _ & Hok).
    now exists groups, entries.
Qed.

End SweepClaims.

(** ** The further properties on the clusters of the examples *)

Lemma distinct_keys_distinct_paths_witness :
  let keys := [RECONCILE_ANNOTATION; SUSPEND_UNTIL_ANNOTATION; SUSPENDED_BY_ANNOTATION] in
  List.NoDup keys
  /\ List.NoDup (map path (patch_body keys))
  /\ map path (patch_body keys) = map annotation_path keys.
Proof.
  intros keys.
  assert (Hkeys : List.NoDup keys).
  { repeat (constructor; [cbn; intuition discriminate|]). constructor. }
  split; [exact Hkeys|].
  destruct distinct_keys_distinct_paths as [_ H].
  destruct (H keys Hkeys) as (Hpaths & _ & Hmap). now split.
Defined.

Lemma missing_metadata_or_name_raises_witness :
  let s := Demo.start (Demo.cluster ∅ Demo.noon) in
  (r_metadata Cases.bare = None
   /\ r_metadata Cases.nameless = Some Cases.nameless_meta
   /\ md_name Cases.nameless_meta = None
   /\ ~ has_identity Cases.nameless)
  /\ Demo.check Cases.bare s = (Raise (KeyError "metadata"), s)
  /\ Demo.check Cases.nameless s = (Raise (KeyError "name"), s)
  /\ exists key,
       for_each [Cases.nameless; Demo.myapp Demo.suspended_only] Demo.check s
       = (Raise (KeyError key), s).
Proof.
  intros s.
  assert (Hnot : ~ has_identity Cases.nameless).
  { intros (meta & name & Hmeta & Hname). injection Hmeta as <-. discriminate. }
  split; [now repeat split|].
  destruct (@missing_metadata_or_name_raises Demo.externals add_metrics
              "apps" "v1" "helmreleases" "HelmRelease" true Cases.bare [] [] s)
    as (Hbare & _ & _).
  destruct (@missing_metadata_or_name_raises Demo.externals add_metrics
              "apps" "v1" "helmreleases" "HelmRelease" true Cases.nameless
              [] [Demo.myapp Demo.suspended_only] s)
    as (_ & Hname & Hloop).
  split; [exact (Hbare eq_refl)|]. split.
  - apply (Hname Cases.nameless_meta eq_refl); [|reflexivity].
    intros _. now exists "apps".
  - exact (Hloop s Hnot eq_refl).
Defined.

Lemma no_timeout_is_indefinite_witness :
  let resource := Demo.myapp Demo.suspended_only in
  let c := Demo.cluster Demo.suspended_only Demo.noon in
  (annotations_of resource !! RECONCILE_ANNOTATION = Some "disabled"
   /\ annotations_of resource !! SUSPEND_UNTIL_ANNOTATION = None)
  /\ (Demo.check resource (Demo.start c)).1 = Ok tt
  /\ world (Demo.check resource (Demo.start c)).2 = c
  /\ gm_samples (gIndefinite (gauges (Demo.check resource (Demo.start c)).2))
     = [(Demo.myapp_labels, 1%Z)].
Proof.
  intros resource c.
  assert (Hrec : annotations_of resource !! RECONCILE_ANNOTATION = Some "disabled")
    by (vm_compute; reflexivity).
  assert (Hto : annotations_of resource !! SUSPEND_UNTIL_ANNOTATION = None)
    by (vm_compute; reflexivity).
  split; [now split|].
  pose proof (@no_timeout_is_indefinite Demo.externals
                "apps" "v1" "helmreleases" "HelmRelease" true resource
                (Demo.myapp_meta Demo.suspended_only) "apps" "myapp"
                (Demo.start c) eq_refl (conj eq_refl eq_refl) Hrec Hto) as H.
  cbv zeta in H. destruct H as (Hok & Hworld & _ & _ & _ & Hindefinite).
  split; [exact Hok|]. split; [exact Hworld | exact Hindefinite].
Defined.

Lemma other_exceptions_end_the_loop_witness :
  let bad := Demo.myapp (Demo.suspended_until "next week") in
  let aware := Demo.myapp (Demo.suspended_until "2024-06-01T11:59:50Z") in
  let rest := [Demo.myapp Demo.suspended_only] in
  let s := @fresh Cases.externals (Cases.cluster ∅) in
  (isoparse Cases.externals "next week" = Raise (OtherError "ValueError")
   /\ isoparse Cases.externals "2024-06-01T11:59:50Z" = Ok (20240601115950%Z, true)
   /\ datetime_lt Cases.externals (20240601115950%Z, true)
        (datetime_now Cases.externals (world s)).1
      = Raise (OtherError "TypeError"))
  /\ (for_each (bad :: rest) Cases.check s).1 = Raise (OtherError "ValueError")
  /\ (for_each (aware :: rest) Cases.check s).1 = Raise (OtherError "TypeError").
Proof.
  intros bad aware rest s.
  assert (Hbad : isoparse Cases.externals "next week" = Raise (OtherError "ValueError"))
    by (vm_compute; reflexivity).
  assert (Haware : isoparse Cases.externals "2024-06-01T11:59:50Z"
                   = Ok (20240601115950%Z, true)) by (vm_compute; reflexivity).
  assert (Hlt : datetime_lt Cases.externals (20240601115950%Z, true)
                  (datetime_now Cases.externals (world s)).1
                = Raise (OtherError "TypeError")) by (vm_compute; reflexivity).
  split; [now repeat split|].
  assert (Hne1 : OtherError "ValueError" <> ParserError) by discriminate.
  assert (Hne2 : OtherError "TypeError" <> ParserError) by discriminate.
  assert (Hrec1 : annotations_of bad !! RECONCILE_ANNOTATION = Some "disabled")
    by (vm_compute; reflexivity).
  assert (Hto1 : annotations_of bad !! SUSPEND_UNTIL_ANNOTATION = Some "next week")
    by (vm_compute; reflexivity).
  assert (Hrec2 : annotations_of aware !! RECONCILE_ANNOTATION = Some "disabled")
    by (vm_compute; reflexivity).
  assert (Hto2 : annotations_of aware !! SUSPEND_UNTIL_ANNOTATION
                 = Some "2024-06-01T11:59:50Z") by (vm_compute; reflexivity).
  pose proof (@other_exceptions_end_the_loop Cases.externals add_metrics
                "apps" "v1" "helmreleases" "HelmRelease" true bad
                (Demo.myapp_meta (Demo.suspended_until "next week")) "apps" "myapp"
                "next week" (OtherError "ValueError") rest s
                eq_refl (conj eq_refl eq_refl) Hrec1 Hto1 Hne1) as H1.
  pose proof (@other_exceptions_end_the_loop Cases.externals add_metrics
                "apps" "v1" "helmreleases" "HelmRelease" true aware
                (Demo.myapp_meta (Demo.suspended_until "2024-06-01T11:59:50Z"))
                "apps" "myapp" "2024-06-01T11:59:50Z" (OtherError "TypeError") rest s
                eq_refl (conj eq_refl eq_refl) Hrec2 Hto2 Hne2) as H2.
  cbv zeta in H1, H2. destruct H1 as [H1 _]. destruct H2 as [_ H2].
  split.
  - exact (f_equal fst (H1 Hbad)).
  - exact (f_equal fst (H2 _ Haware Hlt)).
Defined.

Lemma only_the_view_counts_witness :
  let mine := Demo.suspended_by_until "alice" "2024-06-01T11:59:50" in
  let theirs := <["team" := "payments"]> (Demo.suspended_by_until "" "2024-06-01T11:59:50") in
  let s := Demo.start (Demo.cluster mine Demo.noon) in
  view (Demo.myapp_meta mine) = view (Demo.myapp_meta theirs)
  /\ Demo.check (Demo.myapp mine) s = Demo.check (Demo.myapp theirs) s.
Proof.
  intros mine theirs s.
  assert (Hview : view (Demo.myapp_meta mine) = view (Demo.myapp_meta theirs))
    by (vm_compute; reflexivity).
  split; [exact Hview|].
  exact (@only_the_view_counts Demo.externals add_metrics
           "apps" "v1" "helmreleases" "HelmRelease" true _ _ s Hview).
Defined.


Lemma lists_only_offered_kinds_witness :
  let c := Demo.cluster Demo.suspended_only Demo.noon in
  let answer := Ok (200%Z, [Demo.myapp Demo.suspended_only]) in
  In (GotItems "/apis/apps/v1/helmreleases" answer) (Cluster.sweep_trace Demo.time c)
  /\ exists group version resources resource,
       In (GotResources (api_endpoint group version) (Ok (200%Z, resources)))
          (Cluster.sweep_trace Demo.time c)
       /\ In resource resources
       /\ In "list" (ar_verbs resource)
       /\ "/apis/apps/v1/helmreleases" = list_endpoint group version (ar_name resource).
Proof.
  intros c answer.
  assert (Hin : In (GotItems "/apis/apps/v1/helmreleases" answer)
                   (trace (@run_sweep Demo.externals c).2)).
  { vm_compute. repeat (first [left; reflexivity | right]). }
  split; [exact Hin|].
  exact (@lists_only_offered_kinds Demo.externals c _ _ Hin).
Defined.

Lemma discovers_core_then_named_groups_witness :
  let c := Demo.cluster Demo.suspended_only Demo.noon in
  let groups := [{| api_name := "apps"; api_preferred_version := "v1" |}] in
  In (GotApiVersions (Ok groups)) (Cluster.sweep_trace Demo.time c)
  /\ (exists resources,
        In (GotResources "/api/v1" (Ok (200%Z, resources))) (Cluster.sweep_trace Demo.time c))
  /\ exists r rest, Cluster.sweep_trace Demo.time c = GotResources "/api/v1" r :: rest.
Proof.
  intros c groups.
  assert (Hin : In (GotApiVersions (Ok groups)) (trace (@run_sweep Demo.externals c).2)).
  { vm_compute. repeat (first [left; reflexivity | right]). }
  split; [exact Hin|].
  destruct (@discovers_core_then_named_groups Demo.externals c) as (Hfirst & Hcore & _).
  split; [exact (Hcore _ Hin) | exact Hfirst].
Defined.

Lemma failed_discovery_ends_sweep_witness :
  let ev := GotResources "/apis/apps/v1" (Ok (404%Z, [])) in
  (In ev (Cluster.sweep_trace Demo.time Cases.undiscovered)
   /\ forall resources : list APIResource, Ok (404%Z, []) <> Ok (200%Z, resources))
  /\ (Cluster.sweep Demo.time Cases.undiscovered).1 = Raise AssertionError.
Proof.
  intros ev.
  assert (Hin : In ev (trace (@run_sweep Demo.externals Cases.undiscovered).2)).
  { vm_compute. repeat (first [left; reflexivity | right]). }
  assert (Hne : forall resources : list APIResource,
             Ok (404%Z, @nil APIResource) <> Ok (200%Z, resources))
    by (intros; discriminate).
  split; [now split|].
  destruct (@failed_discovery_ends_sweep Demo.externals Cases.undiscovered _ _ Hin Hne)
    as [Hres _].
  unfold Cluster.sweep. now destruct (@run_sweep Demo.externals Cases.undiscovered).
Defined.

Lemma failed_get_api_versions_ends_sweep_witness :
  let ev := GotApiVersions (Raise (OtherError "ApiException")) in
  In ev (Cluster.sweep_trace Demo.time Cases.groupless)
  /\ (Cluster.sweep Demo.time Cases.groupless).1 = Raise (OtherError "ApiException")
  /\ last (Cluster.sweep_trace Demo.time Cases.groupless) = Some ev.
Proof.
  intros ev.
  assert (Hin : In ev (trace (@run_sweep Demo.externals Cases.groupless).2)).
  { vm_compute. repeat (first [left; reflexivity | right]). }
  split; [exact Hin|].
  destruct (@failed_get_api_versions_ends_sweep Demo.externals Cases.groupless _ Hin)
    as [Hres (t & Htrace & _)].
  split.
  - unfold Cluster.sweep. now destruct (@run_sweep Demo.externals Cases.groupless).
  - change (Cluster.sweep_trace Demo.time Cases.groupless)
      with (trace (@run_sweep Demo.externals Cases.groupless).2).
    rewrite Htrace. apply last_snoc.
Defined.

Lemma completed_sweep_identified_every_instance_witness :
  let c := Demo.cluster Demo.suspended_only Demo.noon in
  let answer := Ok (200%Z, [Demo.myapp Demo.suspended_only]) in
  ((exists g, (@run_sweep Demo.externals c).1 = Ok g)
   /\ In (GotItems "/apis/apps/v1/helmreleases" answer) (Cluster.sweep_trace Demo.time c))
  /\ exists items,
       answer = Ok (200%Z, items)
       /\ forall resource,
            In resource items ->
            exists meta name, r_metadata resource = Some meta /\ md_name meta = Some name.
Proof.
  intros c answer.
  set (g := match (@run_sweep Demo.externals c).1 with
            | Ok g => g
            | Raise _ => getGauges
            end).
  assert (Hok : (@run_sweep Demo.externals c).1 = Ok g) by (vm_compute; reflexivity).
  assert (Hin : In (GotItems "/apis/apps/v1/helmreleases" answer)
                   (trace (@run_sweep Demo.externals c).2)).
  { vm_compute. repeat (first [left; reflexivity | right]). }
  split; [split; [now exists g | exact Hin]|].
  exact (@completed_sweep_identified_every_instance Demo.externals c g _ _ _
           (@run_sweep_eta Demo.externals c g Hok) Hin).
Defined.

Lemma collect_agrees_with_describe_witness :
  let c := Demo.cluster Demo.suspended_only Demo.noon in
  exists g,
    (@run_sweep Demo.externals c).1 = Ok g
    /\ map header (yielded g) = map header describe
    /\ map gm_samples (yielded g)
       = [[(Demo.myapp_labels, 1%Z)]; [(Demo.myapp_labels, 1%Z)]; [(Demo.myapp_labels, 1%Z)]].
Proof.
  intros c.
  set (g := match (@run_sweep Demo.externals c).1 with
            | Ok g => g
            | Raise _ => getGauges
            end).
  assert (Hok : (@run_sweep Demo.externals c).1 = Ok g) by (vm_compute; reflexivity).
  exists g. split; [exact Hok|].
  destruct (@collect_agrees_with_describe Demo.externals c g _ (@run_sweep_eta Demo.externals c g Hok))
    as (Hheader & _ & _).
  split; [exact Hheader|]. vm_compute. reflexivity.
Defined.

Lemma completed_sweep_accounts_for_every_suspended_instance_witness :
  let c := Demo.cluster Demo.suspended_only Demo.noon in
  let resource := Demo.myapp Demo.suspended_only in
  ((exists g, (@run_sweep Demo.externals c).1 = Ok g)
   /\ In (GotItems "/apis/apps/v1/helmreleases" (Ok (200%Z, [resource])))
        (Cluster.sweep_trace Demo.time c)
   /\ annotations_of resource !! RECONCILE_ANNOTATION = Some "disabled")
  /\ exists g group version kind namespace,
       (@run_sweep Demo.externals c).1 = Ok g
       /\ "/apis/apps/v1/helmreleases" = list_endpoint group version (ar_name kind)
       /\ (In ([group +:+ "/" +:+ version; ar_kind kind; namespace; "myapp"], 1%Z)
              (gm_samples (gAll g))
           \/ In (Patched (patch_endpoint group version (ar_name kind) namespace "myapp")
                     patch_headers (patch_body (removal_keys (annotations_of resource)))
                     (Ok 200%Z))
                 (Cluster.sweep_trace Demo.time c)).
Proof.
  intros c resource.
  set (g := match (@run_sweep Demo.externals c).1 with
            | Ok g => g
            | Raise _ => getGauges
            end).
  assert (Hok : (@run_sweep Demo.externals c).1 = Ok g) by (vm_compute; reflexivity).
  assert (Hin : In (GotItems "/apis/apps/v1/helmreleases" (Ok (200%Z, [resource])))
                   (trace (@run_sweep Demo.externals c).2)).
  { vm_compute. repeat (first [left; reflexivity | right]). }
  assert (Hrec : annotations_of resource !! RECONCILE_ANNOTATION = Some "disabled")
    by (vm_compute; reflexivity).
  split; [split; [now exists g | now split]|].
  destruct (@completed_sweep_accounts_for_every_suspended_instance Demo.externals c g _
              _ _ resource (Demo.myapp_meta Demo.suspended_only) "myapp"
              (@run_sweep_eta Demo.externals c g Hok) Hin (or_introl eq_refl)
              eq_refl eq_refl Hrec)
    as (group & version & kind & namespace & _ & Hep & _ & Hcase).
  exists g, group, version, kind, namespace.
  split; [exact Hok|]. split; [exact Hep | exact Hcase].
Defined.

(** ** The claims about the whole sweep on the clusters of the examples *)

(** C3 does not hold of the script.  On [Ledgers.stuck] the suspend-until
    annotation of [apps/myapp] is no timestamp: [isoparse] raises
    [ValueError], which the handler of line 114 does not catch.  The sweep
    ends there with that exception: the one log record is the debug record
    of [apps/myapp], no error is logged, [apps/other], which is suspended
    for good and was listed with it, is never looked at, nothing is
    patched and no gauge is handed out. *)
Theorem unparseable_timeout_ends_sweep :
  isoparse Demo.externals "next week" = Raise (OtherError "ValueError")
  /\ listed (Cluster.sweep_trace Demo.time Ledgers.stuck)
     = [("/apis/apps/v1/helmreleases", Demo.myapp (Demo.suspended_until "next week"));
        ("/apis/apps/v1/helmreleases", Demo.other Demo.suspended_only)]
  /\ (Cluster.sweep Demo.time Ledgers.stuck).1 = Raise (OtherError "ValueError")
  /\ logged (Cluster.sweep_trace Demo.time Ledgers.stuck)
     = [(DEBUG, "Resource apps/v1 apps/myapp is suspended")]
  /\ patches (Cluster.sweep_trace Demo.time Ledgers.stuck) = []
  /\ Demo.samples (Cluster.sweep Demo.time Ledgers.stuck).1 = None.
Proof.
  assert (Hparse : isoparse Demo.externals "next week" = Raise (OtherError "ValueError"))
    by reflexivity.
  assert (Hraise : (Cluster.sweep Demo.time Ledgers.stuck).1 = Raise (OtherError "ValueError"))
    by (vm_compute; reflexivity).
  split; [exact Hparse|]. split; [vm_compute; reflexivity|].
  split; [exact Hraise|]. split; [vm_compute; reflexivity|].
  split; [vm_compute; reflexivity|].
  rewrite Hraise. reflexivity.
Qed.

(** A suspension of [apps/myapp] by alice that ended ten seconds before
    noon: the one request of the sweep is the removal of the three
    annotations. *)
Lemma timed_out_removed_witness :
  let annotations := Demo.suspended_by_until "alice" "2024-06-01T11:59:50" in
  let c := Demo.cluster annotations Demo.noon in
  (@run_sweep Demo.externals c).1 = Ok getGauges
  /\ isoparse Demo.externals "2024-06-01T11:59:50" = Ok (20240601115950%Z, false)
  /\ @readings Demo.externals c = [(20240601120000%Z, false)]
  /\ datetime_lt Demo.externals (20240601115950%Z, false) (20240601120000%Z, false)
     = Ok true
  /\ exists e,
       locate e = ("/apis/apps/v1/helmreleases", Demo.myapp annotations)
       /\ e_outcome e = Removed
       /\ patches (Cluster.sweep_trace Demo.time c) = [(e_request e, Ok 200%Z)]
       /\ (e_request e).2
          = patch_body [RECONCILE_ANNOTATION; SUSPEND_UNTIL_ANNOTATION; SUSPENDED_BY_ANNOTATION].
Proof.
  intros annotations c.
  assert (Hok : (@run_sweep Demo.externals c).1 = Ok getGauges) by (vm_compute; reflexivity).
  assert (Hparse : isoparse Demo.externals "2024-06-01T11:59:50"
                   = Ok (20240601115950%Z, false)) by reflexivity.
  assert (Hreadings : @readings Demo.externals c = [(20240601120000%Z, false)])
    by (vm_compute; reflexivity).
  assert (Hpast : forall current, In current (@readings Demo.externals c) ->
            datetime_lt Demo.externals (20240601115950%Z, false) current = Ok true).
  { intros current Hin. rewrite Hreadings in Hin. now destruct Hin as [<- | []]. }
  split; [exact Hok|]. split; [exact Hparse|]. split; [exact Hreadings|].
  split; [reflexivity|].
  destruct (@timed_out_removed Demo.externals c getGauges (@run_sweep Demo.externals c).2
              (@run_sweep_eta Demo.externals c getGauges Hok))
    as (entries & Hlisted & _ & Hpatches & _ & Hremoved).
  assert (Hl : listed (trace (@run_sweep Demo.externals c).2)
               = [("/apis/apps/v1/helmreleases", Demo.myapp annotations)])
    by (vm_compute; reflexivity).
  rewrite Hl in Hlisted.
  destruct entries as [|e [|e' entries]];
    [discriminate Hlisted | | discriminate Hlisted].
  assert (Hloc : locate e = ("/apis/apps/v1/helmreleases", Demo.myapp annotations))
    by (cbn [map] in Hlisted; congruence).
  assert (Hann : e_annotations e = annotations).
  { unfold e_annotations. apply (f_equal snd) in Hloc. cbn [snd locate] in Hloc.
    now rewrite Hloc. }
  destruct (Hremoved e "2024-06-01T11:59:50" (20240601115950%Z, false))
    as (Hout & Hone & _ & _ & _); try (rewrite Hann; reflexivity); auto.
  { now left. }
  exists e. split; [exact Hloc|]. split; [exact Hout|]. split.
  - change (Cluster.sweep_trace Demo.time c) with (trace (@run_sweep Demo.externals c).2).
    rewrite Hpatches. exact Hone.
  - unfold e_request. cbn [snd]. rewrite Hann. reflexivity.
Defined.

(** A suspension of [apps/myapp], by nobody, until half past twelve: the
    three gauges hold its labels with 1, 1 and 0. *)
Lemma gauge_values_witness :
  let annotations := Demo.suspended_until "2024-06-01T12:30:00" in
  let c := Demo.cluster annotations Demo.noon in
  isoparse Demo.externals "2024-06-01T12:30:00" = Ok (20240601123000%Z, false)
  /\ @readings Demo.externals c = [(20240601120000%Z, false)]
  /\ datetime_lt Demo.externals (20240601123000%Z, false) (20240601120000%Z, false)
     = Ok false
  /\ exists g e,
       (@run_sweep Demo.externals c).1 = Ok g
       /\ locate e = ("/apis/apps/v1/helmreleases", Demo.myapp annotations)
       /\ e_outcome e = Yielded true false
       /\ exists i : nat,
            gm_samples (gAll g) !! i = Some (e_labels e, 1%Z)
            /\ gm_samples (gUnowned g) !! i = Some (e_labels e, 1%Z)
            /\ gm_samples (gIndefinite g) !! i = Some (e_labels e, 0%Z).
Proof.
  intros annotations c.
  set (g := match (@run_sweep Demo.externals c).1 with Ok g => g | Raise _ => getGauges end).
  assert (Hok : (@run_sweep Demo.externals c).1 = Ok g) by (vm_compute; reflexivity).
  assert (Hparse : isoparse Demo.externals "2024-06-01T12:30:00"
                   = Ok (20240601123000%Z, false)) by reflexivity.
  assert (Hreadings : @readings Demo.externals c = [(20240601120000%Z, false)])
    by (vm_compute; reflexivity).
  assert (Hahead : forall current, In current (@readings Demo.externals c) ->
            datetime_lt Demo.externals (20240601123000%Z, false) current = Ok false).
  { intros current Hin. rewrite Hreadings in Hin. now destruct Hin as [<- | []]. }
  split; [exact Hparse|]. split; [exact Hreadings|]. split; [reflexivity|].
  destruct (@gauge_values Demo.externals c g (@run_sweep Demo.externals c).2
              (@run_sweep_eta Demo.externals c g Hok))
    as (entries & Hlisted & _ & _ & _ & _ & Hyielded).
  assert (Hl : listed (trace (@run_sweep Demo.externals c).2)
               = [("/apis/apps/v1/helmreleases", Demo.myapp annotations)])
    by (vm_compute; reflexivity).
  rewrite Hl in Hlisted.
  destruct entries as [|e [|e' entries]];
    [discriminate Hlisted | | discriminate Hlisted].
  assert (Hloc : locate e = ("/apis/apps/v1/helmreleases", Demo.myapp annotations))
    by (cbn [map] in Hlisted; congruence).
  assert (Hann : e_annotations e = annotations).
  { unfold e_annotations. apply (f_equal snd) in Hloc. cbn [snd locate] in Hloc.
    now rewrite Hloc. }
  destruct (Hyielded e "2024-06-01T12:30:00" (20240601123000%Z, false))
    as (Hout & i & Hi); try (rewrite Hann; reflexivity); auto.
  { now left. }
  exists g, e. split; [exact Hok|]. split; [exact Hloc|]. split; [exact Hout|].
  now exists i.
Defined.

(** On [Ledgers.mixed] the collections of [configmaps] and of
    [helmreleases] are listed, that of [bindings], which has not the verb
    [list], is not, and [apps/myapp] has its entry. *)
Lemma enumeration_order_witness :
  exists g,
    (@run_sweep Demo.externals Ledgers.mixed).1 = Ok g
    /\ discovered (Cluster.sweep_trace Demo.time Ledgers.mixed)
       = [("/api/v1", [Ledgers.bindings; Demo.configmaps]);
          ("/apis/apps/v1", [Demo.helmreleases])]
    /\ listings (Cluster.sweep_trace Demo.time Ledgers.mixed)
       = ["/api/v1/configmaps"; "/apis/apps/v1/helmreleases"]
    /\ exists e,
         locate e = ("/apis/apps/v1/helmreleases", Demo.myapp Demo.suspended_only)
         /\ entry_ok Demo.externals
              (fun current => In current (@readings Demo.externals Ledgers.mixed))
              (Cluster.sweep_trace Demo.time Ledgers.mixed) e.
Proof.
  set (c := Ledgers.mixed).
  set (g := match (@run_sweep Demo.externals c).1 with Ok g => g | Raise _ => getGauges end).
  assert (Hok : (@run_sweep Demo.externals c).1 = Ok g) by (vm_compute; reflexivity).
  exists g. split; [exact Hok|].
  destruct (@enumeration_order Demo.externals c) as (_ & _ & _ & Hended).
  destruct (Hended g (@run_sweep Demo.externals c).2 (@run_sweep_eta Demo.externals c g Hok))
    as (_ & groups & entries & _ & _ & Hlistings & Hlisted & Hentries).
  assert (Hd : discovered (trace (@run_sweep Demo.externals c).2)
               = [("/api/v1", [Ledgers.bindings; Demo.configmaps]);
                  ("/apis/apps/v1", [Demo.helmreleases])])
    by (vm_compute; reflexivity).
  assert (Hl : listed (trace (@run_sweep Demo.externals c).2)
               = [("/apis/apps/v1/helmreleases", Demo.myapp Demo.suspended_only)])
    by (vm_compute; reflexivity).
  split; [exact Hd|]. split.
  - change (Cluster.sweep_trace Demo.time c) with (trace (@run_sweep Demo.externals c).2).
    rewrite Hlistings, Hd. reflexivity.
  - rewrite Hl in Hlisted.
    destruct entries as [|e [|e' entries]];
    [discriminate Hlisted | | discriminate Hlisted].
    exists e. split; [cbn [map] in Hlisted; congruence|]. now inversion Hentries.
Defined.

(** C2 as the specification has it fails on a timestamp with a zone
    designator.  The suspend-until annotation of [apps/myapp] is a valid
    timestamp, years before noon, but [isoparse] reads it as a
    timezone-aware datetime: its comparison with the naive reading of the
    clock raises [TypeError], which ends the sweep before any removal. *)
Lemma zoned_timeout_counterexample :
  let c := Demo.cluster (Demo.suspended_until "2020-01-01T00:00:00Z") Demo.noon in
  isoparse Demo.externals "2020-01-01T00:00:00Z" = Ok (20200101000000%Z, true)
  /\ (20200101000000 <? (Demo.noon 0).1)%Z = true
  /\ datetime_lt Demo.externals (20200101000000%Z, true) (Demo.noon 0)
     = Raise (OtherError "TypeError")
  /\ listed (Cluster.sweep_trace Demo.time c)
     = [("/apis/apps/v1/helmreleases",
         Demo.myapp (Demo.suspended_until "2020-01-01T00:00:00Z"))]
  /\ (Cluster.sweep Demo.time c).1 = Raise (OtherError "TypeError")
  /\ patches (Cluster.sweep_trace Demo.time c) = [].
Proof.
  intros c. split; [reflexivity|]. split; [reflexivity|]. split; [reflexivity|].
  split; [vm_compute; reflexivity|]. split; vm_compute; reflexivity.
Qed.

(** C7 as the specification has it fails on a timestamp with a zone
    designator.  The suspend-until annotation of [apps/myapp] is a valid
    timestamp, years after noon, and there is no suspended-by annotation,
    but the comparison of the timezone-aware datetime with the naive
    reading of the clock raises [TypeError]: the sweep ends there and hands
    out no gauge. *)
Lemma zoned_future_timeout_counterexample :
  let c := Demo.cluster (Demo.suspended_until "2030-01-01T00:00:00Z") Demo.noon in
  isoparse Demo.externals "2030-01-01T00:00:00Z" = Ok (20300101000000%Z, true)
  /\ ((Demo.noon 0).1 <? 20300101000000)%Z = true
  /\ datetime_lt Demo.externals (20300101000000%Z, true) (Demo.noon 0)
     = Raise (OtherError "TypeError")
  /\ listed (Cluster.sweep_trace Demo.time c)
     = [("/apis/apps/v1/helmreleases",
         Demo.myapp (Demo.suspended_until "2030-01-01T00:00:00Z"))]
  /\ (Cluster.sweep Demo.time c).1 = Raise (OtherError "TypeError")
  /\ Demo.samples (Cluster.sweep Demo.time c).1 = None.
Proof.
  intros c.
  assert (Hraise : (Cluster.sweep Demo.time c).1 = Raise (OtherError "TypeError"))
    by (vm_compute; reflexivity).
  split; [reflexivity|]. split; [reflexivity|]. split; [reflexivity|].
  split; [vm_compute; reflexivity|]. split; [exact Hraise|].
  rewrite Hraise. reflexivity.
Qed.
